(** * csc469 a3: replicated key-value store, coordinator and server

    A shallow embedding of the metadata server (the first program of
    [a3/mserver.c]) and of the key-value server with replication and
    recovery (the program that follows it in the same file; [a3/server.c]
    is its skeleton without replication), together with the properties of
    the control plane that the design document states about them.

    Conventions.
    - C [int], [uint16_t] and [time_t] values are integers in [Z]; no
      arithmetic in the modelled code can overflow them.
    - The array [server_nodes] is a finite map from index to node.  Reading
      an index outside the array is undefined in C; here it yields
      [dead_node], and writing there changes nothing.
    - Everything the operating system or the network decides (results of
      [send_msg]/[recv_msg], [fork], [connect], [malloc], the clock) is an
      explicit argument of the function that observes it. *)

From Stdlib Require Import ZArith Lia Ascii String.
From stdpp Require Import base option gmap strings list fin_maps.

Open Scope Z_scope.

(** ** Shared declarations ([defs.h], [util.h]) *)

(** Modelled from the spec: [defs.h] is not part of the sources.  The
    enumerators are the ones the two programs use; a server is ONLINE, FAILED
    or being reconstructed (coordinator's view), or streaming / switching
    (server's own recovery state). *)
Inductive kv_server_state :=
| KV_SERVER_ONLINE
| KV_SERVER_FAILED
| KV_SERVER_RECON
| KV_UPDATING_PRIMARY
| KV_UPDATING_SECONDARY
| KV_SWITCHING_PRIMARY.

#[global] Instance kv_server_state_eq_dec : EqDecision kv_server_state.
Proof. solve_decision. Defined.

(** Operation status codes of [operation_response] ([defs.h]). *)
Inductive op_status :=
| SUCCESS
| SERVER_FAILURE
| KEY_NOT_FOUND
| OUT_OF_SPACE.

#[global] Instance op_status_eq_dec : EqDecision op_status.
Proof. solve_decision. Defined.

(** Status codes of [server_ctrl_response]. *)
Inductive ctrl_status :=
| CTRLREQ_SUCCESS
| CTRLREQ_FAILURE.

#[global] Instance ctrl_status_eq_dec : EqDecision ctrl_status.
Proof. solve_decision. Defined.

(** Commands the coordinator sends to a server. *)
Inductive server_ctrlreq_type :=
| SET_SECONDARY
| UPDATE_PRIMARY
| UPDATE_SECONDARY
| SWITCH_PRIMARY
| SHUTDOWN.

#[global] Instance server_ctrlreq_type_eq_dec : EqDecision server_ctrlreq_type.
Proof. solve_decision. Defined.

(** Messages a server sends to the coordinator; [MCTRL_INVALID] stands for
    any other value of the [type] field. *)
Inductive mserver_ctrlreq_type :=
| HEARTBEAT
| UPDATED_PRIMARY
| UPDATE_PRIMARY_FAILED
| UPDATED_SECONDARY
| UPDATE_SECONDARY_FAILED
| MCTRL_INVALID.

#[global] Instance mserver_ctrlreq_type_eq_dec : EqDecision mserver_ctrlreq_type.
Proof. solve_decision. Defined.

Record mserver_ctrl_request := MCtrlReq {
  mreq_type : mserver_ctrlreq_type;
  mreq_server_id : Z
}.

#[global] Instance mserver_ctrl_request_eq_dec : EqDecision mserver_ctrl_request.
Proof. solve_decision. Defined.

Record server_ctrl_request := CtrlReq {
  creq_type : server_ctrlreq_type;
  creq_host_name : string;
  creq_port : Z
}.

#[global] Instance server_ctrl_request_eq_dec : EqDecision server_ctrl_request.
Proof. solve_decision. Defined.

Record locate_response := LocResp {
  loc_host_name : string;
  loc_port : Z
}.

#[global] Instance locate_response_eq_dec : EqDecision locate_response.
Proof. solve_decision. Defined.

(** Placement ([util.h]). *)
Module Placement.

(** Modelled from the spec: [key_server_id] lives in [util.h], which is not
    part of the sources; [owner(key) = H(key) mod N] for a key hash [H] that
    the callers below take as a section variable. *)
Definition key_server_id (H : string → Z) (k : string) (n : Z) : Z := H k mod n.

(** Modelled from the spec: [secondary(i) = (i + 1) mod N]. *)
Definition secondary_server_id (i n : Z) : Z := (i + 1) mod n.

(** Modelled from the spec: [primary_of(i) = (i - 1 + N) mod N]. *)
Definition primary_server_id (i n : Z) : Z := (i - 1 + n) mod n.

End Placement.

Export Placement.

(** [strchr(s, '@')] followed by [at + 1]: the text after the first [@]. *)
Fixpoint after_at (s : string) : option string :=
  match s with
  | EmptyString => None
  | String c rest => if Ascii.eqb c "@"%char then Some rest else after_at rest
  end.

(** [(at == NULL) ? host_name : (at + 1)]. *)
Definition host_of (name : string) : string :=
  match after_at name with
  | None => name
  | Some h => h
  end.

(** ** The metadata server (first program of [mserver.c]) *)
Module MServer.

(** Program arguments after [getopt]; the numeric arguments are given as the
    integers [atoi] returns. *)
Inductive cli_option :=
| Opt_c (port : Z)
| Opt_s (port : Z)
| Opt_l (file : string)
| Opt_C (file : string)
| Opt_t (seconds : Z)
| Opt_invalid.

Record args := Args {
  clients_port : Z;
  servers_port : Z;
  cfg_file_name : string;
  log_file_name : string;
  server_timeout : Z
}.

Definition default_server_timeout : Z := 3.

(** The static variables before [parse_args] runs. *)
Definition args_init : args :=
  {| clients_port := 0; servers_port := 0; cfg_file_name := "";
     log_file_name := ""; server_timeout := 0 |}.

(** One turn of the [getopt] loop; [None] is the [return false] of the
    default case.  The two ports are [uint16_t]. *)
Definition parse_option (a : args) (o : cli_option) : option args :=
  match o with
  | Opt_c p => Some {| clients_port := p mod 65536; servers_port := servers_port a;
                       cfg_file_name := cfg_file_name a; log_file_name := log_file_name a;
                       server_timeout := server_timeout a |}
  | Opt_s p => Some {| clients_port := clients_port a; servers_port := p mod 65536;
                       cfg_file_name := cfg_file_name a; log_file_name := log_file_name a;
                       server_timeout := server_timeout a |}
  | Opt_l f => Some {| clients_port := clients_port a; servers_port := servers_port a;
                       cfg_file_name := cfg_file_name a; log_file_name := f;
                       server_timeout := server_timeout a |}
  | Opt_C f => Some {| clients_port := clients_port a; servers_port := servers_port a;
                       cfg_file_name := f; log_file_name := log_file_name a;
                       server_timeout := server_timeout a |}
  | Opt_t t => Some {| clients_port := clients_port a; servers_port := servers_port a;
                       cfg_file_name := cfg_file_name a; log_file_name := log_file_name a;
                       server_timeout := t |}
  | Opt_invalid => None
  end.

Fixpoint parse_options (a : args) (os : list cli_option) : option args :=
  match os with
  | [] => Some a
  | o :: os' =>
      match parse_option a o with
      | None => None
      | Some a' => parse_options a' os'
      end
  end.

(** [parse_args]: [None] when the function returns [false]. *)
Definition parse_args (os : list cli_option) : option args :=
  match parse_options args_init os with
  | None => None
  | Some a =>
      let a' := {| clients_port := clients_port a; servers_port := servers_port a;
                   cfg_file_name := cfg_file_name a; log_file_name := log_file_name a;
                   server_timeout := if server_timeout a =? 0
                                     then default_server_timeout
                                     else server_timeout a |} in
      if negb (clients_port a' =? 0) && negb (servers_port a' =? 0)
         && negb (String.eqb (cfg_file_name a') "")
      then Some a' else None
  end.

(** [struct _server_node], without the child's [pid], which only [kill_safe]
    reads. *)
Record server_node := Node {
  host_name : string;
  sport : Z;
  cport : Z;
  mport : Z;
  sid : Z;
  socket_fd_in : Z;
  socket_fd_out : Z;
  last_heartbeat : Z;
  server_status : kv_server_state;
  updated_primary_accepted : bool;
  updated_secondary_accepted : bool;
  ignore_put : bool
}.

(** What a read outside [server_nodes] yields in the model. *)
Definition dead_node : server_node :=
  {| host_name := ""; sport := 0; cport := 0; mport := 0; sid := -1;
     socket_fd_in := -1; socket_fd_out := -1; last_heartbeat := 0;
     server_status := KV_SERVER_FAILED;
     updated_primary_accepted := false; updated_secondary_accepted := false;
     ignore_put := true |}.

#[global] Instance server_node_inhabited : Inhabited server_node := populate dead_node.

Definition set_socket_fd_in (v : Z) (n : server_node) : server_node :=
  {| host_name := host_name n; sport := sport n; cport := cport n; mport := mport n;
     sid := sid n; socket_fd_in := v; socket_fd_out := socket_fd_out n;
     last_heartbeat := last_heartbeat n; server_status := server_status n;
     updated_primary_accepted := updated_primary_accepted n;
     updated_secondary_accepted := updated_secondary_accepted n;
     ignore_put := ignore_put n |}.

Definition set_socket_fd_out (v : Z) (n : server_node) : server_node :=
  {| host_name := host_name n; sport := sport n; cport := cport n; mport := mport n;
     sid := sid n; socket_fd_in := socket_fd_in n; socket_fd_out := v;
     last_heartbeat := last_heartbeat n; server_status := server_status n;
     updated_primary_accepted := updated_primary_accepted n;
     updated_secondary_accepted := updated_secondary_accepted n;
     ignore_put := ignore_put n |}.

Definition set_last_heartbeat (v : Z) (n : server_node) : server_node :=
  {| host_name := host_name n; sport := sport n; cport := cport n; mport := mport n;
     sid := sid n; socket_fd_in := socket_fd_in n; socket_fd_out := socket_fd_out n;
     last_heartbeat := v; server_status := server_status n;
     updated_primary_accepted := updated_primary_accepted n;
     updated_secondary_accepted := updated_secondary_accepted n;
     ignore_put := ignore_put n |}.

Definition set_server_status (v : kv_server_state) (n : server_node) : server_node :=
  {| host_name := host_name n; sport := sport n; cport := cport n; mport := mport n;
     sid := sid n; socket_fd_in := socket_fd_in n; socket_fd_out := socket_fd_out n;
     last_heartbeat := last_heartbeat n; server_status := v;
     updated_primary_accepted := updated_primary_accepted n;
     updated_secondary_accepted := updated_secondary_accepted n;
     ignore_put := ignore_put n |}.

Definition set_updated_primary_accepted (v : bool) (n : server_node) : server_node :=
  {| host_name := host_name n; sport := sport n; cport := cport n; mport := mport n;
     sid := sid n; socket_fd_in := socket_fd_in n; socket_fd_out := socket_fd_out n;
     last_heartbeat := last_heartbeat n; server_status := server_status n;
     updated_primary_accepted := v;
     updated_secondary_accepted := updated_secondary_accepted n;
     ignore_put := ignore_put n |}.

Definition set_updated_secondary_accepted (v : bool) (n : server_node) : server_node :=
  {| host_name := host_name n; sport := sport n; cport := cport n; mport := mport n;
     sid := sid n; socket_fd_in := socket_fd_in n; socket_fd_out := socket_fd_out n;
     last_heartbeat := last_heartbeat n; server_status := server_status n;
     updated_primary_accepted := updated_primary_accepted n;
     updated_secondary_accepted := v;
     ignore_put := ignore_put n |}.

Definition set_ignore_put (v : bool) (n : server_node) : server_node :=
  {| host_name := host_name n; sport := sport n; cport := cport n; mport := mport n;
     sid := sid n; socket_fd_in := socket_fd_in n; socket_fd_out := socket_fd_out n;
     last_heartbeat := last_heartbeat n; server_status := server_status n;
     updated_primary_accepted := updated_primary_accepted n;
     updated_secondary_accepted := updated_secondary_accepted n;
     ignore_put := v |}.

(** The address fields the failure detector saves and writes back. *)
Definition set_address (h : string) (sp cp mp : Z) (n : server_node) : server_node :=
  {| host_name := h; sport := sp; cport := cp; mport := mp;
     sid := sid n; socket_fd_in := socket_fd_in n; socket_fd_out := socket_fd_out n;
     last_heartbeat := last_heartbeat n; server_status := server_status n;
     updated_primary_accepted := updated_primary_accepted n;
     updated_secondary_accepted := updated_secondary_accepted n;
     ignore_put := ignore_put n |}.

(** The coordinator's globals, and the control requests it has handed to
    [send_msg] so far (newest last, each with the id of the server it was
    for). *)
Record mserver := MServer {
  prog_args : args;
  num_servers : Z;
  server_nodes : gmap Z server_node;
  sent : list (Z * server_ctrl_request)
}.

Definition with_nodes (f : gmap Z server_node → gmap Z server_node) (st : mserver) : mserver :=
  {| prog_args := prog_args st; num_servers := num_servers st;
     server_nodes := f (server_nodes st); sent := sent st |}.

(** [server_nodes[i].field = v] *)
Definition update_node (i : Z) (f : server_node → server_node) (st : mserver) : mserver :=
  with_nodes (alter f i) st.

Definition log_sent (i : Z) (r : server_ctrl_request) (st : mserver) : mserver :=
  {| prog_args := prog_args st; num_servers := num_servers st;
     server_nodes := server_nodes st; sent := sent st ++ [(i, r)] |}.

(** [server_nodes[i]] *)
Definition node_at (st : mserver) (i : Z) : server_node := server_nodes st !!! i.

(** Result of [spawn_server]'s system calls for one server id. *)
Inductive spawn_result :=
| SpawnForkFailed
| SpawnAcceptFailed
| SpawnConnectFailed
| Spawned (fd_in fd_out : Z).

(** What the environment answers during one call of a handler:
    - [fd_is_valid fd] ([util.h]);
    - [ctrl_reply i t]: the status in the response of server [i] to a control
      request of type [t], [None] when [send_msg] or [recv_msg] fails;
    - [spawn i]: how starting server [i] goes;
    - [now]: [time(NULL)]. *)
Record env := Env {
  fd_is_valid : Z → bool;
  ctrl_reply : Z → server_ctrlreq_type → option ctrl_status;
  spawn : Z → spawn_result;
  now : Z
}.

(** [spawn_server]: [true] for the return value 0, [false] for -1.
    [close_safe] leaves -1 in the descriptor. *)
Definition spawn_server (e : env) (i : Z) (st : mserver) : mserver * bool :=
  let st := update_node i (set_socket_fd_in (-1)) st in
  let st := update_node i (set_socket_fd_out (-1)) st in
  match spawn e i with
  | SpawnForkFailed => (st, false)
  | SpawnAcceptFailed => (st, false)
  | SpawnConnectFailed => (st, false)
  | Spawned fd_in fd_out =>
      let st := update_node i (set_socket_fd_in fd_in) st in
      let st := update_node i (set_socket_fd_out fd_out) st in
      (st, true)
  end.

(** The exchange at the end of [send_set_secondary] and [send_request]. *)
Definition exchange (e : env) (i : Z) (r : server_ctrl_request) (st : mserver) : mserver * bool :=
  let st := log_sent i r st in
  match ctrl_reply e i (creq_type r) with
  | None => (st, false)
  | Some CTRLREQ_SUCCESS => (st, true)
  | Some CTRLREQ_FAILURE => (st, false)
  end.

Section Coordinator.

(** The hash behind [key_server_id]. *)
Variable hash_key : string → Z.

Definition send_set_secondary (e : env) (i : Z) (st : mserver) : mserver * bool :=
  let secondary_node := node_at st (secondary_server_id i (num_servers st)) in
  let request := {| creq_type := SET_SECONDARY;
                    creq_host_name := host_of (host_name secondary_node);
                    creq_port := sport secondary_node |} in
  exchange e i request st.

Definition send_request (e : env) (i i2 : Z) (t : server_ctrlreq_type) (st : mserver)
  : mserver * bool :=
  let request :=
    if decide (t ≠ SWITCH_PRIMARY)
    then {| creq_type := t;
            creq_host_name := host_of (host_name (node_at st i2));
            creq_port := sport (node_at st i2) |}
    else {| creq_type := t; creq_host_name := ""; creq_port := 0 |} in
  if fd_is_valid e (socket_fd_out (node_at st i))
  then exchange e i request st
  else (st, false).

(** The server a locate request for [k] is answered with. *)
Definition route (st : mserver) (k : string) : Z :=
  let server_id := key_server_id hash_key k (num_servers st) in
  if decide (server_status (node_at st server_id) ≠ KV_SERVER_ONLINE)
  then secondary_server_id server_id (num_servers st)
  else server_id.

(** [process_client_message] of the coordinator.  [request] is the key
    [recv_msg] delivered ([None] when it fails); the result is the message
    written to the client, if any. *)
Definition process_client_message (st : mserver) (request : option string)
  : option locate_response :=
  match request with
  | None => None
  | Some k =>
      let server_id := route st k in
      if ignore_put (node_at st server_id) then None
      else Some {| loc_host_name := host_of (host_name (node_at st server_id));
                   loc_port := cport (node_at st server_id) |}
  end.

Definition handle_switch_primary (e : env) (Saa Sb : Z) (st : mserver) : mserver :=
  let st := update_node Saa (set_ignore_put true) st in
  let st := update_node Sb (set_ignore_put true) st in
  let st := (send_request e Sb Saa SWITCH_PRIMARY st).1 in
  let '(st, ok) := send_set_secondary e Saa st in
  if negb ok then st
  else
    let st := update_node Saa (set_ignore_put false) st in
    let st := update_node Sb (set_ignore_put false) st in
    update_node Saa (set_server_status KV_SERVER_ONLINE) st.

(** [process_server_message] of the coordinator; the boolean is its return
    value. *)
Definition process_server_message (e : env) (request : option mserver_ctrl_request)
    (st : mserver) : mserver * bool :=
  match request with
  | None => (st, false)
  | Some request =>
      match mreq_type request with
      | HEARTBEAT =>
          (update_node (mreq_server_id request) (set_last_heartbeat (now e)) st, true)
      | UPDATED_PRIMARY =>
          let Sb := mreq_server_id request in
          let Saa := primary_server_id Sb (num_servers st) in
          let st := update_node Saa (set_updated_primary_accepted true) st in
          if updated_primary_accepted (node_at st Saa)
             && updated_secondary_accepted (node_at st Saa)
          then (handle_switch_primary e Saa Sb st, true)
          else (st, true)
      | UPDATE_PRIMARY_FAILED => (st, true)
      | UPDATED_SECONDARY =>
          let Sc := mreq_server_id request in
          let Saa := secondary_server_id Sc (num_servers st) in
          let Sb := secondary_server_id Saa (num_servers st) in
          let st := update_node Saa (set_updated_secondary_accepted true) st in
          if updated_primary_accepted (node_at st Saa)
             && updated_secondary_accepted (node_at st Saa)
          then (handle_switch_primary e Saa Sb st, true)
          else (st, true)
      | UPDATE_SECONDARY_FAILED => (st, true)
      | MCTRL_INVALID => (st, false)
      end
  end.

Definition heartbeat_check_diff : Z := 2.

(** The condition of the failure detector,
    [node->last_heartbeat && difftime(time(NULL), node->last_heartbeat) > heartbeat_check_diff]. *)
Definition heartbeat_check_failed (e : env) (node : server_node) : bool :=
  negb (last_heartbeat node =? 0) && (heartbeat_check_diff <? now e - last_heartbeat node).

(** The body of the failure detection loop for index [i]. *)
Definition detect_failure (e : env) (st : mserver) (i : Z) : mserver :=
  let node := node_at st i in
  if heartbeat_check_failed e node then
    let st := update_node i (set_server_status KV_SERVER_FAILED) st in
    let Saa := i in
    let host_name_temp := host_name node in
    let sport_temp := sport node in
    let cport_temp := cport node in
    let mport_temp := mport node in
    let st := update_node i (set_socket_fd_in (-1)) st in
    let '(st, ok) := spawn_server e Saa st in
    if negb ok then st
    else
      let st := update_node Saa (set_address host_name_temp sport_temp cport_temp mport_temp) st in
      let st := update_node Saa (set_last_heartbeat (now e)) st in
      let st := update_node Saa (set_server_status KV_SERVER_RECON) st in
      let st := update_node Saa (set_updated_primary_accepted false) st in
      let st := update_node Saa (set_updated_secondary_accepted false) st in
      let st := update_node Saa (set_ignore_put false) st in
      let Sb := secondary_server_id Saa (num_servers st) in
      let st := (send_request e Sb Saa UPDATE_PRIMARY st).1 in
      let Sc := primary_server_id Saa (num_servers st) in
      (send_request e Sc Saa UPDATE_SECONDARY st).1
  else st.

(** [for (int i = 0; i < num_servers; i++)] over the detector body. *)
Definition failure_detection (e : env) (st : mserver) : mserver :=
  foldl (detect_failure e) st (seqZ 0 (num_servers st)).

(** What one turn of [run_mserver_loop] finds ready after [select]: messages
    on the inbound sockets of servers (each with the index of its node), then
    requests on the clients' sockets.  [ready_servers] lists, in the order
    of the loop, the nodes whose current descriptor the loop finds set in
    [rset], each with what [recv_msg] delivers on it; the other half of the
    loop's condition, [socket_fd_in != -1], is tested by [serve_server]. *)
Record ready := Ready {
  ready_env : env;
  ready_servers : list (Z * option mserver_ctrl_request);
  ready_clients : list (option string)
}.

(** The body of the loop over the servers' sockets: a message is read only
    from an open socket, and the socket is closed when the handler returns
    [false]. *)
Definition serve_server (e : env) (st : mserver) (m : Z * option mserver_ctrl_request)
  : mserver :=
  if decide (socket_fd_in (node_at st m.1) ≠ -1) then
    let '(st', ok) := process_server_message e m.2 st in
    if negb ok then update_node m.1 (set_socket_fd_in (-1)) st' else st'
  else st.

(** One turn of the loop in [run_mserver_loop] that does not end it: failure
    detection, then the servers' messages, then the clients' requests.  The
    result carries the answers to the clients, in order. *)
Definition loop_turn (st : mserver) (r : ready) : mserver * list (option locate_response) :=
  let st := failure_detection (ready_env r) st in
  let st := foldl (serve_server (ready_env r)) st (ready_servers r) in
  (st, map (process_client_message st) (ready_clients r)).

Fixpoint run_mserver_loop (st : mserver) (rs : list ready)
  : mserver * list (option locate_response) :=
  match rs with
  | [] => (st, [])
  | r :: rs' =>
      let '(st1, out1) := loop_turn st r in
      let '(st2, out2) := run_mserver_loop st1 rs' in
      (st2, out1 ++ out2)
  end.

End Coordinator.

(** ** Start-up and shutdown of the coordinator *)

(** One line of the configuration file as [fscanf] converts it: the host name
    and the three ports ([%hu]), clients' port first. *)
Record config_line := ConfigLine {
  cl_host_name : string;
  cl_cport : Z;
  cl_sport : Z;
  cl_mport : Z
}.

(** The configuration file as [fscanf] sees it: the number on the first line
    ([None] when nothing converts) and the lines after it ([None] for a line
    on which fewer than four items convert).  Reading past the last line
    fails in the same way. *)
Record config_file := ConfigFile {
  cfg_num_servers : option Z;
  cfg_lines : list (option config_line)
}.

(** [strchr(host_name, '@') != NULL] *)
Definition has_at (name : string) : bool :=
  match after_at name with
  | Some _ => true
  | None => false
  end.

(** The negation of the condition under which [read_config_file] gives up on
    a line. *)
Definition config_line_ok (l : config_line) : bool :=
  negb ((negb (String.eqb (cl_host_name l) "localhost") && negb (has_at (cl_host_name l)))
        || (cl_cport l =? 0) || (cl_sport l =? 0) || (cl_mport l =? 0)).

(** Entry [i] of the array [calloc] returns, filled in from line [l].
    [status0] is the enumerator of [kv_server_state] whose value is zero
    ([defs.h] is not part of the sources). *)
Definition configured_node (status0 : kv_server_state) (i : Z) (l : config_line) : server_node :=
  {| host_name := cl_host_name l; sport := cl_sport l; cport := cl_cport l;
     mport := cl_mport l; sid := i; socket_fd_in := -1; socket_fd_out := -1;
     last_heartbeat := 0; server_status := status0;
     updated_primary_accepted := false; updated_secondary_accepted := false;
     ignore_put := false |}.

(** The loop of [read_config_file] from index [i], with [n] entries to go. *)
Fixpoint read_nodes (status0 : kv_server_state) (lines : list (option config_line))
    (i : Z) (n : nat) (nodes : gmap Z server_node) {struct n}
  : option (gmap Z server_node) :=
  match n with
  | O => Some nodes
  | S n' =>
      match lines with
      | Some l :: rest =>
          if config_line_ok l
          then read_nodes status0 rest (i + 1) n' (<[i := configured_node status0 i l]> nodes)
          else None
      | _ => None
      end
  end.

(** [read_config_file]: the globals it sets, [None] when it returns [false].
    [file] is [None] when [fopen] fails; [calloc_ok] is whether [calloc]
    returns the array. *)
Definition read_config_file (status0 : kv_server_state) (calloc_ok : bool) (a : args)
    (file : option config_file) : option mserver :=
  match file with
  | None => None
  | Some f =>
      match cfg_num_servers f with
      | None => None
      | Some n =>
          if n <? 3 then None
          else if negb calloc_ok then None
          else
            match read_nodes status0 (cfg_lines f) 0 (Z.to_nat n) ∅ with
            | None => None
            | Some nodes =>
                Some {| prog_args := a; num_servers := n; server_nodes := nodes; sent := [] |}
            end
      end
  end.

(** The first loop of [init_servers], over the indices [ids]. *)
Fixpoint spawn_all (e : env) (ids : list Z) (st : mserver) : mserver * bool :=
  match ids with
  | [] => (st, true)
  | i :: ids' =>
      let '(st', ok) := spawn_server e i st in
      if ok then spawn_all e ids' st' else (st', false)
  end.

(** The second loop of [init_servers]. *)
Fixpoint send_set_secondary_all (e : env) (ids : list Z) (st : mserver) : mserver * bool :=
  match ids with
  | [] => (st, true)
  | i :: ids' =>
      let '(st', ok) := send_set_secondary e i st in
      if ok then send_set_secondary_all e ids' st' else (st', false)
  end.

Definition init_servers (e : env) (st : mserver) : mserver * bool :=
  let '(st1, ok) := spawn_all e (seqZ 0 (num_servers st)) st in
  if negb ok then (st1, false)
  else send_set_secondary_all e (seqZ 0 (num_servers st1)) st1.

(** The SHUTDOWN request of [cleanup]: a zeroed request with its type set. *)
Definition shutdown_request : server_ctrl_request :=
  {| creq_type := SHUTDOWN; creq_host_name := ""; creq_port := 0 |}.

(** The body of the loop of [cleanup] over the nodes. *)
Definition shutdown_node (st : mserver) (i : Z) : mserver :=
  let st := if decide (socket_fd_out (node_at st i) ≠ -1)
            then log_sent i shutdown_request st else st in
  let st := update_node i (set_socket_fd_out (-1)) st in
  update_node i (set_socket_fd_in (-1)) st.

(** [cleanup] of the coordinator.  A freed table ([server_nodes == NULL]) is
    the empty map, on which the loop writes nothing. *)
Definition cleanup (st : mserver) : mserver :=
  let st := foldl shutdown_node st (seqZ 0 (num_servers st)) in
  with_nodes (λ _, ∅) st.

(** [init_mserver], given whether the local host name is found and whether
    the two listening sockets can be created: the second component is its
    return value.  Without the host name it returns at once, without
    [cleanup]. *)
Definition init_mserver (host_name_ok servers_fd_ok clients_fd_ok : bool) (e : env)
    (st : mserver) : mserver * bool :=
  if negb host_name_ok then (st, false)
  else if negb servers_fd_ok then (cleanup st, false)
  else
    let '(st1, ok) := init_servers e st in
    if negb ok then (cleanup st1, false)
    else if negb clients_fd_ok then (cleanup st1, false)
    else (st1, true).

End MServer.

(** ** The key-value server (second program of [mserver.c]) *)
Module Server.

(** [op_type] of an operation request; [OP_INVALID] stands for any other
    value of the field. *)
Inductive op_type :=
| OP_NOOP
| OP_GET
| OP_PUT
| OP_INVALID.

#[global] Instance op_type_eq_dec : EqDecision op_type.
Proof. solve_decision. Defined.

(** An operation request; [op_value] is the bytes that follow the fixed
    part, [hdr.length] minus its size of them. *)
Record operation_request := OpReq {
  op : op_type;
  op_key : string;
  op_value : string
}.

#[global] Instance operation_request_eq_dec : EqDecision operation_request.
Proof. solve_decision. Defined.

(** An operation response: status and the [value_sz] bytes sent after it. *)
Record operation_response := OpResp {
  status : op_status;
  value : string
}.

#[global] Instance operation_response_eq_dec : EqDecision operation_response.
Proof. solve_decision. Defined.

(** What a server writes to a socket other than a response. *)
Inductive packet :=
| PktOp (r : operation_request)
| PktMCtrl (r : mserver_ctrl_request).

(** Modelled from the spec: [hash.h] is not part of the sources; the table is
    a black box with insert, lookup and iterate.  [hash_put] replaces the
    value of the key, and fails ([None]) when it cannot allocate, which the
    caller reports as out of memory. *)
Definition hash_put (can_allocate : bool) (table : gmap string string) (k v : string)
  : option (gmap string string) :=
  if can_allocate then Some (<[k := v]> table) else None.

(** Modelled from the spec: [hash_get] of [hash.h], lookup of a key. *)
Definition hash_get (table : gmap string string) (k : string) : option string :=
  table !! k.

(** Modelled from the spec: [hash_iterate] of [hash.h] visits every entry
    once; the order is the one of [map_to_list]. *)
Definition hash_iterate {A} (table : gmap string string) (f : string * string → A) : list A :=
  map f (map_to_list table).

(** The bytes of [src] before its first NUL. *)
Fixpoint until_nul (src : string) : string :=
  match src with
  | EmptyString => EmptyString
  | String c rest => if Ascii.eqb c Ascii.zero then EmptyString else String c (until_nul rest)
  end.

Fixpoint nuls (n : nat) : string :=
  match n with
  | O => EmptyString
  | S n' => String Ascii.zero (nuls n')
  end.

(** [strncpy(dst, src, value_sz)] into a zeroed buffer, for a [src] of
    [value_sz] bytes: the copy stops at the first NUL and the rest stays
    zero. *)
Definition strncpy (src : string) : string :=
  String.append (until_nul src)
    (nuls (String.length src - String.length (until_nul src))).

(** The server's globals. *)
Record server := Server {
  server_id : Z;
  num_servers : Z;
  state : kv_server_state;
  send_primary : bool;
  primary_hash : gmap string string;
  secondary_hash : gmap string string;
  primary_fd : Z;
  secondary_fd : Z;
  mserver_fd_out : Z
}.

Definition set_state (v : kv_server_state) (s : server) : server :=
  {| server_id := server_id s; num_servers := num_servers s; state := v;
     send_primary := send_primary s; primary_hash := primary_hash s;
     secondary_hash := secondary_hash s; primary_fd := primary_fd s;
     secondary_fd := secondary_fd s; mserver_fd_out := mserver_fd_out s |}.

Definition set_send_primary (v : bool) (s : server) : server :=
  {| server_id := server_id s; num_servers := num_servers s; state := state s;
     send_primary := v; primary_hash := primary_hash s;
     secondary_hash := secondary_hash s; primary_fd := primary_fd s;
     secondary_fd := secondary_fd s; mserver_fd_out := mserver_fd_out s |}.

Definition set_primary_hash (v : gmap string string) (s : server) : server :=
  {| server_id := server_id s; num_servers := num_servers s; state := state s;
     send_primary := send_primary s; primary_hash := v;
     secondary_hash := secondary_hash s; primary_fd := primary_fd s;
     secondary_fd := secondary_fd s; mserver_fd_out := mserver_fd_out s |}.

Definition set_secondary_hash (v : gmap string string) (s : server) : server :=
  {| server_id := server_id s; num_servers := num_servers s; state := state s;
     send_primary := send_primary s; primary_hash := primary_hash s;
     secondary_hash := v; primary_fd := primary_fd s;
     secondary_fd := secondary_fd s; mserver_fd_out := mserver_fd_out s |}.

Definition set_primary_fd (v : Z) (s : server) : server :=
  {| server_id := server_id s; num_servers := num_servers s; state := state s;
     send_primary := send_primary s; primary_hash := primary_hash s;
     secondary_hash := secondary_hash s; primary_fd := v;
     secondary_fd := secondary_fd s; mserver_fd_out := mserver_fd_out s |}.

Definition set_secondary_fd (v : Z) (s : server) : server :=
  {| server_id := server_id s; num_servers := num_servers s; state := state s;
     send_primary := send_primary s; primary_hash := primary_hash s;
     secondary_hash := secondary_hash s; primary_fd := primary_fd s;
     secondary_fd := v; mserver_fd_out := mserver_fd_out s |}.

(** [table] is a pointer to one of the two tables. *)
Inductive table_ref :=
| PrimaryHash
| SecondaryHash.

Definition table_of (r : table_ref) (s : server) : gmap string string :=
  match r with
  | PrimaryHash => primary_hash s
  | SecondaryHash => secondary_hash s
  end.

Definition set_table (r : table_ref) (v : gmap string string) (s : server) : server :=
  match r with
  | PrimaryHash => set_primary_hash v s
  | SecondaryHash => set_secondary_hash v s
  end.

(** What the environment answers during one call of a handler:
    - [malloc_ok]: [malloc] of the value copy succeeds;
    - [hash_put_ok]: [hash_put] finds the memory it needs;
    - [fd_is_valid fd] ([util.h]);
    - [forward_reply]: the status in the partner's response to a forwarded
      PUT, [None] when [recv_msg] fails;
    - [connect_to_server host port]: the new descriptor, negative on failure;
    - [pthread_create_ok]: the streaming thread starts. *)
Record env := Env {
  malloc_ok : bool;
  hash_put_ok : bool;
  fd_is_valid : Z → bool;
  forward_reply : option op_status;
  connect_to_server : string → Z → Z;
  pthread_create_ok : bool
}.

(** Result of the client handler: the new globals, the request forwarded to
    the partner (with its descriptor) when one is sent, and the response
    written to the client when one is written. *)
Record client_result := ClientResult {
  cr_server : server;
  cr_forwarded : option (Z * operation_request);
  cr_reply : option operation_response
}.

Section KVServer.

(** The hash behind [key_server_id]. *)
Variable hash_key : string → Z.

(** The owner check at the head of [process_client_message]: [true] when the
    request is refused. *)
Definition invalid_client_key (s : server) (k : string) : bool :=
  let key_srv_id := key_server_id hash_key k (num_servers s) in
  let secondary_srv_id := secondary_server_id key_srv_id (num_servers s) in
  (bool_decide (state s ≠ KV_UPDATING_PRIMARY) && bool_decide (key_srv_id ≠ server_id s))
  || (bool_decide (state s = KV_UPDATING_PRIMARY) && bool_decide (key_srv_id ≠ server_id s)
      && bool_decide (secondary_srv_id ≠ server_id s)).

(** [secondary_as_primary ? &secondary_hash : &primary_hash] *)
Definition secondary_as_primary (s : server) (k : string) : bool :=
  let key_srv_id := key_server_id hash_key k (num_servers s) in
  let secondary_srv_id := secondary_server_id key_srv_id (num_servers s) in
  bool_decide (state s = KV_UPDATING_PRIMARY) && bool_decide (secondary_srv_id = server_id s).

Definition client_table (s : server) (k : string) : table_ref :=
  if secondary_as_primary s k then SecondaryHash else PrimaryHash.

(** [process_client_message] of the server.  [request] is what [recv_msg]
    delivered ([None] when it fails).  The per-key [hash_lock] taken before
    [hash_put] is released on every path out of the PUT case and is not
    part of the state. *)
Definition process_client_message (e : env) (request : option operation_request) (s : server)
  : client_result :=
  match request with
  | None => ClientResult s None None
  | Some request =>
      if invalid_client_key s (op_key request)
      then ClientResult s None (Some (OpResp SERVER_FAILURE ""))
      else
        let table := client_table s (op_key request) in
        match op request with
        | OP_NOOP => ClientResult s None (Some (OpResp SUCCESS ""))
        | OP_GET =>
            match hash_get (table_of table s) (op_key request) with
            | None => ClientResult s None (Some (OpResp KEY_NOT_FOUND ""))
            | Some data => ClientResult s None (Some (OpResp SUCCESS data))
            end
        | OP_PUT =>
            if negb (malloc_ok e)
            then ClientResult s None (Some (OpResp OUT_OF_SPACE ""))
            else
              match hash_put (hash_put_ok e) (table_of table s) (op_key request) (op_value request) with
              | None => ClientResult s None (Some (OpResp OUT_OF_SPACE ""))
              | Some table' =>
                  let s := set_table table table' s in
                  let forward_fd :=
                    if secondary_as_primary s (op_key request)
                    then primary_fd s else secondary_fd s in
                  if fd_is_valid e forward_fd then
                    match forward_reply e with
                    | None => ClientResult s (Some (forward_fd, request)) None
                    | Some st =>
                        if decide (st ≠ SUCCESS)
                        then ClientResult s (Some (forward_fd, request)) None
                        else ClientResult s (Some (forward_fd, request))
                                          (Some (OpResp SUCCESS ""))
                    end
                  else ClientResult s None (Some (OpResp SUCCESS ""))
              end
        | OP_INVALID => ClientResult s None None
        end
  end.

(** The body of the loop over the clients' sockets in [process_client_task]. *)
Definition serve_client (e : env) (request : option operation_request) (s : server)
  : client_result :=
  if decide (state s = KV_SWITCHING_PRIMARY)
  then ClientResult s None (Some (OpResp SERVER_FAILURE ""))
  else process_client_message e request s.

(** [process_server_message] of the server: the new globals, the response
    written to the peer if any, and the return value ([false]: the caller
    closes the connection). *)
Definition process_server_message (e : env) (request : option operation_request) (s : server)
  : server * option operation_response * bool :=
  match request with
  | None => (s, None, false)
  | Some request =>
      match op request with
      | OP_NOOP => (s, None, false)
      | OP_PUT =>
          if negb (malloc_ok e) then (s, Some (OpResp OUT_OF_SPACE ""), true)
          else
            let primary_srv_id := key_server_id hash_key (op_key request) (num_servers s) in
            let secondary_srv_id := secondary_server_id primary_srv_id (num_servers s) in
            if bool_decide (server_id s ≠ primary_srv_id)
               && bool_decide (server_id s ≠ secondary_srv_id)
            then (s, Some (OpResp SERVER_FAILURE ""), true)
            else
              let table := if decide (server_id s = primary_srv_id)
                           then PrimaryHash else SecondaryHash in
              match hash_put (hash_put_ok e) (table_of table s) (op_key request) (op_value request) with
              | None => (s, Some (OpResp OUT_OF_SPACE ""), true)
              | Some table' => (set_table table table' s, Some (OpResp SUCCESS ""), true)
              end
      | OP_GET => (s, Some (OpResp SERVER_FAILURE ""), true)
      | OP_INVALID => (s, Some (OpResp SERVER_FAILURE ""), true)
      end
  end.

End KVServer.

(** [send_table_iterator_f]: the PUT written for one entry, with the
    descriptor it is written to. *)
Definition send_table_iterator_f (s : server) (entry : string * string) : Z * packet :=
  let new_fd := if send_primary s then secondary_fd s else primary_fd s in
  (new_fd, PktOp {| op := OP_PUT; op_key := entry.1; op_value := strncpy entry.2 |}).

(** [send_table_task]: everything the streaming thread writes, in order, and
    the globals when it ends. *)
Definition send_table_task (s : server) : server * list (Z * packet) :=
  let table := if send_primary s then primary_hash s else secondary_hash s in
  let puts := hash_iterate table (send_table_iterator_f s) in
  let request := {| mreq_type := if send_primary s then UPDATED_SECONDARY else UPDATED_PRIMARY;
                    mreq_server_id := server_id s |} in
  (set_state KV_SERVER_ONLINE s, puts ++ [(mserver_fd_out s, PktMCtrl request)]).

(** [send_to_replacement]: the new globals, what is written (by the function
    itself on failure, by the streaming thread otherwise), and the return
    value ([true] for 0). *)
Definition send_to_replacement (e : env) (host : string) (port : Z) (s : server)
  : server * list (Z * packet) * bool :=
  let failed (s : server) :=
    let s := set_state KV_SERVER_ONLINE s in
    let request := {| mreq_type := if send_primary s then UPDATE_SECONDARY_FAILED
                                   else UPDATE_PRIMARY_FAILED;
                      mreq_server_id := server_id s |} in
    (s, [(mserver_fd_out s, PktMCtrl request)], false) in
  let new_fd := connect_to_server e host port in
  if new_fd <? 0 then failed s
  else
    let s := if send_primary s
             then set_state KV_UPDATING_SECONDARY (set_secondary_fd new_fd s)
             else set_state KV_UPDATING_PRIMARY (set_primary_fd new_fd s) in
    if negb (pthread_create_ok e) then failed s
    else
      let '(s, out) := send_table_task s in
      (s, out, true).

(** ** Start-up of the server and the coordinator's commands *)

(** Program arguments of the server after [getopt]; the numeric arguments are
    given as the integers [atoi] returns, and the two names are taken to fit
    the buffers [strncpy] copies them to. *)
Inductive cli_option :=
| Opt_h (host : string)
| Opt_m (port : Z)
| Opt_c (port : Z)
| Opt_s (port : Z)
| Opt_M (port : Z)
| Opt_S (id : Z)
| Opt_n (n : Z)
| Opt_l (file : string)
| Opt_invalid.

(** The static variables [parse_args] fills in; [arg_server_id] and
    [arg_num_servers] are the globals [server_id] and [num_servers]. *)
Record args := Args {
  mserver_host_name : string;
  mserver_port : Z;
  clients_port : Z;
  servers_port : Z;
  mservers_port : Z;
  arg_server_id : Z;
  arg_num_servers : Z;
  log_file_name : string
}.

(** Their initial values. *)
Definition args_init : args :=
  {| mserver_host_name := ""; mserver_port := 0; clients_port := 0; servers_port := 0;
     mservers_port := 0; arg_server_id := -1; arg_num_servers := 0; log_file_name := "" |}.

(** One turn of the [getopt] loop; [None] is the [return false] of the
    default case.  The four ports are [uint16_t]. *)
Definition parse_option (a : args) (o : cli_option) : option args :=
  match o with
  | Opt_h h => Some {| mserver_host_name := h; mserver_port := mserver_port a;
                       clients_port := clients_port a; servers_port := servers_port a;
                       mservers_port := mservers_port a; arg_server_id := arg_server_id a;
                       arg_num_servers := arg_num_servers a; log_file_name := log_file_name a |}
  | Opt_m p => Some {| mserver_host_name := mserver_host_name a; mserver_port := p mod 65536;
                       clients_port := clients_port a; servers_port := servers_port a;
                       mservers_port := mservers_port a; arg_server_id := arg_server_id a;
                       arg_num_servers := arg_num_servers a; log_file_name := log_file_name a |}
  | Opt_c p => Some {| mserver_host_name := mserver_host_name a; mserver_port := mserver_port a;
                       clients_port := p mod 65536; servers_port := servers_port a;
                       mservers_port := mservers_port a; arg_server_id := arg_server_id a;
                       arg_num_servers := arg_num_servers a; log_file_name := log_file_name a |}
  | Opt_s p => Some {| mserver_host_name := mserver_host_name a; mserver_port := mserver_port a;
                       clients_port := clients_port a; servers_port := p mod 65536;
                       mservers_port := mservers_port a; arg_server_id := arg_server_id a;
                       arg_num_servers := arg_num_servers a; log_file_name := log_file_name a |}
  | Opt_M p => Some {| mserver_host_name := mserver_host_name a; mserver_port := mserver_port a;
                       clients_port := clients_port a; servers_port := servers_port a;
                       mservers_port := p mod 65536; arg_server_id := arg_server_id a;
                       arg_num_servers := arg_num_servers a; log_file_name := log_file_name a |}
  | Opt_S i => Some {| mserver_host_name := mserver_host_name a; mserver_port := mserver_port a;
                       clients_port := clients_port a; servers_port := servers_port a;
                       mservers_port := mservers_port a; arg_server_id := i;
                       arg_num_servers := arg_num_servers a; log_file_name := log_file_name a |}
  | Opt_n n => Some {| mserver_host_name := mserver_host_name a; mserver_port := mserver_port a;
                       clients_port := clients_port a; servers_port := servers_port a;
                       mservers_port := mservers_port a; arg_server_id := arg_server_id a;
                       arg_num_servers := n; log_file_name := log_file_name a |}
  | Opt_l f => Some {| mserver_host_name := mserver_host_name a; mserver_port := mserver_port a;
                       clients_port := clients_port a; servers_port := servers_port a;
                       mservers_port := mservers_port a; arg_server_id := arg_server_id a;
                       arg_num_servers := arg_num_servers a; log_file_name := f |}
  | Opt_invalid => None
  end.

Fixpoint parse_options (a : args) (os : list cli_option) : option args :=
  match os with
  | [] => Some a
  | o :: os' =>
      match parse_option a o with
      | None => None
      | Some a' => parse_options a' os'
      end
  end.

(** [parse_args] of the server: [None] when the function returns [false]. *)
Definition parse_args (os : list cli_option) : option args :=
  match parse_options args_init os with
  | None => None
  | Some a =>
      if negb (String.eqb (mserver_host_name a) "") && negb (mserver_port a =? 0)
         && negb (clients_port a =? 0) && negb (servers_port a =? 0)
         && negb (mservers_port a =? 0) && (3 <=? arg_num_servers a)
         && (0 <=? arg_server_id a) && (arg_server_id a <? arg_num_servers a)
      then Some a else None
  end.

(** What the system answers while [init_server] runs: whether the host name
    is found, whether the three listening sockets are created, the
    descriptor [connect_to_server] returns for the coordinator (negative on
    failure), whether the two tables and the heartbeat thread can be
    created. *)
Record init_env := InitEnv {
  host_name_ok : bool;
  listen_ok : bool;
  mserver_connect : Z;
  primary_hash_init_ok : bool;
  secondary_hash_init_ok : bool;
  heartbeat_thread_ok : bool
}.

(** [init_server]: the globals when it returns [true], [None] when it
    returns [false]. *)
Definition init_server (ie : init_env) (a : args) : option server :=
  if negb (host_name_ok ie) then None
  else if negb (listen_ok ie) then None
  else if mserver_connect ie <? 0 then None
  else if negb (primary_hash_init_ok ie) then None
  else if negb (secondary_hash_init_ok ie) then None
  else if negb (heartbeat_thread_ok ie) then None
  else Some {| server_id := arg_server_id a; num_servers := arg_num_servers a;
               state := KV_SERVER_ONLINE; send_primary := false;
               primary_hash := ∅; secondary_hash := ∅;
               primary_fd := -1; secondary_fd := -1;
               mserver_fd_out := mserver_connect ie |}.

(** The message [heartbeat_task] sends once per interval. *)
Definition heartbeat_request (s : server) : mserver_ctrl_request :=
  {| mreq_type := HEARTBEAT; mreq_server_id := server_id s |}.

(** [send_to_replacement] up to the return of [pthread_create]: the new
    globals, what the function itself writes (the FAILED message of the
    rollback), and whether the streaming thread was started. *)
Definition start_replacement (e : env) (host : string) (port : Z) (s : server)
  : server * list (Z * packet) * bool :=
  let failed (s : server) :=
    let s := set_state KV_SERVER_ONLINE s in
    let request := {| mreq_type := if send_primary s then UPDATE_SECONDARY_FAILED
                                   else UPDATE_PRIMARY_FAILED;
                      mreq_server_id := server_id s |} in
    (s, [(mserver_fd_out s, PktMCtrl request)], false) in
  let new_fd := connect_to_server e host port in
  if new_fd <? 0 then failed s
  else
    let s := if send_primary s
             then set_state KV_UPDATING_SECONDARY (set_secondary_fd new_fd s)
             else set_state KV_UPDATING_PRIMARY (set_primary_fd new_fd s) in
    if negb (pthread_create_ok e) then failed s
    else (s, [], true).

(** Result of the handler of the coordinator's commands: the new globals, the
    status of the response when one is written, [*shutdown_requested], the
    return value, what the handler and the streaming thread it starts write
    to the replacement and to the coordinator, and the outcome of every
    client request flushed. *)
Record mserver_result := MServerResult {
  mr_server : server;
  mr_response : option ctrl_status;
  mr_shutdown_requested : bool;
  mr_return : bool;
  mr_packets : list (Z * packet);
  mr_flushed : list client_result
}.

Section Commands.

(** The hash behind [key_server_id]. *)
Variable hash_key : string → Z.

(** The loop of the SWITCH_PRIMARY case over the valid entries of
    [client_fd_table]: each pending request, with what the environment
    answers while it is handled, goes through the client handler. *)
Fixpoint flush_clients (pending : list (env * option operation_request)) (s : server)
  : server * list client_result :=
  match pending with
  | [] => (s, [])
  | (e, request) :: rest =>
      let r := process_client_message hash_key e request s in
      let '(s', rs) := flush_clients rest (cr_server r) in
      (s', r :: rs)
  end.

(** [process_mserver_message].  [pending] is what the SWITCH_PRIMARY case
    finds in [client_fd_table]. *)
Definition process_mserver_message (e : env) (pending : list (env * option operation_request))
    (request : option server_ctrl_request) (s : server) : mserver_result :=
  match request with
  | None => MServerResult s None false false [] []
  | Some request =>
      match creq_type request with
      | SET_SECONDARY =>
          let fd := connect_to_server e (creq_host_name request) (creq_port request) in
          MServerResult (set_secondary_fd fd s)
            (Some (if fd <? 0 then CTRLREQ_FAILURE else CTRLREQ_SUCCESS)) false true [] []
      | SHUTDOWN => MServerResult s None true true [] []
      | UPDATE_PRIMARY =>
          let s := set_send_primary false s in
          let '(s, out, ok) :=
            send_to_replacement e (creq_host_name request) (creq_port request) s in
          MServerResult s (Some (if ok then CTRLREQ_SUCCESS else CTRLREQ_FAILURE))
            false true out []
      | UPDATE_SECONDARY =>
          let s := set_send_primary true s in
          let '(s, out, ok) :=
            send_to_replacement e (creq_host_name request) (creq_port request) s in
          MServerResult s (Some (if ok then CTRLREQ_SUCCESS else CTRLREQ_FAILURE))
            false true out []
      | SWITCH_PRIMARY =>
          let s := set_state KV_SWITCHING_PRIMARY s in
          let '(s, flushed) := flush_clients pending s in
          MServerResult (set_state KV_SERVER_ONLINE s) (Some CTRLREQ_SUCCESS)
            false true [] flushed
      end
  end.

End Commands.

End Server.

(** ** A three-server configuration used in the examples *)
Module Scenario.

Import MServer.

(** A key hash for the examples: the length of the key. *)
Definition H0 (k : string) : Z := Z.of_nat (String.length k).

(** A node as [read_config_file] and [spawn_server] leave it. *)
Definition fresh_node (host : string) (port i : Z) : server_node :=
  {| host_name := host; sport := port + 1; cport := port; mport := port + 2; sid := i;
     socket_fd_in := 10 + i; socket_fd_out := 20 + i; last_heartbeat := 0;
     server_status := KV_SERVER_ONLINE;
     updated_primary_accepted := false; updated_secondary_accepted := false;
     ignore_put := false |}.

Definition args0 : args :=
  {| clients_port := 5000; servers_port := 5001; cfg_file_name := "srv.cfg";
     log_file_name := ""; server_timeout := 3 |}.

Definition st0 : mserver :=
  {| prog_args := args0; num_servers := 3;
     server_nodes := list_to_map [(0, fresh_node "localhost" 9000 0);
                                  (1, fresh_node "alice@h1" 9010 1);
                                  (2, fresh_node "bob@h2" 9020 2)];
     sent := [] |}.

(** Every exchange succeeds and every spawn works, at time [t]. *)
Definition env_ok (t : Z) : env :=
  {| fd_is_valid := λ fd, 0 <=? fd;
     ctrl_reply := λ _ _, Some CTRLREQ_SUCCESS;
     spawn := λ i, Spawned (30 + i) (40 + i);
     now := t |}.

(** No replacement can be started, at time [t]. *)
Definition env_no_spawn (t : Z) : env :=
  {| fd_is_valid := λ fd, 0 <=? fd;
     ctrl_reply := λ _ _, Some CTRLREQ_SUCCESS;
     spawn := λ _, SpawnForkFailed;
     now := t |}.

(** The replacement does not acknowledge SET_SECONDARY, at time [t]. *)
Definition env_set_secondary_fails (t : Z) : env :=
  {| fd_is_valid := λ fd, 0 <=? fd;
     ctrl_reply := λ _ c, match c with
                          | SET_SECONDARY => Some CTRLREQ_FAILURE
                          | _ => Some CTRLREQ_SUCCESS
                          end;
     spawn := λ i, Spawned (30 + i) (40 + i);
     now := t |}.

(** All three servers send a heartbeat. *)
Definition heartbeats : list (Z * option mserver_ctrl_request) :=
  [(0, Some (MCtrlReq HEARTBEAT 0)); (1, Some (MCtrlReq HEARTBEAT 1));
   (2, Some (MCtrlReq HEARTBEAT 2))].

(** Server 0 is being reconstructed: the state in which the two
    acknowledgments are awaited. *)
Definition st0_recovering : mserver :=
  update_node 0 (set_server_status KV_SERVER_RECON) st0.

(** Server 1 of the three, holding one key of its own shard and one of the
    shard it replicates. *)
Definition srv1 : Server.server :=
  {| Server.server_id := 1; Server.num_servers := 3;
     Server.state := KV_SERVER_ONLINE; Server.send_primary := false;
     Server.primary_hash := {[ "a"%string := "old"%string ]};
     Server.secondary_hash := {[ "abc"%string := "red"%string ]};
     Server.primary_fd := 7; Server.secondary_fd := 8; Server.mserver_fd_out := 3 |}.

(** Memory is available and the partner answers a forwarded PUT with
    [reply]. *)
Definition env_forward (reply : option op_status) : Server.env :=
  {| Server.malloc_ok := true; Server.hash_put_ok := true;
     Server.fd_is_valid := λ fd, 0 <=? fd;
     Server.forward_reply := reply;
     Server.connect_to_server := λ _ _, 9;
     Server.pthread_create_ok := true |}.

(** The configuration file of the three servers. *)
Definition cfg0 : config_file :=
  {| cfg_num_servers := Some 3;
     cfg_lines := [Some (ConfigLine "localhost" 9000 9001 9002);
                   Some (ConfigLine "alice@h1" 9010 9011 9012);
                   Some (ConfigLine "bob@h2" 9020 9021 9022)] |}.

(** The table [read_config_file] makes of it. *)
Definition st_configured : mserver :=
  {| prog_args := args0; num_servers := 3;
     server_nodes :=
       list_to_map
         [(0, configured_node KV_SERVER_ONLINE 0 (ConfigLine "localhost" 9000 9001 9002));
          (1, configured_node KV_SERVER_ONLINE 1 (ConfigLine "alice@h1" 9010 9011 9012));
          (2, configured_node KV_SERVER_ONLINE 2 (ConfigLine "bob@h2" 9020 9021 9022))];
     sent := [] |}.

(** Servers 1 and 2 were last heard at time 100, server 0 at time 97. *)
Definition st0_late : mserver :=
  update_node 0 (set_last_heartbeat 97)
    (update_node 1 (set_last_heartbeat 100)
       (update_node 2 (set_last_heartbeat 100) st0)).

(** Servers 0 and 1 can be started, server 2 cannot. *)
Definition env_spawn_two : env :=
  {| fd_is_valid := λ fd, 0 <=? fd;
     ctrl_reply := λ _ _, Some CTRLREQ_SUCCESS;
     spawn := λ i, if i <? 2 then Spawned (30 + i) (40 + i) else SpawnForkFailed;
     now := 0 |}.

(** A command line of the coordinator. *)
Definition options0 : list cli_option :=
  [Opt_c 5000; Opt_t 7; Opt_s 5001; Opt_C "srv.cfg"; Opt_t 0].

(** The command line of server 1 of the three. *)
Definition server_options1 : list Server.cli_option :=
  [Server.Opt_h "localhost"; Server.Opt_m 5001; Server.Opt_c 9010; Server.Opt_s 9011;
   Server.Opt_M 9012; Server.Opt_S 1; Server.Opt_n 3].

Definition server_args1 : Server.args :=
  {| Server.mserver_host_name := "localhost"; Server.mserver_port := 5001;
     Server.clients_port := 9010; Server.servers_port := 9011; Server.mservers_port := 9012;
     Server.arg_server_id := 1; Server.arg_num_servers := 3; Server.log_file_name := "" |}.

(** Everything [init_server] asks for is there; the coordinator is reached
    on descriptor 3. *)
Definition init_env_ok : Server.init_env :=
  {| Server.host_name_ok := true; Server.listen_ok := true; Server.mserver_connect := 3;
     Server.primary_hash_init_ok := true; Server.secondary_hash_init_ok := true;
     Server.heartbeat_thread_ok := true |}.

(** Server [i] of the three as [init_server] leaves it. *)
Definition srv_started (i : Z) : Server.server :=
  {| Server.server_id := i; Server.num_servers := 3;
     Server.state := KV_SERVER_ONLINE; Server.send_primary := false;
     Server.primary_hash := ∅; Server.secondary_hash := ∅;
     Server.primary_fd := -1; Server.secondary_fd := -1; Server.mserver_fd_out := 3 |}.

End Scenario.

(** ** Vocabulary of the statements *)

Section CoordinatorVocabulary.

Import MServer.

Variable hash_key : string → Z.

(** [i] is an index of the array [server_nodes]. *)
Definition in_table (st : mserver) (i : Z) : Prop := is_Some (server_nodes st !! i).

(** The configuration [read_config_file] accepts: at least three servers,
    one node per index. *)
Definition well_formed (st : mserver) : Prop :=
  3 ≤ num_servers st ∧ ∀ i, 0 ≤ i < num_servers st → in_table st i.

(** The table while the switch is in progress. *)
Definition switching (Saa Sb : Z) (st : mserver) : mserver :=
  update_node Sb (set_ignore_put true) (update_node Saa (set_ignore_put true) st).

(** The table once the switch is done. *)
Definition switched (Saa Sb : Z) (st : mserver) : mserver :=
  update_node Saa (set_server_status KV_SERVER_ONLINE)
    (update_node Sb (set_ignore_put false)
       (update_node Saa (set_ignore_put false) (switching Saa Sb st))).

(** The same globals with other program arguments. *)
Definition set_prog_args (a : args) (st : mserver) : mserver :=
  {| prog_args := a; num_servers := num_servers st;
     server_nodes := server_nodes st; sent := sent st |}.


(** The answer that names node [i]. *)
Definition answer_of (st : mserver) (i : Z) : locate_response :=
  {| loc_host_name := host_of (host_name (node_at st i)); loc_port := cport (node_at st i) |}.

(** What a locate request reads of a node. *)
Definition same_view (n1 n2 : server_node) : Prop :=
  host_name n1 = host_name n2 ∧ cport n1 = cport n2 ∧
  server_status n1 = server_status n2 ∧ ignore_put n1 = ignore_put n2.

(** No server message of the turn is a heartbeat of server [i]. *)
Definition no_heartbeat_from (i : Z) (r : ready) : Prop :=
  Forall (λ m : Z * option mserver_ctrl_request, m.2 ≠ Some (MCtrlReq HEARTBEAT i))
         (ready_servers r).

(** No server message of the turn is an acknowledgment of a stream. *)
Definition no_acknowledgment (r : ready) : Prop :=
  Forall (λ m : Z * option mserver_ctrl_request,
            ∀ q, m.2 = Some q →
                 mreq_type q ≠ UPDATED_PRIMARY ∧ mreq_type q ≠ UPDATED_SECONDARY)
         (ready_servers r).

(** The turns [rs], run from [st], neither find [Saa] or [Sb] timed out nor
    deliver an acknowledgment. *)
Fixpoint undisturbed (Saa Sb : Z) (st : mserver) (rs : list ready) : Prop :=
  match rs with
  | [] => True
  | r :: rs' =>
      heartbeat_check_failed (ready_env r) (node_at st Saa) = false ∧
      heartbeat_check_failed (ready_env r) (node_at st Sb) = false ∧
      no_acknowledgment r ∧
      undisturbed Saa Sb (loop_turn hash_key st r).1 rs'
  end.

(** The fields of a node that come from the configuration file. *)
Definition address (n : server_node) : string * Z * Z * Z * Z :=
  (host_name n, sport n, cport n, mport n, sid n).

(** The node the detector leaves when the replacement of [n] has started:
    [n]'s address, the new sockets, a fresh heartbeat time. *)
Definition replacement_of (t fd_in fd_out : Z) (n : server_node) : server_node :=
  {| host_name := host_name n; sport := sport n; cport := cport n; mport := mport n;
     sid := sid n; socket_fd_in := fd_in; socket_fd_out := fd_out;
     last_heartbeat := t; server_status := KV_SERVER_RECON;
     updated_primary_accepted := false; updated_secondary_accepted := false;
     ignore_put := false |}.

(** The node the detector leaves when no replacement could be started. *)
Definition abandoned (n : server_node) : server_node :=
  set_socket_fd_out (-1) (set_socket_fd_in (-1) (set_server_status KV_SERVER_FAILED n)).

(** The request that tells a server where the replacement [n] listens. *)
Definition update_request (t : server_ctrlreq_type) (n : server_node) : server_ctrl_request :=
  {| creq_type := t; creq_host_name := host_of (host_name n); creq_port := sport n |}.

(** A line of the configuration file that [read_config_file] accepts. *)
Definition acceptable_line (l : config_line) : Prop :=
  (cl_host_name l = "localhost" ∨ has_at (cl_host_name l) = true) ∧
  cl_cport l ≠ 0 ∧ cl_sport l ≠ 0 ∧ cl_mport l ≠ 0.

(** The properties of a node that survive a turn in which the server is
    alive: its sockets, and its status unless it is put ONLINE. *)
Definition kept_alive (n0 n : server_node) : Prop :=
  socket_fd_in n = socket_fd_in n0 ∧ socket_fd_out n = socket_fd_out n0 ∧
  (server_status n = server_status n0 ∨ server_status n = KV_SERVER_ONLINE).

(** The message on the socket of node [m.1] is one the coordinator's
    handler accepts. *)
Definition accepted_message (m : Z * option mserver_ctrl_request) : Prop :=
  ∃ q, m.2 = Some q ∧ mreq_type q ≠ MCTRL_INVALID.

(** Through the turns [rs], the first at most two seconds after time [t] and
    each at most two seconds after the one before, the socket of server [i]
    delivers a heartbeat of [i] and nothing the handler refuses. *)
Fixpoint heartbeats_in_time (i t : Z) (rs : list ready) : Prop :=
  match rs with
  | [] => True
  | r :: rs' =>
      now (ready_env r) - t ≤ 2 ∧
      (i, Some (MCtrlReq HEARTBEAT i)) ∈ ready_servers r ∧
      (∀ m, m ∈ ready_servers r → m.1 = i → accepted_message m) ∧
      heartbeats_in_time i (now (ready_env r)) rs'
  end.

(** The value of the last [-t] among the options, [t0] when there is none. *)
Definition last_timeout (t0 : Z) (os : list cli_option) : Z :=
  foldl (λ t o, match o with Opt_t v => v | _ => t end) t0 os.

(** [spawn_server] cannot start server [i]. *)
Definition spawn_fails (e : env) (i : Z) : Prop :=
  ∀ fd_in fd_out, spawn e i ≠ Spawned fd_in fd_out.

End CoordinatorVocabulary.

Section ServerVocabulary.

Import Server.

Variable hash_key : string → Z.

(** The arguments [parse_args] accepts. *)
Definition valid_ids (s : server) : Prop :=
  3 ≤ num_servers s ∧ 0 ≤ server_id s < num_servers s.

(** The server stands in for the primary of the shard [k] belongs to. *)
Definition interim_primary (s : server) (k : string) : Prop :=
  state s = KV_UPDATING_PRIMARY ∧
  secondary_server_id (key_server_id hash_key k (num_servers s)) (num_servers s) = server_id s.

(** The operation requests among what a server has written. *)
Definition stream_requests (out : list (Z * packet)) : list operation_request :=
  omap (λ p : Z * packet, match p.2 with PktOp r => Some r | PktMCtrl _ => None end) out.

(** A server handles the peer requests [reqs] one after the other. *)
Definition receive_all (e : env) (reqs : list operation_request) (d : server) : server :=
  foldl (λ d r, (process_server_message hash_key e (Some r) d).1.1) d reqs.

(** The value has no NUL byte. *)
Fixpoint no_nul (v : string) : Prop :=
  match v with
  | EmptyString => True
  | String c rest => c ≠ Ascii.zero ∧ no_nul rest
  end.

(** The server is the owner of the key or the secondary of its owner. *)
Definition holds_key (s : server) (k : string) : Prop :=
  server_id s = key_server_id hash_key k (num_servers s) ∨
  server_id s = secondary_server_id (key_server_id hash_key k (num_servers s)) (num_servers s).

(** The table in which a server keeps a key it receives from a peer. *)
Definition peer_table (s : server) (k : string) : table_ref :=
  if decide (server_id s = key_server_id hash_key k (num_servers s))
  then PrimaryHash else SecondaryHash.

(** Everything of the globals but the two tables. *)
Definition control_state (s : server) : Z * Z * kv_server_state * bool * Z * Z * Z :=
  (server_id s, num_servers s, state s, send_primary s,
   primary_fd s, secondary_fd s, mserver_fd_out s).

End ServerVocabulary.

(** * Properties of the coordinator *)

Section CoordinatorFacts.

Import MServer.

(** ** Placement arithmetic *)

Lemma key_server_id_range hash_key k n : 0 < n → 0 ≤ key_server_id hash_key k n < n.
Proof. intros Hn. unfold key_server_id. apply Z.mod_pos_bound. lia. Qed.

Lemma secondary_server_id_range i n : 0 < n → 0 ≤ secondary_server_id i n < n.
Proof. intros Hn. unfold secondary_server_id. apply Z.mod_pos_bound. lia. Qed.

Lemma primary_server_id_range i n : 0 < n → 0 ≤ primary_server_id i n < n.
Proof. intros Hn. unfold primary_server_id. apply Z.mod_pos_bound. lia. Qed.

Lemma secondary_server_id_cases i n :
  0 ≤ i < n →
  secondary_server_id i n = (if decide (i = n - 1) then 0 else i + 1).
Proof.
  intros Hi. unfold secondary_server_id. case_decide as Hd.
  - subst i. replace (n - 1 + 1) with n by lia. apply Z_mod_same_full.
  - apply Z.mod_small. lia.
Qed.

Lemma primary_server_id_cases i n :
  0 ≤ i < n →
  primary_server_id i n = (if decide (i = 0) then n - 1 else i - 1).
Proof.
  intros Hi. unfold primary_server_id. case_decide as Hd.
  - subst i. replace (0 - 1 + n) with (n - 1) by lia. apply Z.mod_small. lia.
  - replace (i - 1 + n) with (i - 1 + 1 * n) by lia.
    rewrite Z_mod_plus_full. apply Z.mod_small. lia.
Qed.

Lemma primary_of_secondary i n :
  0 ≤ i < n → primary_server_id (secondary_server_id i n) n = i.
Proof.
  intros Hi.
  rewrite primary_server_id_cases by (apply secondary_server_id_range; lia).
  rewrite secondary_server_id_cases by done.
  repeat case_decide; lia.
Qed.

Lemma secondary_of_primary i n :
  0 ≤ i < n → secondary_server_id (primary_server_id i n) n = i.
Proof.
  intros Hi.
  rewrite secondary_server_id_cases by (apply primary_server_id_range; lia).
  rewrite primary_server_id_cases by done.
  repeat case_decide; lia.
Qed.

Lemma secondary_server_id_neq i n :
  2 ≤ n → 0 ≤ i < n → secondary_server_id i n ≠ i.
Proof.
  intros Hn Hi. rewrite secondary_server_id_cases by done. case_decide; lia.
Qed.

Lemma primary_secondary_distinct i n :
  3 ≤ n → 0 ≤ i < n → primary_server_id i n ≠ secondary_server_id i n.
Proof.
  intros Hn Hi. rewrite secondary_server_id_cases, primary_server_id_cases by done.
  repeat case_decide; lia.
Qed.

(** ** Reading and writing [server_nodes] *)

Lemma node_at_update_node i j f st :
  node_at (update_node i f st) j =
    if decide (i = j ∧ in_table st i) then f (node_at st j) else node_at st j.
Proof.
  unfold node_at, update_node, with_nodes, in_table; simpl.
  rewrite lookup_total_alter. case_decide as Hij.
  - subst j. destruct (server_nodes st !! i) as [n|] eqn:Hn.
    + rewrite decide_True by eauto.
      simpl. by rewrite (lookup_total_correct _ _ _ Hn).
    + rewrite decide_False by (intros [_ [? ?]]; done).
      simpl. by rewrite lookup_total_alt, Hn.
  - rewrite decide_False by (intros [? _]; done). done.
Qed.

Lemma node_at_update_node_eq i f st :
  in_table st i → node_at (update_node i f st) i = f (node_at st i).
Proof. intros Hi. rewrite node_at_update_node. by rewrite decide_True. Qed.

Lemma node_at_update_node_ne i j f st :
  i ≠ j → node_at (update_node i f st) j = node_at st j.
Proof.
  intros Hij. rewrite node_at_update_node.
  rewrite decide_False; [done | intros [? _]; done].
Qed.

Lemma in_table_update_node i j f st : in_table (update_node i f st) j ↔ in_table st j.
Proof.
  unfold in_table, update_node, with_nodes; simpl.
  rewrite lookup_alter. case_decide; [subst; apply fmap_is_Some | done].
Qed.

Lemma num_servers_update_node i f st : num_servers (update_node i f st) = num_servers st.
Proof. done. Qed.

Lemma sent_update_node i f st : sent (update_node i f st) = sent st.
Proof. done. Qed.

(** A property of one node that no write of [f] to any node disturbs. *)
Lemma update_node_preserves (Q : server_node → Prop) i j f st :
  (i = j → Q (node_at st j) → Q (f (node_at st j))) →
  Q (node_at st j) → Q (node_at (update_node i f st) j).
Proof.
  intros Hf HQ. rewrite node_at_update_node. case_decide as Hd; [|done].
  destruct Hd as [-> _]. auto.
Qed.

(** ** The exchanges leave [server_nodes] alone *)

Lemma exchange_nodes e i r st : server_nodes (exchange e i r st).1 = server_nodes st.
Proof. unfold exchange. by repeat case_match. Qed.

Lemma exchange_num_servers e i r st : num_servers (exchange e i r st).1 = num_servers st.
Proof. unfold exchange. by repeat case_match. Qed.

Lemma exchange_sent e i r st : sent (exchange e i r st).1 = sent st ++ [(i, r)].
Proof. unfold exchange. by repeat case_match. Qed.

Lemma exchange_ok e i r st :
  (exchange e i r st).2 = bool_decide (ctrl_reply e i (creq_type r) = Some CTRLREQ_SUCCESS).
Proof. unfold exchange. by repeat case_match. Qed.

Lemma node_at_nodes st st' j : server_nodes st' = server_nodes st → node_at st' j = node_at st j.
Proof. unfold node_at. by intros ->. Qed.

Lemma send_request_nodes e i i2 t st :
  server_nodes (send_request e i i2 t st).1 = server_nodes st.
Proof. unfold send_request. case_match; [apply exchange_nodes | done]. Qed.

Lemma send_request_num_servers e i i2 t st :
  num_servers (send_request e i i2 t st).1 = num_servers st.
Proof. unfold send_request. case_match; [apply exchange_num_servers | done]. Qed.

Lemma send_set_secondary_nodes e i st :
  server_nodes (send_set_secondary e i st).1 = server_nodes st.
Proof. apply exchange_nodes. Qed.

Lemma send_set_secondary_num_servers e i st :
  num_servers (send_set_secondary e i st).1 = num_servers st.
Proof. apply exchange_num_servers. Qed.

Lemma send_set_secondary_ok e i st :
  (send_set_secondary e i st).2 = bool_decide (ctrl_reply e i SET_SECONDARY = Some CTRLREQ_SUCCESS).
Proof. unfold send_set_secondary. by rewrite exchange_ok. Qed.

(** ** The switch handler *)

Lemma handle_switch_primary_nodes e Saa Sb st :
  server_nodes (handle_switch_primary e Saa Sb st) =
    if bool_decide (ctrl_reply e Saa SET_SECONDARY = Some CTRLREQ_SUCCESS)
    then server_nodes (switched Saa Sb st)
    else server_nodes (switching Saa Sb st).
Proof.
  unfold handle_switch_primary.
  set (st1 := update_node Sb _ (update_node Saa _ st)).
  set (st2 := (send_request e Sb Saa SWITCH_PRIMARY st1).1).
  pose proof (send_set_secondary_ok e Saa st2) as Hok.
  pose proof (send_set_secondary_nodes e Saa st2) as Hn.
  destruct (send_set_secondary e Saa st2) as [st3 ok]; simpl in *.
  assert (server_nodes st3 = server_nodes st1) as Hn'.
  { rewrite Hn. apply send_request_nodes. }
  rewrite <- Hok. destruct ok; simpl.
  - unfold switched, switching. fold st1. by rewrite Hn'.
  - done.
Qed.

Lemma handle_switch_primary_num_servers e Saa Sb st :
  num_servers (handle_switch_primary e Saa Sb st) = num_servers st.
Proof.
  unfold handle_switch_primary.
  set (st1 := update_node Sb _ (update_node Saa _ st)).
  set (st2 := (send_request e Sb Saa SWITCH_PRIMARY st1).1).
  pose proof (send_set_secondary_num_servers e Saa st2) as Hn.
  destruct (send_set_secondary e Saa st2) as [st3 ok]; simpl in *.
  assert (num_servers st3 = num_servers st) as Hn'.
  { rewrite Hn. unfold st2. by rewrite send_request_num_servers. }
  by destruct ok.
Qed.

(** The first request a started switch writes is SWITCH_PRIMARY to [Sb]. *)
Lemma handle_switch_primary_sent e Saa Sb st :
  fd_is_valid e (socket_fd_out (node_at st Sb)) = true →
  ∃ rest, sent (handle_switch_primary e Saa Sb st) =
            sent st ++ (Sb, CtrlReq SWITCH_PRIMARY "" 0) :: rest.
Proof.
  intros Hfd. unfold handle_switch_primary.
  set (st1 := update_node Sb _ (update_node Saa _ st)).
  assert (socket_fd_out (node_at st1 Sb) = socket_fd_out (node_at st Sb)) as Hout.
  { unfold st1. rewrite !node_at_update_node. by repeat case_decide. }
  assert (sent (send_request e Sb Saa SWITCH_PRIMARY st1).1
          = sent st ++ [(Sb, CtrlReq SWITCH_PRIMARY "" 0)]) as Hs.
  { unfold send_request. rewrite Hout, Hfd.
    rewrite decide_False by (intros ?; done). by rewrite exchange_sent. }
  set (st2 := (send_request e Sb Saa SWITCH_PRIMARY st1).1) in *.
  exists [(Saa, CtrlReq SET_SECONDARY
                  (host_of (host_name (node_at st2 (secondary_server_id Saa (num_servers st2)))))
                  (sport (node_at st2 (secondary_server_id Saa (num_servers st2)))))].
  assert (sent (send_set_secondary e Saa st2).1 = sent st2 ++
    [(Saa, CtrlReq SET_SECONDARY
                  (host_of (host_name (node_at st2 (secondary_server_id Saa (num_servers st2)))))
                  (sport (node_at st2 (secondary_server_id Saa (num_servers st2)))))]) as Hs2.
  { unfold send_set_secondary. by rewrite exchange_sent. }
  destruct (send_set_secondary e Saa st2) as [st3 ok]; simpl in *.
  rewrite Hs in Hs2. rewrite <- app_assoc in Hs2. simpl in Hs2.
  by destruct ok.
Qed.

End CoordinatorFacts.

(** ** Acknowledgments of the two streams *)

Section Acknowledgments.

Import MServer.

Lemma process_updated_primary e st Sb :
  let Saa := primary_server_id Sb (num_servers st) in
  in_table st Saa →
  process_server_message e (Some (MCtrlReq UPDATED_PRIMARY Sb)) st =
    let st1 := update_node Saa (set_updated_primary_accepted true) st in
    if updated_secondary_accepted (node_at st Saa)
    then (handle_switch_primary e Saa Sb st1, true)
    else (st1, true).
Proof.
  intros Saa Hin. unfold process_server_message; simpl. fold Saa.
  rewrite node_at_update_node_eq by done. simpl. done.
Qed.

Lemma process_updated_secondary e st Sc :
  let Saa := secondary_server_id Sc (num_servers st) in
  let Sb := secondary_server_id Saa (num_servers st) in
  in_table st Saa →
  process_server_message e (Some (MCtrlReq UPDATED_SECONDARY Sc)) st =
    let st1 := update_node Saa (set_updated_secondary_accepted true) st in
    if updated_primary_accepted (node_at st Saa)
    then (handle_switch_primary e Saa Sb st1, true)
    else (st1, true).
Proof.
  intros Saa Sb Hin. unfold process_server_message; simpl. fold Saa. fold Sb.
  rewrite node_at_update_node_eq by done. simpl.
  by rewrite andb_true_r.
Qed.

(** The table while the switch is in progress has [ignore_put] set on both
    servers. *)
Lemma switching_ignore_put Saa Sb st :
  in_table st Saa → in_table st Sb →
  ignore_put (node_at (switching Saa Sb st) Saa) = true ∧
  ignore_put (node_at (switching Saa Sb st) Sb) = true.
Proof.
  intros Ha Hb. unfold switching. split.
  - destruct (decide (Sb = Saa)) as [->|Hne].
    + by rewrite node_at_update_node_eq by (by apply in_table_update_node).
    + rewrite node_at_update_node_ne by done. by rewrite node_at_update_node_eq.
  - by rewrite node_at_update_node_eq by (by apply in_table_update_node).
Qed.

(** When the switch handler returns, [ignore_put] is still set on both
    servers unless the replacement acknowledged SET_SECONDARY. *)
Lemma handle_switch_primary_ignore_put e Saa Sb st :
  in_table st Saa → in_table st Sb →
  let success := bool_decide (ctrl_reply e Saa SET_SECONDARY = Some CTRLREQ_SUCCESS) in
  ignore_put (node_at (handle_switch_primary e Saa Sb st) Saa) = negb success ∧
  ignore_put (node_at (handle_switch_primary e Saa Sb st) Sb) = negb success.
Proof.
  intros Ha Hb success.
  assert (∀ j, node_at (handle_switch_primary e Saa Sb st) j =
               if success then node_at (switched Saa Sb st) j
               else node_at (switching Saa Sb st) j) as Hat.
  { intros j. unfold node_at. rewrite handle_switch_primary_nodes. fold success.
    by destruct success. }
  rewrite !Hat. destruct success; simpl; [|by apply switching_ignore_put].
  assert (in_table (switching Saa Sb st) Saa) as Ha'
    by (unfold switching; by rewrite !in_table_update_node).
  assert (in_table (switching Saa Sb st) Sb) as Hb'
    by (unfold switching; by rewrite !in_table_update_node).
  unfold switched. set (sw := switching Saa Sb st) in *.
  set (st1 := update_node Saa (set_ignore_put false) sw).
  set (st2 := update_node Sb (set_ignore_put false) st1).
  assert (in_table st1 Sb) as Hb1 by (by apply in_table_update_node).
  assert (in_table st2 Saa) as Ha2 by (unfold st2, st1; by rewrite !in_table_update_node).
  assert (ignore_put (node_at st2 Sb) = false) as HSb
    by (unfold st2; by rewrite node_at_update_node_eq).
  assert (ignore_put (node_at st2 Saa) = false) as HSaa.
  { destruct (decide (Sb = Saa)) as [<-|Hne]; [done|].
    unfold st2. rewrite node_at_update_node_ne by done.
    unfold st1. by rewrite node_at_update_node_eq. }
  split.
  - by rewrite node_at_update_node_eq.
  - rewrite node_at_update_node. by case_decide.
Qed.

(** The switch handler does not touch the two acknowledgment flags. *)
Lemma handle_switch_primary_acks e Saa Sb st j :
  updated_primary_accepted (node_at (handle_switch_primary e Saa Sb st) j)
    = updated_primary_accepted (node_at st j) ∧
  updated_secondary_accepted (node_at (handle_switch_primary e Saa Sb st) j)
    = updated_secondary_accepted (node_at st j).
Proof.
  assert (node_at (handle_switch_primary e Saa Sb st) j =
          if bool_decide (ctrl_reply e Saa SET_SECONDARY = Some CTRLREQ_SUCCESS)
          then node_at (switched Saa Sb st) j else node_at (switching Saa Sb st) j) as ->.
  { unfold node_at. rewrite handle_switch_primary_nodes. by case_bool_decide. }
  case_bool_decide; unfold switched, switching;
    rewrite !node_at_update_node; by repeat case_decide.
Qed.

(** C2: after the failure detector has reset both flags of the failed server
    [Saa], one acknowledgment alone (UPDATED_PRIMARY from its secondary or
    UPDATED_SECONDARY from its primary) only records the flag: nothing is
    written and no [ignore_put] changes.  The second one, in either order,
    runs the switch handler: [ignore_put] is set on the replacement and on
    its secondary, SWITCH_PRIMARY is the first request written (when the
    secondary's outbound socket is valid), and when the handler returns
    [ignore_put] is still set on both unless the replacement acknowledged
    SET_SECONDARY.  The switch leaves both flags set, so from then on every
    further acknowledgment, alone, runs the switch handler again. *)
Theorem switch_waits_for_both_acks e1 e2 e3 st Saa :
  well_formed st → 0 ≤ Saa < num_servers st →
  updated_primary_accepted (node_at st Saa) = false →
  updated_secondary_accepted (node_at st Saa) = false →
  let Sb := secondary_server_id Saa (num_servers st) in
  let Sc := primary_server_id Saa (num_servers st) in
  let ack_p := Some (MCtrlReq UPDATED_PRIMARY Sb) in
  let ack_s := Some (MCtrlReq UPDATED_SECONDARY Sc) in
  let after_p := update_node Saa (set_updated_primary_accepted true) st in
  let after_s := update_node Saa (set_updated_secondary_accepted true) st in
  let both_p := update_node Saa (set_updated_secondary_accepted true) after_p in
  let both_s := update_node Saa (set_updated_primary_accepted true) after_s in
  let success := bool_decide (ctrl_reply e2 Saa SET_SECONDARY = Some CTRLREQ_SUCCESS) in
  (process_server_message e1 ack_p st = (after_p, true) ∧
   sent after_p = sent st ∧
   ∀ i, ignore_put (node_at after_p i) = ignore_put (node_at st i)) ∧
  (process_server_message e1 ack_s st = (after_s, true) ∧
   sent after_s = sent st ∧
   ∀ i, ignore_put (node_at after_s i) = ignore_put (node_at st i)) ∧
  (process_server_message e2 ack_s after_p = (handle_switch_primary e2 Saa Sb both_p, true) ∧
   (fd_is_valid e2 (socket_fd_out (node_at st Sb)) = true →
    ∃ rest, sent (process_server_message e2 ack_s after_p).1 =
              sent st ++ (Sb, CtrlReq SWITCH_PRIMARY "" 0) :: rest)) ∧
  (process_server_message e2 ack_p after_s = (handle_switch_primary e2 Saa Sb both_s, true) ∧
   (fd_is_valid e2 (socket_fd_out (node_at st Sb)) = true →
    ∃ rest, sent (process_server_message e2 ack_p after_s).1 =
              sent st ++ (Sb, CtrlReq SWITCH_PRIMARY "" 0) :: rest)) ∧
  (∀ both, both = both_p ∨ both = both_s →
     let st' := handle_switch_primary e2 Saa Sb both in
     ignore_put (node_at (switching Saa Sb both) Saa) = true ∧
     ignore_put (node_at (switching Saa Sb both) Sb) = true ∧
     server_nodes st' =
       server_nodes (if success then switched Saa Sb both else switching Saa Sb both) ∧
     ignore_put (node_at st' Saa) = negb success ∧
     ignore_put (node_at st' Sb) = negb success ∧
     updated_primary_accepted (node_at st' Saa) = true ∧
     updated_secondary_accepted (node_at st' Saa) = true ∧
     process_server_message e3 ack_p st' =
       (handle_switch_primary e3 Saa Sb
          (update_node Saa (set_updated_primary_accepted true) st'), true) ∧
     process_server_message e3 ack_s st' =
       (handle_switch_primary e3 Saa Sb
          (update_node Saa (set_updated_secondary_accepted true) st'), true)).
Proof.
  intros [HN Hwf] Ha Hp Hs Sb Sc ack_p ack_s after_p after_s both_p both_s success.
  assert (in_table st Saa) as Hin by auto.
  assert (0 ≤ Sb < num_servers st) as HSb by (apply secondary_server_id_range; lia).
  assert (in_table st Sb) as HinSb by auto.
  assert (primary_server_id Sb (num_servers st) = Saa) as HSaa_p
    by (apply primary_of_secondary; lia).
  assert (secondary_server_id Sc (num_servers st) = Saa) as HSaa_s
    by (apply secondary_of_primary; lia).
  assert (∀ f i, (∀ n, ignore_put (f n) = ignore_put n) →
                 ignore_put (node_at (update_node Saa f st) i) = ignore_put (node_at st i))
    as Hig.
  { intros f i Hf. rewrite node_at_update_node. by case_decide. }
  assert (∀ f st0, socket_fd_out (node_at st0 Sb) = socket_fd_out (node_at st Sb) →
                   (∀ n, socket_fd_out (f n) = socket_fd_out n) →
                   socket_fd_out (node_at (update_node Saa f st0) Sb)
                   = socket_fd_out (node_at st Sb)) as Hfd.
  { intros f st0 H0 Hf. rewrite node_at_update_node. case_decide; [|done].
    by rewrite Hf. }
  split; [|split; [|split; [|split]]].
  - split; [|split; [done | intros i; by apply Hig]].
    unfold ack_p. rewrite process_updated_primary; rewrite HSaa_p; [|done].
    simpl. by rewrite Hs.
  - split; [|split; [done | intros i; by apply Hig]].
    unfold ack_s. rewrite process_updated_secondary; rewrite HSaa_s; [|done].
    simpl. by rewrite Hp.
  - assert (process_server_message e2 ack_s after_p =
              (handle_switch_primary e2 Saa Sb both_p, true)) as Heq.
    { unfold ack_s. rewrite process_updated_secondary;
        change (num_servers after_p) with (num_servers st); rewrite HSaa_s;
        [|by apply in_table_update_node].
      simpl. unfold after_p. by rewrite node_at_update_node_eq. }
    split; [done|]. intros Hvalid. rewrite Heq. simpl.
    destruct (handle_switch_primary_sent e2 Saa Sb both_p) as [rest Hrest].
    { unfold both_p. rewrite Hfd; [done | by apply Hfd | done]. }
    exists rest. by rewrite Hrest.
  - assert (process_server_message e2 ack_p after_s =
              (handle_switch_primary e2 Saa Sb both_s, true)) as Heq.
    { unfold ack_p. rewrite process_updated_primary;
        change (num_servers after_s) with (num_servers st); rewrite HSaa_p;
        [|by apply in_table_update_node].
      simpl. unfold after_s. by rewrite node_at_update_node_eq. }
    split; [done|]. intros Hvalid. rewrite Heq. simpl.
    destruct (handle_switch_primary_sent e2 Saa Sb both_s) as [rest Hrest].
    { unfold both_s. rewrite Hfd; [done | by apply Hfd | done]. }
    exists rest. by rewrite Hrest.
  - intros both Hboth st'.
    assert (in_table both Saa ∧ in_table both Sb ∧ num_servers both = num_servers st ∧
            updated_primary_accepted (node_at both Saa) = true ∧
            updated_secondary_accepted (node_at both Saa) = true)
      as (HinB & HinSbB & HnB & HpB & HsB).
    { destruct Hboth as [-> | ->]; unfold both_p, both_s, after_p, after_s;
        rewrite !in_table_update_node;
        (split; [done|]); (split; [done|]); (split; [done|]);
        rewrite node_at_update_node_eq by (by apply in_table_update_node);
        rewrite node_at_update_node_eq by done; done. }
    destruct (switching_ignore_put Saa Sb both HinB HinSbB) as [Hsw1 Hsw2].
    destruct (handle_switch_primary_ignore_put e2 Saa Sb both HinB HinSbB) as [Hig1 Hig2].
    destruct (handle_switch_primary_acks e2 Saa Sb both Saa) as [Hfp Hfs].
    fold st' in Hig1, Hig2, Hfp, Hfs. fold success in Hig1, Hig2.
    rewrite HpB in Hfp. rewrite HsB in Hfs.
    assert (num_servers st' = num_servers st) as Hn'
      by (unfold st'; by rewrite handle_switch_primary_num_servers).
    assert (in_table st' Saa) as Hin'.
    { unfold in_table, st'. rewrite handle_switch_primary_nodes. case_bool_decide.
      - change (in_table (switched Saa Sb both) Saa). unfold switched, switching.
        by rewrite !in_table_update_node.
      - change (in_table (switching Saa Sb both) Saa). unfold switching.
        by rewrite !in_table_update_node. }
    split; [done|]. split; [done|].
    split; [unfold st', success; rewrite handle_switch_primary_nodes;
            by case_bool_decide|].
    split; [done|]. split; [done|]. split; [done|]. split; [done|].
    split.
    + unfold ack_p. rewrite process_updated_primary; rewrite Hn', HSaa_p; [|done].
      simpl. by rewrite Hfs.
    + unfold ack_s. rewrite process_updated_secondary; rewrite Hn', HSaa_s; [|done].
      simpl. by rewrite Hfp.
Qed.

End Acknowledgments.

(** ** The failure detector *)

Section FailureDetector.

Import MServer.

Lemma spawn_server_other e i j st :
  i ≠ j → node_at (spawn_server e i st).1 j = node_at st j.
Proof.
  intros Hij. unfold spawn_server.
  destruct (spawn e i); simpl; by rewrite !node_at_update_node_ne.
Qed.

Lemma spawn_server_num_servers e i st :
  num_servers (spawn_server e i st).1 = num_servers st.
Proof. unfold spawn_server. by destruct (spawn e i). Qed.

(** The detector body for index [i] writes to node [i] only. *)
Lemma detect_failure_other e st i j :
  i ≠ j → node_at (detect_failure e st i) j = node_at st j.
Proof.
  intros Hij. unfold detect_failure.
  destruct (heartbeat_check_failed e (node_at st i)); [|done].
  set (st1 := update_node i (set_socket_fd_in (-1)) _).
  assert (node_at st1 j = node_at st j) as H1
    by (unfold st1; by rewrite !node_at_update_node_ne).
  pose proof (spawn_server_other e i j st1 Hij) as H2.
  destruct (spawn_server e i st1) as [st2 ok]; simpl in *.
  destruct ok; simpl; [|congruence].
  rewrite (node_at_nodes _ _ j (send_request_nodes _ _ _ _ _)).
  rewrite (node_at_nodes _ _ j (send_request_nodes _ _ _ _ _)).
  rewrite !node_at_update_node_ne by done. congruence.
Qed.

Lemma detect_failure_num_servers e st i :
  num_servers (detect_failure e st i) = num_servers st.
Proof.
  unfold detect_failure.
  destruct (heartbeat_check_failed e (node_at st i)); [|done].
  set (st1 := update_node i (set_socket_fd_in (-1)) _).
  pose proof (spawn_server_num_servers e i st1) as H2.
  destruct (spawn_server e i st1) as [st2 ok]; simpl in *.
  destruct ok; simpl; [|done].
  by rewrite !send_request_num_servers.
Qed.

Lemma detect_failure_alive e st i :
  heartbeat_check_failed e (node_at st i) = false → detect_failure e st i = st.
Proof. intros Hc. unfold detect_failure. by rewrite Hc. Qed.

(** A node whose heartbeat check passes is left as it is by the whole
    detection loop, whatever happens to the others. *)
Lemma failure_detection_alive e i l st :
  heartbeat_check_failed e (node_at st i) = false →
  node_at (foldl (detect_failure e) st l) i = node_at st i.
Proof.
  revert st. induction l as [|j l IH]; intros st Hc; [done|]. simpl.
  assert (node_at (detect_failure e st j) i = node_at st i) as Hj.
  { destruct (decide (j = i)) as [->|Hne].
    - by rewrite detect_failure_alive.
    - by apply detect_failure_other. }
  rewrite IH; [done | by rewrite Hj].
Qed.

Lemma failure_detection_num_servers e l st :
  num_servers (foldl (detect_failure e) st l) = num_servers st.
Proof.
  revert st. induction l as [|j l IH]; intros st; [done|]. simpl.
  by rewrite IH, detect_failure_num_servers.
Qed.

(** A node from which no heartbeat was recorded passes every check. *)
Lemma heartbeat_check_never_heard e node :
  last_heartbeat node = 0 → heartbeat_check_failed e node = false.
Proof. intros Hz. unfold heartbeat_check_failed. by rewrite Hz. Qed.

(** ** Messages from the servers *)

(** What the switch handler can do to a node: set or clear [ignore_put], and
    mark it ONLINE. *)
Lemma handle_switch_primary_preserves (Q : server_node → Prop) e Saa Sb st j :
  (∀ n b, Q n → Q (set_ignore_put b n)) →
  (∀ n, Q n → Q (set_server_status KV_SERVER_ONLINE n)) →
  Q (node_at st j) → Q (node_at (handle_switch_primary e Saa Sb st) j).
Proof.
  intros Hig Hon HQ.
  assert (node_at (handle_switch_primary e Saa Sb st) j =
          (if bool_decide (ctrl_reply e Saa SET_SECONDARY = Some CTRLREQ_SUCCESS)
           then node_at (switched Saa Sb st) j else node_at (switching Saa Sb st) j)) as ->.
  { unfold node_at. rewrite handle_switch_primary_nodes. by case_bool_decide. }
  assert (Q (node_at (switching Saa Sb st) j)) as Hsw.
  { unfold switching. apply update_node_preserves; [auto|].
    apply update_node_preserves; auto. }
  case_bool_decide; [|done].
  unfold switched. apply update_node_preserves; [auto|].
  apply update_node_preserves; [auto|].
  apply update_node_preserves; auto.
Qed.

(** A message other than a heartbeat for [j] keeps every property of node
    [j] that survives the flag updates of the acknowledgment handlers. *)
Lemma process_server_message_preserves (Q : server_node → Prop) e m st j :
  (∀ n b, Q n → Q (set_ignore_put b n)) →
  (∀ n, Q n → Q (set_server_status KV_SERVER_ONLINE n)) →
  (∀ n, Q n → Q (set_updated_primary_accepted true n)) →
  (∀ n, Q n → Q (set_updated_secondary_accepted true n)) →
  m ≠ Some (MCtrlReq HEARTBEAT j) →
  Q (node_at st j) → Q (node_at (process_server_message e m st).1 j).
Proof.
  intros Hig Hon Hp Hs Hm HQ. unfold process_server_message.
  destruct m as [[t i]|]; [|done]. destruct t; simpl; try done.
  - rewrite node_at_update_node_ne; [done | congruence].
  - case_match; simpl.
    + apply handle_switch_primary_preserves; [done..|].
      apply update_node_preserves; auto.
    + apply update_node_preserves; auto.
  - case_match; simpl.
    + apply handle_switch_primary_preserves; [done..|].
      apply update_node_preserves; auto.
    + apply update_node_preserves; auto.
Qed.

(** A message that is not one of the two acknowledgments changes at most a
    heartbeat time. *)
Lemma process_server_message_quiet (Q : server_node → Prop) e m st j :
  (∀ n t, Q n → Q (set_last_heartbeat t n)) →
  (∀ r, m = Some r → mreq_type r ≠ UPDATED_PRIMARY ∧ mreq_type r ≠ UPDATED_SECONDARY) →
  Q (node_at st j) → Q (node_at (process_server_message e m st).1 j).
Proof.
  intros Hhb Hm HQ. unfold process_server_message.
  destruct m as [[t i]|]; [|done].
  destruct (Hm _ eq_refl) as [Hnp Hns]. simpl in *.
  destruct t; simpl; try done.
  apply update_node_preserves; auto.
Qed.

Lemma serve_server_preserves (Q : server_node → Prop) e m st j :
  (∀ n, Q n → Q (set_socket_fd_in (-1) n)) →
  (Q (node_at st j) → Q (node_at (process_server_message e m.2 st).1 j)) →
  Q (node_at st j) → Q (node_at (serve_server e st m) j).
Proof.
  intros Hfd Hstep HQ. unfold serve_server. case_decide; [|done].
  specialize (Hstep HQ).
  destruct (process_server_message e m.2 st) as [st' ok]; simpl in *.
  destruct ok; simpl; [done|]. apply update_node_preserves; auto.
Qed.

(** ** The [-t] option *)

Lemma update_node_prog_args a i f st :
  update_node i f (set_prog_args a st) = set_prog_args a (update_node i f st).
Proof. done. Qed.

Lemma spawn_server_prog_args e a i st :
  spawn_server e i (set_prog_args a st) =
    (set_prog_args a (spawn_server e i st).1, (spawn_server e i st).2).
Proof. unfold spawn_server. by destruct (spawn e i). Qed.

Lemma exchange_prog_args e a i r st :
  (exchange e i r (set_prog_args a st)).1 = set_prog_args a (exchange e i r st).1.
Proof. unfold exchange. by destruct (ctrl_reply e i (creq_type r)) as [[]|]. Qed.

Lemma send_request_prog_args e a i i2 t st :
  (send_request e i i2 t (set_prog_args a st)).1 = set_prog_args a (send_request e i i2 t st).1.
Proof.
  unfold send_request. change (node_at (set_prog_args a st)) with (node_at st).
  destruct (fd_is_valid e (socket_fd_out (node_at st i))); [|done].
  apply exchange_prog_args.
Qed.

Lemma detect_failure_prog_args e a st i :
  detect_failure e (set_prog_args a st) i = set_prog_args a (detect_failure e st i).
Proof.
  unfold detect_failure. change (node_at (set_prog_args a st) i) with (node_at st i).
  destruct (heartbeat_check_failed e (node_at st i)); [|done].
  rewrite !update_node_prog_args, spawn_server_prog_args.
  destruct (spawn_server e i _) as [st2 ok]; simpl.
  destruct ok; simpl; [|done].
  rewrite !update_node_prog_args.
  rewrite send_request_prog_args.
  change (num_servers (set_prog_args a ?x)) with (num_servers x).
  by rewrite send_request_prog_args.
Qed.

(** The detection loop reads nothing of the program arguments: it runs the
    same whatever [-t] was given. *)
Lemma failure_detection_prog_args e a st :
  failure_detection e (set_prog_args a st) = set_prog_args a (failure_detection e st).
Proof.
  unfold failure_detection. simpl.
  generalize (seqZ 0 (num_servers st)). intros l. revert st.
  induction l as [|i l IH]; intros st; [done|]. simpl.
  by rewrite detect_failure_prog_args, IH.
Qed.

(** C3: with [-t 10] on the command line the parsed timeout is 10 seconds,
    yet a server whose last heartbeat is 3 seconds old is declared FAILED:
    the detector compares with the constant [heartbeat_check_diff]. *)
Theorem detector_ignores_timeout_option :
  ∃ a, parse_args [Opt_c 5000; Opt_s 5001; Opt_C "srv.cfg"; Opt_t 10] = Some a ∧
       server_timeout a = 10 ∧
       let st := update_node 0 (set_last_heartbeat 100) (set_prog_args a Scenario.st0) in
       let e := Scenario.env_no_spawn 103 in
       now e - last_heartbeat (node_at st 0) = 3 ∧
       server_status (node_at (failure_detection e st) 0) = KV_SERVER_FAILED.
Proof. eexists. split; [reflexivity|]. by vm_compute. Qed.

End FailureDetector.

(** ** Locate requests *)

Section Locate.

Import MServer.

Variable hash_key : string → Z.

Lemma process_client_message_answer st k :
  process_client_message hash_key st (Some k) =
    if ignore_put (node_at st (route hash_key st k)) then None
    else Some (answer_of st (route hash_key st k)).
Proof. done. Qed.

Lemma route_online st k :
  server_status (node_at st (key_server_id hash_key k (num_servers st))) = KV_SERVER_ONLINE →
  route hash_key st k = key_server_id hash_key k (num_servers st).
Proof. intros Hs. unfold route. by rewrite decide_False by (intros ?; done). Qed.

Lemma route_not_online st k :
  server_status (node_at st (key_server_id hash_key k (num_servers st))) ≠ KV_SERVER_ONLINE →
  route hash_key st k = secondary_server_id (key_server_id hash_key k (num_servers st)) (num_servers st).
Proof. intros Hs. unfold route. by rewrite decide_True. Qed.

(** C5, as amended: an answered locate request names the key's primary owner
    when that owner is ONLINE and the shard's secondary replica otherwise;
    the server named is not FAILED provided that secondary replica is not
    FAILED. *)
Theorem locate_redirects_to_secondary st k r :
  process_client_message hash_key st (Some k) = Some r →
  let owner := key_server_id hash_key k (num_servers st) in
  let sec := secondary_server_id owner (num_servers st) in
  (server_status (node_at st owner) = KV_SERVER_ONLINE → r = answer_of st owner) ∧
  (server_status (node_at st owner) ≠ KV_SERVER_ONLINE → r = answer_of st sec) ∧
  (server_status (node_at st sec) ≠ KV_SERVER_FAILED →
   server_status (node_at st (route hash_key st k)) ≠ KV_SERVER_FAILED).
Proof.
  intros Hr owner sec. rewrite process_client_message_answer in Hr.
  destruct (ignore_put _); [done|]. injection Hr as <-.
  split; [|split].
  - intros Hon. by rewrite route_online.
  - intros Hoff. by rewrite route_not_online.
  - intros Hsec. destruct (decide (server_status (node_at st owner) = KV_SERVER_ONLINE)) as [Hon|Hoff].
    + rewrite route_online by done. fold owner. rewrite Hon. done.
    + rewrite route_not_online by done. done.
Qed.

(** C8, as amended: two locate requests for the same key and the same number
    of servers get the same answer whenever the coordinator's view (address,
    status, [ignore_put]) of the key's owner and of the owner's secondary is
    the same at both requests. *)
Theorem locate_depends_on_owner_view st1 st2 k :
  num_servers st1 = num_servers st2 →
  let owner := key_server_id hash_key k (num_servers st1) in
  let sec := secondary_server_id owner (num_servers st1) in
  same_view (node_at st1 owner) (node_at st2 owner) →
  same_view (node_at st1 sec) (node_at st2 sec) →
  process_client_message hash_key st1 (Some k) = process_client_message hash_key st2 (Some k).
Proof.
  intros HN owner sec (Hh & Hc & Hs & Hi) (Hh' & Hc' & Hs' & Hi').
  rewrite !process_client_message_answer. unfold answer_of, route.
  rewrite <- HN. fold owner. rewrite <- Hs. fold sec.
  case_decide; by rewrite <- ?Hh, <- ?Hc, <- ?Hi, <- ?Hh', <- ?Hc', <- ?Hi'.
Qed.

(** C6: a locate request that routes to a server whose [ignore_put] is set
    gets no answer; and when the replacement acknowledges SET_SECONDARY the
    switch handler leaves [ignore_put] cleared on both servers and the
    replacement ONLINE, after which the keys of the failed shard are
    answered with the replacement's address. *)
Theorem switch_gates_locate e st Saa Sb :
  in_table st Saa → in_table st Sb → Saa ≠ Sb →
  ctrl_reply e Saa SET_SECONDARY = Some CTRLREQ_SUCCESS →
  (∀ st1 k, ignore_put (node_at st1 (route hash_key st1 k)) = true →
            process_client_message hash_key st1 (Some k) = None) ∧
  let st' := handle_switch_primary e Saa Sb st in
  ignore_put (node_at st' Saa) = false ∧
  ignore_put (node_at st' Sb) = false ∧
  server_status (node_at st' Saa) = KV_SERVER_ONLINE ∧
  ∀ k, key_server_id hash_key k (num_servers st) = Saa →
       route hash_key st' k = Saa ∧
       process_client_message hash_key st' (Some k) = Some (answer_of st Saa).
Proof.
  intros Ha Hb Hne Hok. split.
  { intros st1 k Hig. rewrite process_client_message_answer. by rewrite Hig. }
  intros st'.
  assert (server_nodes st' = server_nodes (switched Saa Sb st)) as Hn.
  { unfold st'. rewrite handle_switch_primary_nodes. by rewrite bool_decide_eq_true_2. }
  assert (node_at st' Saa =
          set_server_status KV_SERVER_ONLINE (set_ignore_put false (set_ignore_put true (node_at st Saa))))
    as HSaa.
  { rewrite (node_at_nodes _ _ _ Hn). unfold switched, switching.
    rewrite node_at_update_node_eq by (by rewrite !in_table_update_node).
    rewrite node_at_update_node_ne by done.
    rewrite node_at_update_node_eq by (by rewrite !in_table_update_node).
    rewrite node_at_update_node_ne by done.
    by rewrite node_at_update_node_eq. }
  assert (ignore_put (node_at st' Sb) = false) as HSb.
  { rewrite (node_at_nodes _ _ _ Hn). unfold switched, switching.
    rewrite node_at_update_node_ne by done.
    by rewrite node_at_update_node_eq by (by rewrite !in_table_update_node). }
  assert (num_servers st' = num_servers st) as HN
    by apply handle_switch_primary_num_servers.
  rewrite HSaa. split; [done|]. split; [done|]. split; [done|].
  intros k Hk.
  assert (route hash_key st' k = Saa) as Hroute.
  { rewrite route_online; rewrite HN, Hk; [done | by rewrite HSaa]. }
  split; [done|].
  rewrite process_client_message_answer, Hroute.
  unfold answer_of. by rewrite HSaa.
Qed.

End Locate.

(** ** Runs of the main loop *)

Section Runs.

Import MServer.

Variable hash_key : string → Z.

Lemma run_mserver_loop_cons st r rs :
  (run_mserver_loop hash_key st (r :: rs)).1 = (run_mserver_loop hash_key (loop_turn hash_key st r).1 rs).1.
Proof.
  change (run_mserver_loop hash_key st (r :: rs)) with
    (let '(st1, out1) := loop_turn hash_key st r in
     let '(st2, out2) := run_mserver_loop hash_key st1 rs in (st2, out1 ++ out2)).
  destruct (loop_turn hash_key st r) as [st1 out1]; simpl.
  by destruct (run_mserver_loop hash_key st1 rs).
Qed.

Lemma loop_turn_state st r :
  (loop_turn hash_key st r).1 =
    foldl (serve_server (ready_env r)) (failure_detection (ready_env r) st) (ready_servers r).
Proof. done. Qed.

Lemma foldl_serve_server_preserves (Q : server_node → Prop) e j ms st :
  (∀ n, Q n → Q (set_socket_fd_in (-1) n)) →
  Forall (λ m, ∀ st0, Q (node_at st0 j) →
                      Q (node_at (process_server_message e m.2 st0).1 j)) ms →
  Q (node_at st j) → Q (node_at (foldl (serve_server e) st ms) j).
Proof.
  intros Hfd Hms. revert st. induction Hms as [|m ms Hm _ IH]; intros st HQ; [done|].
  simpl. apply IH. apply serve_server_preserves; auto.
Qed.

(** C9: a server whose [last_heartbeat] is zero and that is not FAILED stays
    so through any number of turns of the main loop, at any clock values, as
    long as no HEARTBEAT of that server is processed. *)
Theorem never_heard_never_failed st rs i :
  last_heartbeat (node_at st i) = 0 →
  server_status (node_at st i) ≠ KV_SERVER_FAILED →
  Forall (no_heartbeat_from i) rs →
  let st' := (run_mserver_loop hash_key st rs).1 in
  last_heartbeat (node_at st' i) = 0 ∧ server_status (node_at st' i) ≠ KV_SERVER_FAILED.
Proof.
  intros Hz Hs Hrs. revert st Hz Hs.
  induction Hrs as [|r rs Hr _ IH]; intros st Hz Hs; [done|].
  cbv zeta. rewrite run_mserver_loop_cons.
  set (Q := λ n : server_node, last_heartbeat n = 0 ∧ server_status n ≠ KV_SERVER_FAILED).
  assert (Q (node_at (loop_turn hash_key st r).1 i)) as [Hz' Hs'].
  { rewrite loop_turn_state. apply foldl_serve_server_preserves.
    - by intros n [? ?].
    - eapply Forall_impl; [exact Hr|]. intros m Hm st0 HQ0. simpl in Hm.
      apply process_server_message_preserves; try done; by intros n [? ?].
    - unfold failure_detection.
      rewrite failure_detection_alive by (by apply heartbeat_check_never_heard).
      done. }
  by apply IH.
Qed.

(** C10, as amended: when the replacement does not acknowledge
    SET_SECONDARY, the switch handler returns with [ignore_put] set on the
    replacement and on the surviving secondary and the replacement's status
    as it was; and from then on, through any number of turns in which
    neither of the two times out and no acknowledgment arrives, the
    replacement keeps that status and every locate request that routes to
    one of the two gets no answer. *)
Theorem failed_switch_blocks_locate e st Saa Sb rs :
  in_table st Saa → in_table st Sb →
  ctrl_reply e Saa SET_SECONDARY ≠ Some CTRLREQ_SUCCESS →
  let st1 := handle_switch_primary e Saa Sb st in
  ignore_put (node_at st1 Saa) = true ∧
  ignore_put (node_at st1 Sb) = true ∧
  server_status (node_at st1 Saa) = server_status (node_at st Saa) ∧
  (undisturbed hash_key Saa Sb st1 rs →
   let st2 := (run_mserver_loop hash_key st1 rs).1 in
   server_status (node_at st2 Saa) = server_status (node_at st Saa) ∧
   ∀ k, route hash_key st2 k = Saa ∨ route hash_key st2 k = Sb →
        process_client_message hash_key st2 (Some k) = None).
Proof.
  intros Ha Hb Hfail st1.
  assert (server_nodes st1 = server_nodes (switching Saa Sb st)) as Hn.
  { unfold st1. rewrite handle_switch_primary_nodes. by rewrite bool_decide_eq_false_2. }
  set (Q := λ n : server_node,
              ignore_put n = true ∧ server_status n = server_status (node_at st Saa)).
  assert (Q (node_at st1 Saa)) as HQa.
  { rewrite (node_at_nodes _ _ _ Hn). unfold switching.
    rewrite node_at_update_node, node_at_update_node_eq by done.
    by case_decide. }
  assert (ignore_put (node_at st1 Sb) = true) as HQb.
  { rewrite (node_at_nodes _ _ _ Hn). unfold switching.
    by rewrite node_at_update_node_eq by (by rewrite in_table_update_node). }
  destruct HQa as [Hia Hsa]. simpl in Hia, Hsa.
  split; [exact Hia|]. split; [exact HQb|]. split; [exact Hsa|].
  clearbody st1. clear Hn. revert st1 Hia Hsa HQb.
  induction rs as [|r rs' IH]; intros st1 Hia Hsa Hib Hrun.
  { cbv zeta. change (run_mserver_loop hash_key st1 []).1 with st1.
    split; [done|]. intros k [Hk|Hk];
      rewrite process_client_message_answer, Hk; by rewrite ?Hia, ?Hib. }
  destruct Hrun as (Hca & Hcb & Hms & Hrest).
  cbv zeta. rewrite run_mserver_loop_cons.
  assert (∀ (P : server_node → Prop) j,
            (∀ n t, P n → P (set_last_heartbeat t n)) →
            (∀ n, P n → P (set_socket_fd_in (-1) n)) →
            heartbeat_check_failed (ready_env r) (node_at st1 j) = false →
            P (node_at st1 j) → P (node_at (loop_turn hash_key st1 r).1 j)) as Hturn.
  { intros P j Hhb Hfd Hc HP. rewrite loop_turn_state.
    apply foldl_serve_server_preserves; [done| |].
    - eapply Forall_impl; [exact Hms|]. intros m Hm st0 HP0. simpl in Hm.
      by apply process_server_message_quiet.
    - unfold failure_detection. by rewrite failure_detection_alive. }
  apply IH; [| | |done].
  - apply (Hturn (λ n, ignore_put n = true)); done.
  - apply (Hturn (λ n, server_status n = server_status (node_at st Saa))); done.
  - apply (Hturn (λ n, ignore_put n = true)); done.
Qed.

End Runs.

(** * Properties of the key-value server *)

Section ClientRequests.

Import Server.

Variable hash_key : string → Z.

Lemma invalid_client_key_spec s k :
  invalid_client_key hash_key s k = true ↔
  key_server_id hash_key k (num_servers s) ≠ server_id s ∧ ¬ interim_primary hash_key s k.
Proof.
  unfold invalid_client_key, interim_primary.
  rewrite orb_true_iff, !andb_true_iff, !bool_decide_eq_true.
  destruct (decide (state s = KV_UPDATING_PRIMARY)); tauto.
Qed.

Lemma secondary_as_primary_spec s k :
  secondary_as_primary hash_key s k = true ↔ interim_primary hash_key s k.
Proof.
  unfold secondary_as_primary, interim_primary.
  by rewrite andb_true_iff, !bool_decide_eq_true.
Qed.

Lemma secondary_as_primary_owner s k :
  valid_ids s → key_server_id hash_key k (num_servers s) = server_id s →
  secondary_as_primary hash_key s k = false.
Proof.
  intros [HN Hid] Hown. apply not_true_is_false.
  rewrite secondary_as_primary_spec. intros [_ Hsec]. rewrite Hown in Hsec.
  by apply (secondary_server_id_neq (server_id s) (num_servers s)); [lia|..].
Qed.

Lemma secondary_as_primary_set_table s k r t :
  secondary_as_primary hash_key (set_table r t s) k = secondary_as_primary hash_key s k.
Proof. by destruct r. Qed.

Lemma table_of_set_table r t s : table_of r (set_table r t s) = t.
Proof. by destruct r. Qed.

(** The owner check of the handler itself: a GET or PUT for a key owned by
    another server is answered with SERVER_FAILURE and changes nothing,
    unless the server is in the UPDATE_PRIMARY recovery state and is the
    secondary of the key's owner, in which case it is never answered with
    SERVER_FAILURE; and a GET for a key of the server's own shard that its
    primary table does not hold is answered with KEY_NOT_FOUND. *)
Lemma process_client_message_key_check e s k v :
  valid_ids s →
  let owner := key_server_id hash_key k (num_servers s) in
  (owner ≠ server_id s → ¬ interim_primary hash_key s k →
   ∀ o, o = OP_GET ∨ o = OP_PUT →
        process_client_message hash_key e (Some (OpReq o k v)) s =
          ClientResult s None (Some (OpResp SERVER_FAILURE ""))) ∧
  (interim_primary hash_key s k →
   ∀ o, o = OP_GET ∨ o = OP_PUT →
        ∀ v', cr_reply (process_client_message hash_key e (Some (OpReq o k v)) s)
              ≠ Some (OpResp SERVER_FAILURE v')) ∧
  (owner = server_id s → primary_hash s !! k = None →
   process_client_message hash_key e (Some (OpReq OP_GET k v)) s =
     ClientResult s None (Some (OpResp KEY_NOT_FOUND ""))).
Proof.
  intros Hids owner. split; [|split].
  - intros Hown Hint o Ho. unfold process_client_message; simpl.
    assert (invalid_client_key hash_key s k = true) as -> by (by apply invalid_client_key_spec).
    done.
  - intros Hint o Ho v'. unfold process_client_message; simpl.
    assert (invalid_client_key hash_key s k = false) as ->.
    { apply not_true_is_false. rewrite invalid_client_key_spec. tauto. }
    destruct Ho as [-> | ->]; simpl.
    + unfold hash_get. by destruct (table_of _ s !! k).
    + destruct (malloc_ok e); simpl; [|done].
      unfold hash_put. destruct (hash_put_ok e); [|done].
      destruct (fd_is_valid e _); [|done].
      destruct (forward_reply e) as [st|]; [|done].
      by destruct (decide (st ≠ SUCCESS)).
  - intros Hown Hmiss. unfold process_client_message; simpl.
    assert (invalid_client_key hash_key s k = false) as ->.
    { apply not_true_is_false. rewrite invalid_client_key_spec. tauto. }
    unfold client_table. rewrite secondary_as_primary_owner by done.
    simpl. unfold hash_get. by rewrite Hmiss.
Qed.

(** Outside the switch the client thread hands every request to the
    handler. *)
Lemma serve_client_not_switching e request s :
  state s ≠ KV_SWITCHING_PRIMARY →
  serve_client hash_key e request s = process_client_message hash_key e request s.
Proof. intros Hst. unfold serve_client. by rewrite decide_False. Qed.

(** C7: what a client is answered, through the client thread.  A GET or PUT
    for a key owned by another server is answered with SERVER_FAILURE and
    changes nothing, unless the server is in the UPDATE_PRIMARY recovery
    state and is the secondary of the key's owner, in which case it is never
    answered with SERVER_FAILURE.  A GET for a key of the server's own shard
    that its primary table does not hold is answered with KEY_NOT_FOUND,
    except while the server is in the state KV_SWITCHING_PRIMARY: then every
    request, that GET included, is answered with SERVER_FAILURE. *)
Theorem client_key_check e s k v :
  valid_ids s →
  let owner := key_server_id hash_key k (num_servers s) in
  (owner ≠ server_id s → ¬ interim_primary hash_key s k →
   ∀ o, o = OP_GET ∨ o = OP_PUT →
        serve_client hash_key e (Some (OpReq o k v)) s =
          ClientResult s None (Some (OpResp SERVER_FAILURE ""))) ∧
  (interim_primary hash_key s k →
   ∀ o, o = OP_GET ∨ o = OP_PUT →
        ∀ v', cr_reply (serve_client hash_key e (Some (OpReq o k v)) s)
              ≠ Some (OpResp SERVER_FAILURE v')) ∧
  (owner = server_id s → primary_hash s !! k = None →
   serve_client hash_key e (Some (OpReq OP_GET k v)) s =
     if decide (state s = KV_SWITCHING_PRIMARY)
     then ClientResult s None (Some (OpResp SERVER_FAILURE ""))
     else ClientResult s None (Some (OpResp KEY_NOT_FOUND ""))) ∧
  (state s = KV_SWITCHING_PRIMARY →
   ∀ request, serve_client hash_key e request s =
                ClientResult s None (Some (OpResp SERVER_FAILURE ""))).
Proof.
  intros Hids owner.
  destruct (process_client_message_key_check e s k v Hids) as (Hother & Hinterim & Hmiss).
  split; [|split; [|split]].
  - intros Hown Hint o Ho. unfold serve_client. case_decide; [done|].
    by apply Hother.
  - intros Hint o Ho v'.
    rewrite serve_client_not_switching; [by apply Hinterim|].
    destruct Hint as [-> _]. done.
  - intros Hown Hnone. unfold serve_client. case_decide; [done|].
    by apply Hmiss.
  - intros Hst request. unfold serve_client. by rewrite decide_True.
Qed.

(** When a PUT is accepted, stored and forwarded, and the partner's reply is
    not SUCCESS or cannot be read, the handler returns without writing to
    the client (so no SUCCESS is sent), and the table keeps the new value. *)
Theorem put_forward_failure_no_reply e s k v :
  invalid_client_key hash_key s k = false →
  malloc_ok e = true → hash_put_ok e = true →
  let table := client_table hash_key s k in
  let forward_fd := if secondary_as_primary hash_key s k then primary_fd s else secondary_fd s in
  fd_is_valid e forward_fd = true →
  forward_reply e ≠ Some SUCCESS →
  let res := process_client_message hash_key e (Some (OpReq OP_PUT k v)) s in
  cr_forwarded res = Some (forward_fd, OpReq OP_PUT k v) ∧
  cr_reply res = None ∧
  table_of table (cr_server res) !! k = Some v.
Proof.
  intros Hkey Hm Hp table forward_fd Hfd Hrep res.
  unfold res, process_client_message; simpl.
  rewrite Hkey, Hm; simpl. unfold hash_put. rewrite Hp. fold table.
  rewrite secondary_as_primary_set_table.
  assert ((if secondary_as_primary hash_key s k
           then primary_fd (set_table table (<[k:=v]> (table_of table s)) s)
           else secondary_fd (set_table table (<[k:=v]> (table_of table s)) s))
          = forward_fd) as ->.
  { unfold forward_fd. by destruct table, (secondary_as_primary hash_key s k). }
  rewrite Hfd.
  assert (table_of table (set_table table (<[k:=v]> (table_of table s)) s) !! k = Some v)
    as Hkept by (by rewrite table_of_set_table, lookup_insert_eq).
  destruct (forward_reply e) as [st|]; [|done].
  destruct (decide (st ≠ SUCCESS)) as [|Hs]; [done|].
  apply dec_stable in Hs. by subst st.
Qed.

End ClientRequests.

(** ** Streaming a table to the replacement *)

Section Streaming.

Import Server.

(** C4, as amended: the streaming task writes one PUT per entry of the chosen
    table to the replacement's connection and then one message, the
    UPDATED_PRIMARY or UPDATED_SECONDARY confirmation, to the coordinator;
    it writes no NOOP and keeps the connection as [primary_fd] or
    [secondary_fd].  A server that does receive a NOOP from a peer answers
    nothing and returns [false], on which its caller closes the
    connection. *)
Theorem send_table_task_transcript s :
  let table := if send_primary s then primary_hash s else secondary_hash s in
  let new_fd := if send_primary s then secondary_fd s else primary_fd s in
  let done_msg := if send_primary s then UPDATED_SECONDARY else UPDATED_PRIMARY in
  (send_table_task s).2 =
    map (λ entry : string * string,
           (new_fd, PktOp (OpReq OP_PUT entry.1 (strncpy entry.2))))
        (map_to_list table)
    ++ [(mserver_fd_out s, PktMCtrl (MCtrlReq done_msg (server_id s)))] ∧
  (∀ k v, table !! k = Some v →
          (new_fd, PktOp (OpReq OP_PUT k (strncpy v))) ∈ (send_table_task s).2) ∧
  length (send_table_task s).2 = S (size table) ∧
  (∀ fd r, (fd, PktOp r) ∈ (send_table_task s).2 → op r = OP_PUT) ∧
  (primary_fd (send_table_task s).1 = primary_fd s ∧
   secondary_fd (send_table_task s).1 = secondary_fd s) ∧
  (∀ hash_key e s' k v,
     process_server_message hash_key e (Some (OpReq OP_NOOP k v)) s' = (s', None, false)).
Proof.
  intros table new_fd done_msg.
  assert ((send_table_task s).2 =
    map (λ entry : string * string,
           (new_fd, PktOp (OpReq OP_PUT entry.1 (strncpy entry.2))))
        (map_to_list table)
    ++ [(mserver_fd_out s, PktMCtrl (MCtrlReq done_msg (server_id s)))]) as Heq by done.
  split; [done|]. split; [|split; [|split; [|split]]].
  - intros k v Hkv. rewrite Heq, elem_of_app. left.
    apply list_elem_of_fmap. exists (k, v). split; [done|].
    by apply elem_of_map_to_list.
  - rewrite Heq, length_app, length_map, length_map_to_list. simpl. lia.
  - intros fd r. rewrite Heq, elem_of_app, list_elem_of_fmap, list_elem_of_singleton.
    intros [[entry [Hr _]] | Hr]; by simplify_eq.
  - done.
  - done.
Qed.

End Streaming.

(** * The three-server scenario *)

Section ScenarioChecks.

Import Scenario.

Lemma st0_in_table i : 0 ≤ i < 3 → in_table st0 i.
Proof.
  intros Hi. assert (i = 0 ∨ i = 1 ∨ i = 2) as [-> | [-> | ->]] by lia;
    vm_compute; eauto.
Qed.

Lemma st0_well_formed : well_formed st0.
Proof. split; [simpl; lia | apply st0_in_table]. Qed.

Lemma st0_recovering_in_table i : 0 ≤ i < 3 → in_table st0_recovering i.
Proof. intros Hi. apply in_table_update_node. by apply st0_in_table. Qed.

(** The two acknowledgments for server 0 in the scenario: the first is only
    recorded; the second runs the switch, and as the replacement refuses
    SET_SECONDARY, [ignore_put] stays set on servers 0 and 1. *)
Lemma switch_waits_for_both_acks_witness :
  well_formed st0 ∧
  MServer.process_server_message (env_ok 0) (Some (MCtrlReq UPDATED_PRIMARY 1)) st0 =
    (MServer.update_node 0 (MServer.set_updated_primary_accepted true) st0, true) ∧
  let st' := (MServer.process_server_message (env_set_secondary_fails 0)
                (Some (MCtrlReq UPDATED_SECONDARY 2))
                (MServer.update_node 0 (MServer.set_updated_primary_accepted true) st0)).1 in
  MServer.ignore_put (MServer.node_at st' 0) = true ∧
  MServer.ignore_put (MServer.node_at st' 1) = true.
Proof.
  split; [exact st0_well_formed|].
  destruct (switch_waits_for_both_acks (env_ok 0) (env_set_secondary_fails 0) (env_ok 0) st0 0)
    as ((Hp & _) & _ & (Hsw & _) & _ & Hall).
  - exact st0_well_formed.
  - simpl; lia.
  - reflexivity.
  - reflexivity.
  - split; [exact Hp|].
    destruct (Hall _ (or_introl eq_refl)) as (_ & _ & _ & Hi1 & Hi2 & _).
    pose proof (f_equal fst Hsw) as Hst'. simpl in Hst'.
    cbv zeta. split.
    + etrans; [exact (f_equal (λ x, MServer.ignore_put (MServer.node_at x 0)) Hst')|].
      exact Hi1.
    + etrans; [exact (f_equal (λ x, MServer.ignore_put (MServer.node_at x 1)) Hst')|].
      exact Hi2.
Defined.

(** After the switch for server 0 has run, one more UPDATED_PRIMARY, with no
    UPDATED_SECONDARY since, runs it again: SWITCH_PRIMARY and SET_SECONDARY
    are written a second time. *)
Lemma lone_ack_restarts_switch :
  let st1 := (MServer.process_server_message (env_ok 0)
                (Some (MCtrlReq UPDATED_PRIMARY 1)) st0_recovering).1 in
  let st2 := (MServer.process_server_message (env_ok 0)
                (Some (MCtrlReq UPDATED_SECONDARY 2)) st1).1 in
  let st3 := (MServer.process_server_message (env_ok 0)
                (Some (MCtrlReq UPDATED_PRIMARY 1)) st2).1 in
  MServer.sent st1 = [] ∧
  MServer.sent st2 = [(1, CtrlReq SWITCH_PRIMARY "" 0); (0, CtrlReq SET_SECONDARY "h1" 9011)] ∧
  MServer.server_status (MServer.node_at st2 0) = KV_SERVER_ONLINE ∧
  MServer.sent st3 =
    MServer.sent st2 ++
    [(1, CtrlReq SWITCH_PRIMARY "" 0); (0, CtrlReq SET_SECONDARY "h1" 9011)].
Proof. by vm_compute. Qed.

(** With every server ONLINE the key ["abc"] is answered with its owner. *)
Lemma locate_redirects_to_secondary_witness :
  MServer.process_client_message H0 st0 (Some "abc"%string) = Some (LocResp "localhost" 9000) ∧
  LocResp "localhost" 9000 = answer_of st0 0.
Proof.
  split; [reflexivity|].
  destruct (locate_redirects_to_secondary H0 st0 "abc" (LocResp "localhost" 9000))
    as (Hon & _ & _).
  - reflexivity.
  - apply Hon. reflexivity.
Defined.

(** Two servers time out while no replacement can be started; the locate
    request for ["abc"] (owner 0) is then answered with server 1, which is
    FAILED. *)
Lemma locate_answers_failed_server :
  let run := MServer.run_mserver_loop H0 st0
    [MServer.Ready (env_ok 100) heartbeats [];
     MServer.Ready (env_ok 102) [(2, Some (MCtrlReq HEARTBEAT 2))] [];
     MServer.Ready (env_no_spawn 103) [] [Some "abc"%string]] in
  run.2 = [Some (LocResp "h1" 9010)] ∧
  MServer.route H0 run.1 "abc" = 1 ∧
  MServer.server_status (MServer.node_at run.1 1) = KV_SERVER_FAILED.
Proof. by vm_compute. Qed.

(** A heartbeat changes nothing a locate request reads. *)
Lemma locate_depends_on_owner_view_witness :
  MServer.process_client_message H0 st0 (Some "abc"%string) =
  MServer.process_client_message H0 (MServer.update_node 0 (MServer.set_last_heartbeat 100) st0)
    (Some "abc"%string).
Proof.
  apply (locate_depends_on_owner_view H0 st0
           (MServer.update_node 0 (MServer.set_last_heartbeat 100) st0) "abc").
  - reflexivity.
  - by vm_compute.
  - by vm_compute.
Defined.

(** The same key, the same three servers: answered with server 0 before it
    times out and with server 1 afterwards. *)
Lemma locate_answer_changes_with_failure :
  (MServer.run_mserver_loop H0 st0
     [MServer.Ready (env_ok 100) heartbeats [Some "abc"%string];
      MServer.Ready (env_ok 103)
        [(1, Some (MCtrlReq HEARTBEAT 1)); (2, Some (MCtrlReq HEARTBEAT 2))]
        [Some "abc"%string]]).2
  = [Some (LocResp "localhost" 9000); Some (LocResp "h1" 9010)].
Proof. by vm_compute. Qed.

(** The switch for server 0 succeeds: its keys are answered with it again. *)
Lemma switch_gates_locate_witness :
  MServer.ctrl_reply (env_ok 0) 0 SET_SECONDARY = Some CTRLREQ_SUCCESS ∧
  MServer.process_client_message H0
    (MServer.handle_switch_primary (env_ok 0) 0 1 st0_recovering) (Some "abc"%string)
  = Some (answer_of st0_recovering 0).
Proof.
  split; [reflexivity|].
  destruct (switch_gates_locate H0 (env_ok 0) st0_recovering 0 1) as (_ & _ & _ & _ & Hk).
  - apply st0_recovering_in_table; lia.
  - apply st0_recovering_in_table; lia.
  - lia.
  - reflexivity.
  - apply Hk. reflexivity.
Defined.

(** Server 2 never sends a heartbeat while the other two do. *)
Lemma never_heard_never_failed_witness :
  let st' := (MServer.run_mserver_loop H0 st0
                [MServer.Ready (env_ok 1000)
                   [(0, Some (MCtrlReq HEARTBEAT 0)); (1, Some (MCtrlReq HEARTBEAT 1))] []]).1 in
  MServer.last_heartbeat (MServer.node_at st' 2) = 0 ∧
  MServer.server_status (MServer.node_at st' 2) ≠ KV_SERVER_FAILED.
Proof.
  apply (never_heard_never_failed H0 st0 _ 2).
  - reflexivity.
  - by vm_compute.
  - repeat constructor; simpl; congruence.
Defined.

(** The replacement of server 0 refuses SET_SECONDARY; a turn later the
    locate request for ["abc"] is still dropped. *)
Lemma failed_switch_blocks_locate_witness :
  let st1 := MServer.handle_switch_primary (env_set_secondary_fails 0) 0 1 st0_recovering in
  let st2 := (MServer.run_mserver_loop H0 st1
                [MServer.Ready (env_ok 1) heartbeats [Some "abc"%string]]).1 in
  MServer.route H0 st2 "abc" = 1 ∧
  MServer.process_client_message H0 st2 (Some "abc"%string) = None.
Proof.
  split; [by vm_compute|].
  destruct (failed_switch_blocks_locate H0 (env_set_secondary_fails 0) st0_recovering 0 1
              [MServer.Ready (env_ok 1) heartbeats [Some "abc"%string]])
    as (_ & _ & _ & Hrun).
  - apply st0_recovering_in_table; lia.
  - apply st0_recovering_in_table; lia.
  - simpl; congruence.
  - apply Hrun.
    + split; [by vm_compute|]. split; [by vm_compute|].
      split; [|exact I].
      unfold no_acknowledgment, heartbeats; simpl.
      repeat (constructor;
              [intros q Hq; simpl in Hq; simplify_eq; simpl; split; congruence|]).
      constructor.
    + right. by vm_compute.
Defined.

(** After the refused SET_SECONDARY the replacement of server 0 stops
    sending heartbeats, is detected and replaced again, and the second
    recovery completes: the locate request for ["abc"], dropped three times,
    is answered with server 0. *)
Lemma failed_switch_recovers_after_redetection :
  let st1 := MServer.handle_switch_primary (env_set_secondary_fails 0) 0 1 st0_recovering in
  let run := MServer.run_mserver_loop H0 st1
    [MServer.Ready (env_ok 100) heartbeats [Some "abc"%string];
     MServer.Ready (env_ok 102)
       [(1, Some (MCtrlReq HEARTBEAT 1)); (2, Some (MCtrlReq HEARTBEAT 2))]
       [Some "abc"%string];
     MServer.Ready (env_ok 103) [] [Some "abc"%string];
     MServer.Ready (env_ok 104)
       [(1, Some (MCtrlReq UPDATED_PRIMARY 1)); (2, Some (MCtrlReq UPDATED_SECONDARY 2))]
       [Some "abc"%string]] in
  MServer.ignore_put (MServer.node_at st1 0) = true ∧
  MServer.ignore_put (MServer.node_at st1 1) = true ∧
  run.2 = [None; None; None; Some (LocResp "localhost" 9000)] ∧
  MServer.route H0 run.1 "abc" = 0.
Proof. by vm_compute. Qed.

(** Server 1 is asked for ["abc"], a key of server 0. *)
Lemma client_key_check_witness :
  valid_ids srv1 ∧
  Server.serve_client H0 (env_forward None)
    (Some (Server.OpReq Server.OP_GET "abc" "")) srv1
  = Server.ClientResult srv1 None (Some (Server.OpResp SERVER_FAILURE "")).
Proof.
  assert (valid_ids srv1) as Hids by (split; simpl; lia).
  split; [exact Hids|].
  destruct (client_key_check H0 (env_forward None) srv1 "abc" "" Hids) as (Hreject & _).
  apply Hreject.
  - by vm_compute.
  - intros [Hst _]. by vm_compute in Hst.
  - by left.
Defined.

(** Server 1 is handling SWITCH_PRIMARY when a GET of ["z"] arrives, a key
    of its own shard that it does not hold: the client thread answers
    SERVER_FAILURE, where the handler would answer KEY_NOT_FOUND. *)
Lemma switching_get_answered_server_failure :
  let s := Server.set_state KV_SWITCHING_PRIMARY srv1 in
  key_server_id H0 "z" (Server.num_servers s) = Server.server_id s ∧
  Server.primary_hash s !! "z"%string = None ∧
  Server.serve_client H0 (env_forward None) (Some (Server.OpReq Server.OP_GET "z" "")) s
  = Server.ClientResult s None (Some (Server.OpResp SERVER_FAILURE "")) ∧
  Server.process_client_message H0 (env_forward None)
    (Some (Server.OpReq Server.OP_GET "z" "")) s
  = Server.ClientResult s None (Some (Server.OpResp KEY_NOT_FOUND "")).
Proof. by vm_compute. Qed.

(** Server 1 stores ["a"] and forwards it; the partner answers
    OUT_OF_SPACE. *)
Lemma put_forward_failure_no_reply_witness :
  let res := Server.process_client_message H0 (env_forward (Some OUT_OF_SPACE))
               (Some (Server.OpReq Server.OP_PUT "a" "new")) srv1 in
  Server.cr_forwarded res = Some (8, Server.OpReq Server.OP_PUT "a" "new") ∧
  Server.cr_reply res = None ∧
  Server.primary_hash (Server.cr_server res) !! "a"%string = Some "new"%string.
Proof.
  apply (put_forward_failure_no_reply H0 (env_forward (Some OUT_OF_SPACE)) srv1 "a" "new").
  - by vm_compute.
  - reflexivity.
  - reflexivity.
  - by vm_compute.
  - simpl; congruence.
Defined.

(** C1: server 1 takes the PUT of ["a"], stores it and forwards it.  When
    the partner answers OUT_OF_SPACE, and likewise when its answer cannot be
    read, the handler writes nothing to the client, where SERVER_FAILURE is
    due; the new value stays in the primary table. *)
Theorem put_forward_failure_sends_nothing :
  let request := Some (Server.OpReq Server.OP_PUT "a" "new") in
  let res1 := Server.process_client_message H0 (env_forward (Some OUT_OF_SPACE)) request srv1 in
  let res2 := Server.process_client_message H0 (env_forward None) request srv1 in
  (Server.cr_forwarded res1 = Some (8, Server.OpReq Server.OP_PUT "a" "new") ∧
   Server.cr_reply res1 = None ∧
   Server.cr_reply res1 ≠ Some (Server.OpResp SERVER_FAILURE "") ∧
   Server.primary_hash (Server.cr_server res1) !! "a"%string = Some "new"%string) ∧
  (Server.cr_forwarded res2 = Some (8, Server.OpReq Server.OP_PUT "a" "new") ∧
   Server.cr_reply res2 = None ∧
   Server.cr_reply res2 ≠ Some (Server.OpResp SERVER_FAILURE "") ∧
   Server.primary_hash (Server.cr_server res2) !! "a"%string = Some "new"%string).
Proof. by vm_compute. Qed.

(** Server 1 streams its secondary table: one PUT, then the confirmation to
    the coordinator; no NOOP is written. *)
Lemma send_table_task_sends_no_noop :
  (Server.send_table_task srv1).2 =
    [(7, Server.PktOp (Server.OpReq Server.OP_PUT "abc" "red"));
     (3, Server.PktMCtrl (MCtrlReq UPDATED_PRIMARY 1))] ∧
  ¬ ∃ fd k v, (fd, Server.PktOp (Server.OpReq Server.OP_NOOP k v)) ∈ (Server.send_table_task srv1).2.
Proof.
  assert ((Server.send_table_task srv1).2 =
    [(7, Server.PktOp (Server.OpReq Server.OP_PUT "abc" "red"));
     (3, Server.PktMCtrl (MCtrlReq UPDATED_PRIMARY 1))]) as Heq by (by vm_compute).
  split; [done|]. rewrite Heq. intros (fd & k & v & Hin).
  apply list_elem_of_In in Hin. simpl in Hin.
  destruct Hin as [Hin | [Hin | []]]; discriminate Hin.
Qed.

End ScenarioChecks.

(** * Configuration and start-up of the coordinator *)

Section Configuration.

Import MServer.

Lemma config_line_ok_spec l : config_line_ok l = true ↔ acceptable_line l.
Proof.
  unfold config_line_ok, acceptable_line.
  rewrite negb_true_iff, !orb_false_iff, andb_false_iff, !negb_false_iff.
  rewrite String.eqb_eq, !Z.eqb_neq. tauto.
Qed.

(** The loop of [read_config_file]: on success every index it covers holds
    the node of its line, and the rest of the table is as before. *)
Lemma read_nodes_success status0 n : ∀ lines i nodes nodes',
  read_nodes status0 lines i n nodes = Some nodes' →
  (∀ j, i ≤ j < i + Z.of_nat n →
        ∃ l, lines !! Z.to_nat (j - i) = Some (Some l) ∧ acceptable_line l ∧
             nodes' !! j = Some (configured_node status0 j l)) ∧
  (∀ j, j < i ∨ i + Z.of_nat n ≤ j → nodes' !! j = nodes !! j).
Proof.
  induction n as [|n IH]; intros lines i nodes nodes' Hread.
  - simplify_eq/=. split; [intros j Hj; lia | done].
  - simpl in Hread. destruct lines as [|[l|] rest]; [done| |done].
    destruct (config_line_ok l) eqn:Hok; [|done].
    apply IH in Hread as [Hin Hout]. split.
    + intros j Hj. destruct (decide (j = i)) as [->|Hne].
      * exists l. replace (i - i) with 0 by lia. simpl.
        split; [done|]. split; [by apply config_line_ok_spec|].
        rewrite Hout by lia. apply lookup_insert_eq.
      * destruct (Hin j) as (l' & Hl' & Hacc & Hnode); [lia|].
        exists l'. split; [|done].
        replace (Z.to_nat (j - i)) with (S (Z.to_nat (j - (i + 1)))) by lia. done.
    + intros j Hj. rewrite Hout by lia. apply lookup_insert_ne. lia.
Qed.

(** And it succeeds when the lines it needs are there and acceptable. *)
Lemma read_nodes_complete status0 n : ∀ lines i nodes,
  (∀ k, (k < n)%nat → ∃ l, lines !! k = Some (Some l) ∧ acceptable_line l) →
  is_Some (read_nodes status0 lines i n nodes).
Proof.
  induction n as [|n IH]; intros lines i nodes Hlines; [by eexists|].
  simpl. destruct (Hlines O) as (l & Hl & Hacc); [lia|].
  destruct lines as [|x rest]; [done|]. simpl in Hl. injection Hl as ->.
  rewrite (proj2 (config_line_ok_spec l) Hacc).
  apply IH. intros k Hk. apply (Hlines (S k)). lia.
Qed.

(** X1: a configuration [read_config_file] accepts names at least three
    servers; the table then holds exactly the indices below that number,
    each with the address of its line of the file, its own index as id, both
    sockets closed, no heartbeat recorded and no flag set; nothing has been
    sent. *)
Theorem read_config_file_accepted status0 calloc_ok a f st :
  read_config_file status0 calloc_ok a (Some f) = Some st →
  calloc_ok = true ∧
  well_formed st ∧
  cfg_num_servers f = Some (num_servers st) ∧
  prog_args st = a ∧ sent st = [] ∧
  (∀ i, in_table st i → 0 ≤ i < num_servers st) ∧
  (∀ i, 0 ≤ i < num_servers st →
        ∃ l, cfg_lines f !! Z.to_nat i = Some (Some l) ∧ acceptable_line l ∧
             node_at st i = configured_node status0 i l).
Proof.
  unfold read_config_file. intros Hread.
  destruct (cfg_num_servers f) as [n|]; [|done].
  destruct (n <? 3) eqn:Hn; [done|]. apply Z.ltb_ge in Hn.
  destruct calloc_ok; [|done]. simpl in Hread. split; [done|].
  destruct (read_nodes status0 (cfg_lines f) 0 (Z.to_nat n) ∅) as [nodes|] eqn:Hnodes; [|done].
  injection Hread as <-. simpl.
  apply read_nodes_success in Hnodes as [Hin Hout].
  rewrite Z2Nat.id in Hin, Hout by lia.
  assert (∀ i, 0 ≤ i < n →
            ∃ l, cfg_lines f !! Z.to_nat i = Some (Some l) ∧ acceptable_line l ∧
                 nodes !! i = Some (configured_node status0 i l)) as Hin'.
  { intros i Hi. destruct (Hin i) as (l & Hl & Hacc & Hnode); [lia|].
    exists l. by replace (i - 0) with i in Hl by lia. }
  split; [|split; [done|split; [done|split; [done|split]]]].
  - split; [done|]. intros i Hi. unfold in_table; simpl.
    destruct (Hin' i Hi) as (l & _ & _ & ->). by eexists.
  - intros i [x Hx]. simpl in Hx.
    destruct (decide (0 ≤ i < n)) as [|Hout']; [done|].
    rewrite Hout in Hx by lia. by rewrite lookup_empty in Hx.
  - intros i Hi. destruct (Hin' i Hi) as (l & Hl & Hacc & Hnode).
    exists l. split; [done|]. split; [done|].
    unfold node_at; simpl. by apply lookup_total_correct.
Qed.

(** X2: [read_config_file] accepts a file exactly when [calloc] returns the
    array, the first line gives a number of servers of at least three, and
    each of the next that many lines converts in full, has the host
    [localhost] or a host with an [@], and has three non-zero ports.  A file
    for two servers, a missing line and a zero port are all refused. *)
Theorem read_config_file_accepts_iff status0 calloc_ok a f :
  is_Some (read_config_file status0 calloc_ok a (Some f)) ↔
  calloc_ok = true ∧
  ∃ n, cfg_num_servers f = Some n ∧ 3 ≤ n ∧
       ∀ i, 0 ≤ i < n → ∃ l, cfg_lines f !! Z.to_nat i = Some (Some l) ∧ acceptable_line l.
Proof.
  split.
  - intros [st Hst]. unfold read_config_file in Hst.
    destruct (cfg_num_servers f) as [n|]; [|done].
    destruct (n <? 3) eqn:Hn; [done|]. apply Z.ltb_ge in Hn.
    destruct calloc_ok; [|done]. simpl in Hst. split; [done|].
    destruct (read_nodes status0 (cfg_lines f) 0 (Z.to_nat n) ∅) as [nodes|] eqn:Hnodes;
      [|done].
    apply read_nodes_success in Hnodes as [Hin _].
    exists n. split; [done|]. split; [done|].
    intros i Hi. destruct (Hin i) as (l & Hl & Hacc & _); [lia|].
    exists l. split; [|done]. by replace (i - 0) with i in Hl by lia.
  - intros (-> & n & Hnum & Hn & Hlines). unfold read_config_file. rewrite Hnum.
    destruct (n <? 3) eqn:Hlt; [apply Z.ltb_lt in Hlt; lia|]. simpl.
    destruct (read_nodes_complete status0 (Z.to_nat n) (cfg_lines f) 0 ∅) as [nodes ->].
    + intros k Hk. destruct (Hlines (Z.of_nat k)) as (l & Hl & Hacc); [lia|].
      rewrite Nat2Z.id in Hl. eauto.
    + by eexists.
Qed.

End Configuration.

(** * What the main loop keeps and what the detector does to a node *)

Section Invariants.

Import MServer.

Variable hash_key : string → Z.

Lemma in_table_nodes st st' j :
  server_nodes st' = server_nodes st → (in_table st' j ↔ in_table st j).
Proof. unfold in_table. by intros ->. Qed.

Lemma node_at_update_node_skip i j f st :
  i ≠ j ∨ ¬ in_table st i → node_at (update_node i f st) j = node_at st j.
Proof.
  intros Hskip. rewrite node_at_update_node. case_decide as Hd; [|done].
  destruct Hd as [-> Hin]. by destruct Hskip.
Qed.

Lemma spawn_server_in_table e i st j :
  in_table (spawn_server e i st).1 j ↔ in_table st j.
Proof.
  unfold spawn_server. destruct (spawn e i); simpl; by rewrite !in_table_update_node.
Qed.

Lemma spawn_server_skip e i j st :
  i ≠ j ∨ ¬ in_table st i → node_at (spawn_server e i st).1 j = node_at st j.
Proof.
  intros Hskip. unfold spawn_server.
  destruct (spawn e i); simpl;
    repeat (rewrite node_at_update_node_skip;
            [|by (destruct Hskip; [left|right; rewrite ?in_table_update_node])]);
    done.
Qed.

Lemma detect_failure_in_table e st i j :
  in_table (detect_failure e st i) j ↔ in_table st j.
Proof.
  unfold detect_failure.
  destruct (heartbeat_check_failed e (node_at st i)); [|done].
  set (st1 := update_node i (set_socket_fd_in (-1)) _).
  assert (in_table st1 j ↔ in_table st j) as H1
    by (unfold st1; by rewrite !in_table_update_node).
  pose proof (spawn_server_in_table e i st1 j) as H2.
  destruct (spawn_server e i st1) as [st2 ok]; simpl in *.
  destruct ok; simpl; [|by rewrite H2].
  rewrite (in_table_nodes _ _ j (send_request_nodes _ _ _ _ _)).
  rewrite (in_table_nodes _ _ j (send_request_nodes _ _ _ _ _)).
  rewrite !in_table_update_node. by rewrite H2.
Qed.

(** The detector body for an index outside the table writes nothing. *)
Lemma detect_failure_skip e st i j :
  i ≠ j ∨ ¬ in_table st i → node_at (detect_failure e st i) j = node_at st j.
Proof.
  intros [Hne|Hout]; [by apply detect_failure_other|].
  unfold detect_failure.
  destruct (heartbeat_check_failed e (node_at st i)); [|done].
  set (st1 := update_node i (set_socket_fd_in (-1)) _).
  assert (node_at st1 j = node_at st j) as H1.
  { unfold st1.
    rewrite node_at_update_node_skip by (right; by rewrite in_table_update_node).
    by rewrite node_at_update_node_skip by (by right). }
  assert (¬ in_table st1 i) as Hout1 by (unfold st1; by rewrite !in_table_update_node).
  pose proof (spawn_server_skip e i j st1 (or_intror Hout1)) as H2.
  pose proof (spawn_server_in_table e i st1 i) as H3.
  destruct (spawn_server e i st1) as [st2 ok]; simpl in *.
  destruct ok; simpl; [|congruence].
  rewrite (node_at_nodes _ _ j (send_request_nodes _ _ _ _ _)).
  rewrite (node_at_nodes _ _ j (send_request_nodes _ _ _ _ _)).
  repeat (rewrite node_at_update_node_skip;
          [|right; rewrite ?in_table_update_node; by rewrite H3]).
  congruence.
Qed.

(** What the detector body leaves at its own index. *)
Lemma detect_failure_self e st i :
  in_table st i →
  node_at (detect_failure e st i) i =
    if heartbeat_check_failed e (node_at st i) then
      match spawn e i with
      | Spawned fd_in fd_out => replacement_of (now e) fd_in fd_out (node_at st i)
      | _ => abandoned (node_at st i)
      end
    else node_at st i.
Proof.
  intros Hin. unfold detect_failure.
  destruct (heartbeat_check_failed e (node_at st i)); [|done].
  unfold spawn_server.
  destruct (spawn e i); simpl;
    rewrite ?(node_at_nodes _ _ i (send_request_nodes _ _ _ _ _));
    rewrite ?(node_at_nodes _ _ i (send_request_nodes _ _ _ _ _));
    repeat (rewrite node_at_update_node_eq by (by rewrite ?in_table_update_node));
    done.
Qed.

Lemma foldl_detect_failure_in_table e l : ∀ st j,
  in_table (foldl (detect_failure e) st l) j ↔ in_table st j.
Proof.
  induction l as [|i l IH]; intros st j; [done|]. simpl.
  by rewrite IH, detect_failure_in_table.
Qed.

Lemma foldl_detect_failure_skip e l j : ∀ st,
  (∀ i, i ∈ l → i ≠ j ∨ ¬ in_table st i) →
  node_at (foldl (detect_failure e) st l) j = node_at st j.
Proof.
  induction l as [|i l IH]; intros st Hl; [done|]. simpl.
  rewrite IH.
  - apply detect_failure_skip. apply Hl. by left.
  - intros i' Hi'. destruct (Hl i') as [?|Hout]; [by right|by left|].
    right. by rewrite detect_failure_in_table.
Qed.

(** X3: in one pass of the detection loop the fate of a server depends on
    its own heartbeat alone.  If its check passes the node is left as it is;
    if it fails and the replacement starts, the node keeps its address and
    id, gets the new sockets, the current time as heartbeat, the status
    RECON and all three flags cleared; if it fails and no replacement can
    be started, the node is FAILED with both sockets closed. *)
Theorem failure_detection_node e st i :
  0 ≤ i < num_servers st → in_table st i →
  node_at (failure_detection e st) i =
    if heartbeat_check_failed e (node_at st i) then
      match spawn e i with
      | Spawned fd_in fd_out => replacement_of (now e) fd_in fd_out (node_at st i)
      | _ => abandoned (node_at st i)
      end
    else node_at st i.
Proof.
  intros Hi Hin. unfold failure_detection.
  replace (num_servers st) with (i + (1 + (num_servers st - i - 1))) by lia.
  rewrite seqZ_app by lia. rewrite (seqZ_cons (0 + i)) by lia.
  rewrite foldl_app. simpl.
  set (st1 := foldl (detect_failure e) st (seqZ 0 i)).
  assert (node_at st1 i = node_at st i) as H1.
  { apply foldl_detect_failure_skip. intros j Hj. left.
    apply elem_of_seqZ in Hj. lia. }
  assert (in_table st1 i) as Hin1 by (by apply foldl_detect_failure_in_table).
  rewrite foldl_detect_failure_skip.
  - rewrite detect_failure_self by done. by rewrite H1.
  - intros j Hj. left. apply elem_of_seqZ in Hj. lia.
Qed.

(** Any message leaves a property of a node intact that the handlers' writes
    do not disturb. *)
Lemma process_server_message_keeps (Q : server_node → Prop) e m st j :
  (∀ n t, Q n → Q (set_last_heartbeat t n)) →
  (∀ n b, Q n → Q (set_ignore_put b n)) →
  (∀ n, Q n → Q (set_server_status KV_SERVER_ONLINE n)) →
  (∀ n, Q n → Q (set_updated_primary_accepted true n)) →
  (∀ n, Q n → Q (set_updated_secondary_accepted true n)) →
  Q (node_at st j) → Q (node_at (process_server_message e m st).1 j).
Proof.
  intros Hhb Hig Hon Hp Hs HQ.
  destruct (decide (m = Some (MCtrlReq HEARTBEAT j))) as [->|Hm].
  - simpl. apply update_node_preserves; auto.
  - by apply process_server_message_preserves.
Qed.

Lemma handle_switch_primary_in_table e Saa Sb st j :
  in_table (handle_switch_primary e Saa Sb st) j ↔ in_table st j.
Proof.
  unfold in_table. rewrite handle_switch_primary_nodes.
  case_bool_decide; unfold switched, switching; simpl;
    rewrite ?lookup_alter; repeat case_decide; subst; rewrite ?fmap_is_Some; done.
Qed.

Lemma process_server_message_in_table e m st j :
  in_table (process_server_message e m st).1 j ↔ in_table st j.
Proof.
  unfold process_server_message. destruct m as [[t i]|]; [|done].
  destruct t; simpl; try done.
  - by rewrite in_table_update_node.
  - case_match; simpl;
      by rewrite ?handle_switch_primary_in_table, in_table_update_node.
  - case_match; simpl;
      by rewrite ?handle_switch_primary_in_table, in_table_update_node.
Qed.

Lemma process_server_message_num_servers e m st :
  num_servers (process_server_message e m st).1 = num_servers st.
Proof.
  unfold process_server_message. destruct m as [[t i]|]; [|done].
  destruct t; simpl; try done;
    case_match; simpl; by rewrite ?handle_switch_primary_num_servers.
Qed.

Lemma serve_server_in_table e st m j :
  in_table (serve_server e st m) j ↔ in_table st j.
Proof.
  unfold serve_server. case_decide; [|done].
  pose proof (process_server_message_in_table e m.2 st j) as Hp.
  destruct (process_server_message e m.2 st) as [st' ok]; simpl in *.
  destruct ok; simpl; by rewrite ?in_table_update_node.
Qed.

Lemma serve_server_num_servers e st m :
  num_servers (serve_server e st m) = num_servers st.
Proof.
  unfold serve_server. case_decide; [|done].
  pose proof (process_server_message_num_servers e m.2 st) as Hp.
  destruct (process_server_message e m.2 st) as [st' ok]; simpl in *.
  by destruct ok.
Qed.

Lemma foldl_serve_server_frame e ms : ∀ st,
  num_servers (foldl (serve_server e) st ms) = num_servers st ∧
  ∀ j, in_table (foldl (serve_server e) st ms) j ↔ in_table st j.
Proof.
  induction ms as [|m ms IH]; intros st; [done|]. simpl.
  destruct (IH (serve_server e st m)) as [HN Hin]. split.
  - by rewrite HN, serve_server_num_servers.
  - intros j. by rewrite Hin, serve_server_in_table.
Qed.

Lemma loop_turn_frame st r :
  num_servers (loop_turn hash_key st r).1 = num_servers st ∧
  ∀ j, in_table (loop_turn hash_key st r).1 j ↔ in_table st j.
Proof.
  rewrite loop_turn_state.
  destruct (foldl_serve_server_frame (ready_env r) (ready_servers r)
              (failure_detection (ready_env r) st)) as [HN Hin].
  split.
  - rewrite HN. apply failure_detection_num_servers.
  - intros j. rewrite Hin. apply foldl_detect_failure_in_table.
Qed.

Lemma address_replacement_of t fi fo n : address (replacement_of t fi fo n) = address n.
Proof. done. Qed.

Lemma address_abandoned n : address (abandoned n) = address n.
Proof. done. Qed.

Lemma detect_failure_address e st i j :
  address (node_at (detect_failure e st i) j) = address (node_at st j).
Proof.
  destruct (decide (i ≠ j ∨ ¬ in_table st i)) as [Hskip|Hself].
  - by rewrite detect_failure_skip.
  - assert (i = j ∧ in_table st i) as [-> Hin].
    { destruct (decide (i = j)); [|tauto].
      split; [done|]. apply dec_stable. tauto. }
    rewrite detect_failure_self by done.
    destruct (heartbeat_check_failed e (node_at st j)); [|done].
    by destruct (spawn e j).
Qed.

Lemma loop_turn_address st r j :
  address (node_at (loop_turn hash_key st r).1 j) = address (node_at st j).
Proof.
  rewrite loop_turn_state.
  transitivity (address (node_at (failure_detection (ready_env r) st) j)).
  - apply (foldl_serve_server_preserves
             (λ n, address n = address (node_at (failure_detection (ready_env r) st) j)));
      [done| |done].
    apply Forall_forall. intros m _ st0 HQ.
    by apply process_server_message_keeps.
  - unfold failure_detection. generalize (seqZ 0 (num_servers st)). intros l.
    revert st. induction l as [|i l IH]; intros st; [done|]. simpl.
    by rewrite IH, detect_failure_address.
Qed.

(** X4: however long the main loop runs and whatever it receives, it keeps
    the number of servers, the set of indices of the table and the address
    (host name, the three ports, id) of every node; a table that was well
    formed stays so. *)
Theorem run_keeps_configuration st rs :
  let st' := (run_mserver_loop hash_key st rs).1 in
  num_servers st' = num_servers st ∧
  (∀ j, in_table st' j ↔ in_table st j) ∧
  (∀ j, address (node_at st' j) = address (node_at st j)) ∧
  (well_formed st → well_formed st').
Proof.
  revert st. induction rs as [|r rs IH]; intros st.
  { cbv zeta. change (run_mserver_loop hash_key st []).1 with st. done. }
  cbv zeta. rewrite run_mserver_loop_cons.
  destruct (IH (loop_turn hash_key st r).1) as (HN & Hin & Haddr & _).
  destruct (loop_turn_frame st r) as [HN1 Hin1].
  assert (num_servers (run_mserver_loop hash_key (loop_turn hash_key st r).1 rs).1
          = num_servers st) as HN' by (by rewrite HN).
  assert (∀ j, in_table (run_mserver_loop hash_key (loop_turn hash_key st r).1 rs).1 j
               ↔ in_table st j) as Hin' by (intros j; by rewrite Hin).
  split; [done|]. split; [done|]. split.
  - intros j. by rewrite Haddr, loop_turn_address.
  - intros [H3 Hwf]. split; [by rewrite HN'|].
    intros i Hi. apply Hin'. apply Hwf. by rewrite <- HN'.
Qed.

End Invariants.

(** * Recovery as the coordinator drives it *)

Section Recovery.

Import MServer.

Variable hash_key : string → Z.

Lemma primary_server_id_neq i n :
  2 ≤ n → 0 ≤ i < n → primary_server_id i n ≠ i.
Proof.
  intros Hn Hi. rewrite primary_server_id_cases by done. case_decide; lia.
Qed.

Lemma foldl_detect_failure_alive e l : ∀ st,
  (∀ j, j ∈ l → heartbeat_check_failed e (node_at st j) = false) →
  foldl (detect_failure e) st l = st.
Proof.
  induction l as [|i l IH]; intros st Hl; [done|]. simpl.
  rewrite detect_failure_alive by (apply Hl; by left).
  apply IH. intros j Hj. apply Hl. by right.
Qed.

(** When one server alone has timed out, the pass of the detector is the
    detector body for that server. *)
Lemma failure_detection_single e st a :
  0 ≤ a < num_servers st →
  (∀ j, j ≠ a → heartbeat_check_failed e (node_at st j) = false) →
  failure_detection e st = detect_failure e st a.
Proof.
  intros Ha Hothers. unfold failure_detection.
  replace (num_servers st) with (a + (1 + (num_servers st - a - 1))) by lia.
  rewrite seqZ_app by lia. rewrite (seqZ_cons (0 + a)) by lia.
  rewrite foldl_app. simpl.
  rewrite (foldl_detect_failure_alive e (seqZ 0 a)).
  - apply foldl_detect_failure_alive. intros j Hj.
    apply elem_of_seqZ in Hj.
    rewrite detect_failure_other by lia. apply Hothers. lia.
  - intros j Hj. apply elem_of_seqZ in Hj. apply Hothers. lia.
Qed.

Lemma send_request_sent e i i2 t st :
  t ≠ SWITCH_PRIMARY →
  sent (send_request e i i2 t st).1 =
    sent st ++ (if fd_is_valid e (socket_fd_out (node_at st i))
                then [(i, update_request t (node_at st i2))] else []).
Proof.
  intros Ht. unfold send_request. rewrite decide_True by done.
  destruct (fd_is_valid e (socket_fd_out (node_at st i))).
  - by rewrite exchange_sent.
  - by rewrite app_nil_r.
Qed.

Lemma spawn_server_sent e i st : sent (spawn_server e i st).1 = sent st.
Proof. unfold spawn_server. by destruct (spawn e i). Qed.

(** What the detector body writes for a server that has timed out. *)
Lemma detect_failure_sent e st a :
  in_table st a →
  heartbeat_check_failed e (node_at st a) = true →
  let Sb := secondary_server_id a (num_servers st) in
  let Sc := primary_server_id a (num_servers st) in
  Sb ≠ a → Sc ≠ a →
  sent (detect_failure e st a) =
    sent st ++
    match spawn e a with
    | Spawned _ _ =>
        (if fd_is_valid e (socket_fd_out (node_at st Sb))
         then [(Sb, update_request UPDATE_PRIMARY (node_at st a))] else []) ++
        (if fd_is_valid e (socket_fd_out (node_at st Sc))
         then [(Sc, update_request UPDATE_SECONDARY (node_at st a))] else [])
    | _ => []
    end.
Proof.
  intros Hin Hc Sb Sc Hb Hcne.
  unfold detect_failure. rewrite Hc. unfold spawn_server.
  destruct (spawn e a) as [| | |fi fo]; simpl;
    [symmetry; apply app_nil_r ..|].
  set (st3 := update_node a (set_ignore_put false) _).
  assert (sent st3 = sent st) as Hs3 by reflexivity.
  assert (∀ j, j ≠ a → node_at st3 j = node_at st j) as Hother.
  { intros j Hj. unfold st3. by rewrite !node_at_update_node_ne. }
  assert (∀ t, update_request t (node_at st3 a) = update_request t (node_at st a)) as Hreq.
  { intros t. unfold st3.
    repeat (rewrite node_at_update_node_eq by (by rewrite ?in_table_update_node)).
    done. }
  rewrite send_request_sent by done.
  rewrite (node_at_nodes _ _ _ (send_request_nodes _ _ _ _ _)).
  rewrite (node_at_nodes _ _ _ (send_request_nodes _ _ _ _ _)).
  rewrite send_request_sent by done.
  rewrite send_request_num_servers.
  change (num_servers st3) with (num_servers st). fold Sb Sc.
  rewrite Hs3, !Hreq, !Hother by done. by rewrite <- app_assoc.
Qed.

(** X5: when exactly one server has timed out, a pass of the detector leaves
    every other node as it is and, if the replacement starts, sends
    UPDATE_PRIMARY to the secondary of the failed server and then
    UPDATE_SECONDARY to its primary, each only if that server's outbound
    socket is valid and each carrying the replacement's host (without the
    user prefix) and servers' port; if the replacement cannot be started it
    sends nothing. *)
Theorem failure_detection_starts_recovery e st a :
  well_formed st → 0 ≤ a < num_servers st →
  heartbeat_check_failed e (node_at st a) = true →
  (∀ j, j ≠ a → heartbeat_check_failed e (node_at st j) = false) →
  let Sb := secondary_server_id a (num_servers st) in
  let Sc := primary_server_id a (num_servers st) in
  let st' := failure_detection e st in
  (∀ j, j ≠ a → node_at st' j = node_at st j) ∧
  sent st' =
    sent st ++
    match spawn e a with
    | Spawned _ _ =>
        (if fd_is_valid e (socket_fd_out (node_at st Sb))
         then [(Sb, update_request UPDATE_PRIMARY (node_at st a))] else []) ++
        (if fd_is_valid e (socket_fd_out (node_at st Sc))
         then [(Sc, update_request UPDATE_SECONDARY (node_at st a))] else [])
    | _ => []
    end.
Proof.
  intros [HN Hwf] Ha Hc Hothers Sb Sc st'.
  unfold st'. rewrite (failure_detection_single e st a) by done. split.
  - intros j Hj. by apply detect_failure_other.
  - apply detect_failure_sent; [by apply Hwf | done | |].
    + apply secondary_server_id_neq; lia.
    + apply primary_server_id_neq; lia.
Qed.

(** After a successful switch the keys of the replaced server are answered
    with its address. *)
Lemma locate_after_switch e st Saa Sb k :
  in_table st Saa → Saa ≠ Sb →
  ctrl_reply e Saa SET_SECONDARY = Some CTRLREQ_SUCCESS →
  key_server_id hash_key k (num_servers st) = Saa →
  let st' := handle_switch_primary e Saa Sb st in
  server_status (node_at st' Saa) = KV_SERVER_ONLINE ∧
  process_client_message hash_key st' (Some k) = Some (answer_of st Saa).
Proof.
  intros Ha Hne Hok Hk st'.
  assert (node_at st' Saa =
          set_server_status KV_SERVER_ONLINE
            (set_ignore_put false (set_ignore_put true (node_at st Saa)))) as HSaa.
  { unfold st', node_at. rewrite handle_switch_primary_nodes.
    rewrite bool_decide_eq_true_2 by done. fold (node_at (switched Saa Sb st) Saa).
    fold (node_at st Saa). unfold switched, switching.
    rewrite node_at_update_node_eq by (by rewrite !in_table_update_node).
    rewrite node_at_update_node_ne by done.
    rewrite node_at_update_node_eq by (by rewrite !in_table_update_node).
    rewrite node_at_update_node_ne by done.
    by rewrite node_at_update_node_eq. }
  split; [by rewrite HSaa|].
  assert (num_servers st' = num_servers st) as HN
    by apply handle_switch_primary_num_servers.
  rewrite process_client_message_answer.
  rewrite route_online; rewrite HN, Hk; [|by rewrite HSaa].
  unfold answer_of. by rewrite HSaa.
Qed.

(** X6: the whole recovery of one server, as the coordinator sees it.  Once
    the detector has replaced the only timed-out server [a], the keys of
    [a] are answered with the address of its secondary, and still so after
    the first of the two acknowledgments, whichever it is; when the second
    has arrived and the replacement has acknowledged SET_SECONDARY, the
    replacement is ONLINE and the keys of [a] are answered with the
    address of [a] again. *)
Theorem recovery_reroutes_locate (primary_first : bool) e1 e2 e3 st a fd_in fd_out k :
  well_formed st → 0 ≤ a < num_servers st →
  heartbeat_check_failed e1 (node_at st a) = true →
  (∀ j, j ≠ a → heartbeat_check_failed e1 (node_at st j) = false) →
  spawn e1 a = Spawned fd_in fd_out →
  ctrl_reply e3 a SET_SECONDARY = Some CTRLREQ_SUCCESS →
  key_server_id hash_key k (num_servers st) = a →
  let Sb := secondary_server_id a (num_servers st) in
  let Sc := primary_server_id a (num_servers st) in
  ignore_put (node_at st Sb) = false →
  let ack_p := Some (MCtrlReq UPDATED_PRIMARY Sb) in
  let ack_s := Some (MCtrlReq UPDATED_SECONDARY Sc) in
  let st1 := failure_detection e1 st in
  let st2 := (process_server_message e2 (if primary_first then ack_p else ack_s) st1).1 in
  let st3 := (process_server_message e3 (if primary_first then ack_s else ack_p) st2).1 in
  process_client_message hash_key st1 (Some k) = Some (answer_of st Sb) ∧
  process_client_message hash_key st2 (Some k) = Some (answer_of st Sb) ∧
  process_client_message hash_key st3 (Some k) = Some (answer_of st a) ∧
  server_status (node_at st3 a) = KV_SERVER_ONLINE.
Proof.
  intros [HN Hwf] Ha Hc Hothers Hspawn Hok Hk Sb Sc Hig ack_p ack_s st1 st2 st3.
  assert (in_table st a) as Hin by auto.
  assert (Sb ≠ a) as Hba by (apply secondary_server_id_neq; lia).
  assert (primary_server_id Sb (num_servers st) = a) as HSaa_p
    by (apply primary_of_secondary; lia).
  assert (secondary_server_id Sc (num_servers st) = a) as HSaa_s
    by (apply secondary_of_primary; lia).
  assert (st1 = detect_failure e1 st a) as Hst1
    by (by apply failure_detection_single).
  assert (num_servers st1 = num_servers st) as HN1
    by (rewrite Hst1; apply detect_failure_num_servers).
  assert (in_table st1 a) as Hin1 by (rewrite Hst1; by apply detect_failure_in_table).
  assert (node_at st1 a = replacement_of (now e1) fd_in fd_out (node_at st a)) as Ha1.
  { rewrite Hst1, detect_failure_self by done. by rewrite Hc, Hspawn. }
  assert (node_at st1 Sb = node_at st Sb) as Hb1.
  { rewrite Hst1. apply detect_failure_other. congruence. }
  (* a state in which [a] is being reconstructed answers with [Sb] *)
  assert (∀ s, num_servers s = num_servers st →
               server_status (node_at s a) = KV_SERVER_RECON →
               node_at s Sb = node_at st Sb →
               process_client_message hash_key s (Some k) = Some (answer_of st Sb)) as Hrecon.
  { intros s HNs Hsa Hsb. rewrite process_client_message_answer.
    rewrite route_not_online; rewrite HNs, Hk; [|by rewrite Hsa].
    fold Sb. unfold answer_of. by rewrite Hsb, Hig. }
  (* the first acknowledgment only sets a flag of [a] *)
  assert (∃ f, st2 = update_node a f st1 ∧
               (∀ n, server_status (f n) = server_status n) ∧
               (∀ n, address (f n) = address n) ∧
               updated_primary_accepted (f (node_at st1 a)) = primary_first ∧
               updated_secondary_accepted (f (node_at st1 a)) = negb primary_first)
    as (f & Hst2 & Hfs & Hfa & Hfp & Hfq).
  { destruct primary_first.
    - exists (set_updated_primary_accepted true). unfold st2, ack_p.
      rewrite process_updated_primary; rewrite HN1, HSaa_p; [|done].
      cbv zeta. rewrite Ha1. simpl. done.
    - exists (set_updated_secondary_accepted true). unfold st2, ack_s.
      rewrite process_updated_secondary; rewrite HN1, HSaa_s; [|done].
      cbv zeta. rewrite Ha1. simpl. done. }
  assert (num_servers st2 = num_servers st) as HN2 by (by rewrite Hst2).
  assert (in_table st2 a) as Hin2 by (rewrite Hst2; by apply in_table_update_node).
  assert (node_at st2 a = f (node_at st1 a)) as Ha2
    by (rewrite Hst2; by apply node_at_update_node_eq).
  (* the second one runs the switch *)
  assert (∃ g, st3 = handle_switch_primary e3 a Sb (update_node a g st2) ∧
               (∀ n, address (g n) = address n)) as (g & Hst3 & Hga).
  { destruct primary_first.
    - exists (set_updated_secondary_accepted true). split; [|done]. unfold st3, ack_s.
      rewrite process_updated_secondary; rewrite HN2, HSaa_s; [|done].
      cbv zeta. fold Sb. by rewrite Ha2, Hfp.
    - exists (set_updated_primary_accepted true). split; [|done]. unfold st3, ack_p.
      rewrite process_updated_primary; rewrite HN2, HSaa_p; [|done].
      cbv zeta. by rewrite Ha2, Hfq. }
  split; [|split].
  - apply Hrecon; [done | by rewrite Ha1 | done].
  - apply Hrecon; [done | by rewrite Ha2, Hfs, Ha1 |].
    rewrite Hst2, node_at_update_node_ne by done. done.
  - destruct (locate_after_switch e3 (update_node a g st2) a Sb k) as [Hon Hans].
    + by apply in_table_update_node.
    + done.
    + done.
    + by rewrite num_servers_update_node, HN2.
    + rewrite Hst3. split; [|done]. rewrite Hans. f_equal. unfold answer_of.
      rewrite node_at_update_node_eq by done.
      assert (address (g (node_at st2 a)) = address (node_at st a)) as Haddr
        by (by rewrite Hga, Ha2, Hfa, Ha1).
      unfold address in Haddr. injection Haddr as Hhost _ Hcport _ _.
      by rewrite Hhost, Hcport.
Qed.

End Recovery.

(** * Servers that keep sending heartbeats *)

Section Heartbeats.

Import MServer.

Variable hash_key : string → Z.

Lemma process_server_message_accepted e m st :
  accepted_message m → (process_server_message e m.2 st).2 = true.
Proof.
  intros (q & Hq & Hvalid). rewrite Hq. unfold process_server_message.
  destruct (mreq_type q); simpl; try done; by case_match.
Qed.

(** The loop over the servers' sockets leaves open the socket of a server
    whose own messages are all accepted. *)
Lemma serve_server_keeps (Q : server_node → Prop) e m st i :
  (m.1 = i → accepted_message m) →
  (Q (node_at st i) → Q (node_at (process_server_message e m.2 st).1 i)) →
  Q (node_at st i) → Q (node_at (serve_server e st m) i).
Proof.
  intros Hacc Hstep HQ. unfold serve_server. case_decide; [|done].
  specialize (Hstep HQ).
  destruct (decide (m.1 = i)) as [Hmi|Hmi].
  - rewrite (surjective_pairing (process_server_message e m.2 st)).
    by rewrite process_server_message_accepted by auto.
  - destruct (process_server_message e m.2 st) as [st' ok]; simpl in *.
    destruct ok; simpl; [done|]. by rewrite node_at_update_node_ne.
Qed.

(** Within a turn a recorded heartbeat time stays the time of the turn. *)
Lemma process_server_message_heartbeat_time e m st i :
  last_heartbeat (node_at st i) = now e →
  last_heartbeat (node_at (process_server_message e m st).1 i) = now e.
Proof.
  intros Hnow. destruct (decide (m = Some (MCtrlReq HEARTBEAT i))) as [->|Hm].
  - simpl. rewrite node_at_update_node. by case_decide.
  - by apply (process_server_message_preserves (λ n, last_heartbeat n = now e)).
Qed.

Lemma foldl_serve_server_heartbeat e i n0 ms : ∀ st,
  in_table st i → socket_fd_in n0 ≠ -1 →
  kept_alive n0 (node_at st i) →
  (last_heartbeat (node_at st i) = now e ∨ (i, Some (MCtrlReq HEARTBEAT i)) ∈ ms) →
  (∀ m, m ∈ ms → m.1 = i → accepted_message m) →
  let st' := foldl (serve_server e) st ms in
  in_table st' i ∧ kept_alive n0 (node_at st' i) ∧ last_heartbeat (node_at st' i) = now e.
Proof.
  induction ms as [|m ms IH]; intros st Hin Hopen Hkept Hhb Hms.
  { simpl. destruct Hhb as [Hhb|Hhb]; [done|]. by apply elem_of_nil in Hhb. }
  cbv zeta. simpl. apply IH.
  - by apply serve_server_in_table.
  - done.
  - apply (serve_server_keeps (kept_alive n0)); [apply Hms; by left| |done].
    intros HQ. apply process_server_message_keeps; try done;
      unfold kept_alive; simpl; tauto.
  - destruct (decide (m = (i, Some (MCtrlReq HEARTBEAT i)))) as [->|Hne].
    + left. unfold serve_server. simpl.
      destruct Hkept as (Hfd & _ & _).
      rewrite decide_True by (by rewrite Hfd).
      simpl. by rewrite node_at_update_node_eq.
    + destruct Hhb as [Hhb|Hhb].
      * left. apply (serve_server_keeps (λ n, last_heartbeat n = now e));
          [apply Hms; by left| |done].
        apply process_server_message_heartbeat_time.
      * right. apply elem_of_cons in Hhb as [Hhb|Hhb]; [congruence|done].
  - intros m' Hm'. apply Hms. by right.
Qed.

(** X7: a server whose heartbeat reaches the coordinator in every turn of
    the main loop, with never more than two seconds between one turn and the
    next, and whose socket delivers nothing the handler refuses, is never
    replaced and never loses its connection: its two sockets stay the same,
    and its status stays what it was unless a completed switch puts it
    ONLINE. *)
Theorem timely_heartbeats_keep_server st rs i :
  in_table st i →
  socket_fd_in (node_at st i) ≠ -1 →
  heartbeats_in_time i (last_heartbeat (node_at st i)) rs →
  let st' := (run_mserver_loop hash_key st rs).1 in
  socket_fd_in (node_at st' i) = socket_fd_in (node_at st i) ∧
  socket_fd_out (node_at st' i) = socket_fd_out (node_at st i) ∧
  (server_status (node_at st' i) = server_status (node_at st i) ∨
   server_status (node_at st' i) = KV_SERVER_ONLINE).
Proof.
  intros Hin Hopen Hrs. cbv zeta.
  change (kept_alive (node_at st i) (node_at (run_mserver_loop hash_key st rs).1 i)).
  assert (∀ n0 st0, socket_fd_in n0 ≠ -1 → in_table st0 i →
            kept_alive n0 (node_at st0 i) →
            heartbeats_in_time i (last_heartbeat (node_at st0 i)) rs →
            kept_alive n0 (node_at (run_mserver_loop hash_key st0 rs).1 i)) as Hgen.
  { clear. intros n0 st0 Hopen. revert st0.
    induction rs as [|r rs IH]; intros st Hin Hkept Hrs; [done|].
    rewrite run_mserver_loop_cons.
    destruct Hrs as (Htime & Hhb & Hacc & Hrest).
    assert (heartbeat_check_failed (ready_env r) (node_at st i) = false) as Hcheck.
    { unfold heartbeat_check_failed. apply andb_false_iff. right.
      apply Z.ltb_ge. unfold heartbeat_check_diff. lia. }
    destruct (foldl_serve_server_heartbeat (ready_env r) i n0 (ready_servers r)
                (failure_detection (ready_env r) st)) as (Hin' & Hkept' & Hnow).
    - by apply foldl_detect_failure_in_table.
    - done.
    - unfold failure_detection. by rewrite failure_detection_alive.
    - by right.
    - done.
    - apply IH.
      + by rewrite loop_turn_state.
      + by rewrite loop_turn_state.
      + rewrite loop_turn_state. by rewrite Hnow. }
  apply Hgen; [done..| |done]. unfold kept_alive. tauto.
Qed.

End Heartbeats.

(** * The switch and the other shards *)

Section SwitchFrame.

Import MServer.

Variable hash_key : string → Z.

Lemma handle_switch_primary_at e Saa Sb st j :
  node_at (handle_switch_primary e Saa Sb st) j =
    if bool_decide (ctrl_reply e Saa SET_SECONDARY = Some CTRLREQ_SUCCESS)
    then node_at (switched Saa Sb st) j else node_at (switching Saa Sb st) j.
Proof. unfold node_at. rewrite handle_switch_primary_nodes. by case_bool_decide. Qed.

Lemma handle_switch_primary_other e Saa Sb st j :
  j ≠ Saa → j ≠ Sb → node_at (handle_switch_primary e Saa Sb st) j = node_at st j.
Proof.
  intros Ha Hb. rewrite handle_switch_primary_at.
  case_bool_decide; unfold switched, switching;
    by rewrite !node_at_update_node_ne.
Qed.

Lemma handle_switch_primary_status e Saa Sb st j :
  j ≠ Saa →
  server_status (node_at (handle_switch_primary e Saa Sb st) j) = server_status (node_at st j).
Proof.
  intros Ha. rewrite handle_switch_primary_at.
  case_bool_decide; unfold switched, switching;
    rewrite !node_at_update_node; repeat case_decide; simpl; try done;
    exfalso; intuition congruence.
Qed.

(** X8: the switch for one server leaves the other keys in service, whether
    it succeeds or not: a locate request for a key whose owner is not the
    replaced server and which is routed to neither the replaced server nor
    its secondary gets the same answer after the handler as before. *)
Theorem switch_leaves_other_keys e st Saa Sb k :
  key_server_id hash_key k (num_servers st) ≠ Saa →
  route hash_key st k ≠ Saa → route hash_key st k ≠ Sb →
  let st' := handle_switch_primary e Saa Sb st in
  route hash_key st' k = route hash_key st k ∧
  process_client_message hash_key st' (Some k) = process_client_message hash_key st (Some k).
Proof.
  intros Hown Hra Hrb st'.
  assert (num_servers st' = num_servers st) as HN
    by apply handle_switch_primary_num_servers.
  assert (route hash_key st' k = route hash_key st k) as Hroute.
  { unfold route. rewrite HN. unfold st'.
    by rewrite handle_switch_primary_status. }
  split; [done|].
  rewrite !process_client_message_answer, Hroute. unfold answer_of, st'.
  by rewrite handle_switch_primary_other.
Qed.

End SwitchFrame.

(** * Start-up and shutdown of the coordinator *)

Section StartUp.

Import MServer.

Lemma spawn_server_self e i st :
  in_table st i →
  node_at (spawn_server e i st).1 i =
    match spawn e i with
    | Spawned fd_in fd_out => set_socket_fd_out fd_out (set_socket_fd_in fd_in (node_at st i))
    | _ => set_socket_fd_out (-1) (set_socket_fd_in (-1) (node_at st i))
    end.
Proof.
  intros Hin. unfold spawn_server.
  destruct (spawn e i); simpl;
    repeat (rewrite node_at_update_node_eq by (by rewrite ?in_table_update_node));
    done.
Qed.

Lemma spawn_server_ok e i st :
  (spawn_server e i st).2 = true ↔ ∃ fd_in fd_out, spawn e i = Spawned fd_in fd_out.
Proof.
  unfold spawn_server. destruct (spawn e i); simpl; split; try done;
    try (by intros (? & ? & ?)); eauto.
Qed.

(** The first loop of [init_servers] when it gets through. *)
Lemma spawn_all_success e ids : ∀ st st',
  NoDup ids → (∀ i, i ∈ ids → in_table st i) →
  spawn_all e ids st = (st', true) →
  sent st' = sent st ∧ num_servers st' = num_servers st ∧
  (∀ j, in_table st' j ↔ in_table st j) ∧
  (∀ j, j ∉ ids → node_at st' j = node_at st j) ∧
  (∀ i, i ∈ ids → ∃ fd_in fd_out,
        spawn e i = Spawned fd_in fd_out ∧
        node_at st' i = set_socket_fd_out fd_out (set_socket_fd_in fd_in (node_at st i))).
Proof.
  induction ids as [|i ids IH]; intros st st' Hnd Hin Hrun.
  { simpl in Hrun. simplify_eq. repeat split; try done. intros i Hi.
    by apply elem_of_nil in Hi. }
  apply NoDup_cons in Hnd as [Hi Hnd]. simpl in Hrun.
  pose proof (spawn_server_self e i st (Hin i (list_elem_of_here _ _))) as Hself.
  pose proof (spawn_server_ok e i st) as Hok.
  pose proof (spawn_server_sent e i st) as Hsent.
  pose proof (spawn_server_num_servers e i st) as HN.
  pose proof (spawn_server_in_table e i st) as Htab.
  pose proof (λ j, spawn_server_other e i j st) as Hother.
  destruct (spawn_server e i st) as [st1 ok]; simpl in *.
  destruct ok; [|done].
  destruct (proj1 Hok eq_refl) as (fi & fo & Hsp). rewrite Hsp in Hself.
  apply IH in Hrun as (Hs & Hn & Ht & Ho & Hi'); [|done|].
  - split; [congruence|]. split; [congruence|]. split; [|split].
    + intros j. by rewrite Ht.
    + intros j Hj. apply not_elem_of_cons in Hj as [Hji Hj].
      rewrite Ho by done. by apply Hother.
    + intros j Hj. apply elem_of_cons in Hj as [->|Hj].
      * exists fi, fo. split; [done|]. by rewrite Ho.
      * destruct (Hi' j Hj) as (fi' & fo' & Hsp' & Hnode).
        exists fi', fo'. split; [done|]. rewrite Hnode, Hother; [done|].
        intros ->. done.
  - intros j Hj. apply Htab. apply Hin. by right.
Qed.

Lemma send_set_secondary_sent e i st :
  sent (send_set_secondary e i st).1 =
    sent st ++ [(i, update_request SET_SECONDARY
                      (node_at st (secondary_server_id i (num_servers st))))].
Proof. unfold send_set_secondary. by rewrite exchange_sent. Qed.

(** The second loop of [init_servers] when it gets through. *)
Lemma send_set_secondary_all_success e ids : ∀ st st',
  send_set_secondary_all e ids st = (st', true) →
  server_nodes st' = server_nodes st ∧ num_servers st' = num_servers st ∧
  sent st' = sent st ++
    map (λ i, (i, update_request SET_SECONDARY
                    (node_at st (secondary_server_id i (num_servers st))))) ids ∧
  (∀ i, i ∈ ids → ctrl_reply e i SET_SECONDARY = Some CTRLREQ_SUCCESS).
Proof.
  induction ids as [|i ids IH]; intros st st' Hrun.
  { simpl in Hrun. simplify_eq. rewrite app_nil_r. repeat split; try done.
    intros i Hi. by apply elem_of_nil in Hi. }
  simpl in Hrun.
  pose proof (send_set_secondary_sent e i st) as Hsent.
  pose proof (send_set_secondary_nodes e i st) as Hnodes.
  pose proof (send_set_secondary_num_servers e i st) as HN.
  pose proof (send_set_secondary_ok e i st) as Hok.
  destruct (send_set_secondary e i st) as [st1 ok]; simpl in *.
  destruct ok; [|done].
  apply IH in Hrun as (Hn & HN' & Hs & Hr).
  split; [congruence|]. split; [congruence|]. split.
  - rewrite Hs, Hsent, HN, <- app_assoc. simpl. do 2 f_equal.
    apply map_ext. intros j. by rewrite (node_at_nodes _ _ _ Hnodes).
  - intros j Hj. apply elem_of_cons in Hj as [->|Hj]; [|by apply Hr].
    symmetry in Hok. by apply bool_decide_eq_true in Hok.
Qed.

(** X9: when [init_servers] returns [true], every server of the table was
    started and holds the two sockets of its start, and the coordinator has
    sent exactly one SET_SECONDARY to each server, in order of index, naming
    the host (without the user prefix) and the servers' port of the server
    with the next index, the last one naming server 0; each was answered
    with success. *)
Theorem init_servers_success e st st' :
  well_formed st →
  init_servers e st = (st', true) →
  num_servers st' = num_servers st ∧
  sent st' = sent st ++
    map (λ i, (i, update_request SET_SECONDARY
                    (node_at st (secondary_server_id i (num_servers st)))))
        (seqZ 0 (num_servers st)) ∧
  ∀ i, 0 ≤ i < num_servers st →
       ctrl_reply e i SET_SECONDARY = Some CTRLREQ_SUCCESS ∧
       ∃ fd_in fd_out, spawn e i = Spawned fd_in fd_out ∧
         node_at st' i = set_socket_fd_out fd_out (set_socket_fd_in fd_in (node_at st i)).
Proof.
  intros [H3 Hwf] Hinit. unfold init_servers in Hinit.
  destruct (spawn_all e (seqZ 0 (num_servers st)) st) as [st1 ok] eqn:Hspawn.
  destruct ok; [|done]. simpl in Hinit.
  apply spawn_all_success in Hspawn as (Hs1 & HN1 & Ht1 & Ho1 & Hi1);
    [|apply NoDup_seqZ|intros i Hi; apply Hwf; apply elem_of_seqZ in Hi; lia].
  apply send_set_secondary_all_success in Hinit as (Hn2 & HN2 & Hs2 & Hr2).
  rewrite HN1 in *.
  assert (∀ j, update_request SET_SECONDARY (node_at st1 j)
               = update_request SET_SECONDARY (node_at st j)) as Hreq.
  { intros j. destruct (decide (j ∈ seqZ 0 (num_servers st))) as [Hj|Hj].
    - destruct (Hi1 j Hj) as (fi & fo & _ & ->). done.
    - by rewrite Ho1. }
  split; [done|]. split.
  - rewrite Hs2, Hs1. f_equal. apply map_ext. intros i. by rewrite Hreq.
  - intros i Hi.
    assert (i ∈ seqZ 0 (num_servers st)) as Hi' by (apply elem_of_seqZ; lia).
    split; [by apply Hr2|].
    destruct (Hi1 i Hi') as (fi & fo & Hsp & Hnode).
    exists fi, fo. split; [done|]. by rewrite (node_at_nodes _ _ _ Hn2).
Qed.

(** ** Shutdown *)

Lemma filter_local_ext {A} (P Q : A → Prop) `{!∀ x, Decision (P x), !∀ x, Decision (Q x)}
    (l : list A) :
  (∀ x, x ∈ l → P x ↔ Q x) → filter P l = filter Q l.
Proof.
  induction l as [|x l IH]; intros Hl; [done|].
  rewrite !filter_cons.
  rewrite IH by (intros y Hy; apply Hl; by right).
  destruct (decide (P x)) as [HP|HP], (decide (Q x)) as [HQ|HQ]; try done;
    exfalso; [apply HQ|apply HP]; apply (Hl x); by (left || done).
Qed.

Lemma shutdown_node_other st i j :
  i ≠ j → node_at (shutdown_node st i) j = node_at st j.
Proof.
  intros Hij. unfold shutdown_node. rewrite !node_at_update_node_ne by done.
  by case_decide.
Qed.

Lemma shutdown_node_sent st i :
  sent (shutdown_node st i) =
    sent st ++ map (λ i, (i, shutdown_request))
                   (filter (λ i, socket_fd_out (node_at st i) ≠ -1) [i]).
Proof.
  unfold shutdown_node. rewrite filter_cons, filter_nil. simpl.
  case_decide; simpl; [done|]. by rewrite app_nil_r.
Qed.

Lemma foldl_shutdown_node_sent l : ∀ st,
  NoDup l →
  sent (foldl shutdown_node st l) =
    sent st ++ map (λ i, (i, shutdown_request))
                   (filter (λ i, socket_fd_out (node_at st i) ≠ -1) l).
Proof.
  induction l as [|i l IH]; intros st Hnd.
  { simpl. by rewrite app_nil_r. }
  apply NoDup_cons in Hnd as [Hi Hnd]. simpl foldl.
  rewrite IH by done. rewrite shutdown_node_sent, <- app_assoc, <- map_app.
  do 2 f_equal. change (i :: l) with ([i] ++ l). rewrite filter_app. f_equal.
  apply filter_local_ext. intros j Hj.
  rewrite shutdown_node_other; [done|]. intros ->. done.
Qed.

(** X10: [cleanup] sends SHUTDOWN to exactly the servers whose outbound
    socket is open, in order of index, sends nothing else, and leaves no
    table behind. *)
Theorem cleanup_sends_shutdown st :
  sent (cleanup st) =
    sent st ++ map (λ i, (i, shutdown_request))
                   (filter (λ i, socket_fd_out (node_at st i) ≠ -1)
                           (seqZ 0 (num_servers st))) ∧
  server_nodes (cleanup st) = ∅.
Proof.
  split; [|done].
  unfold cleanup. simpl. apply foldl_shutdown_node_sent, NoDup_seqZ.
Qed.

(** ** A start-up that fails *)

Lemma spawn_all_app e l1 : ∀ l2 st,
  spawn_all e (l1 ++ l2) st =
    if (spawn_all e l1 st).2 then spawn_all e l2 (spawn_all e l1 st).1
    else ((spawn_all e l1 st).1, false).
Proof.
  induction l1 as [|i l1 IH]; intros l2 st; [done|]. simpl.
  destruct (spawn_server e i st) as [st1 ok]. destruct ok; [apply IH|done].
Qed.

Lemma spawn_all_complete e ids : ∀ st,
  (∀ i, i ∈ ids → ∃ fd_in fd_out, spawn e i = Spawned fd_in fd_out) →
  ∃ st', spawn_all e ids st = (st', true).
Proof.
  induction ids as [|i ids IH]; intros st Hids; [by eexists|]. simpl.
  pose proof (proj2 (spawn_server_ok e i st) (Hids i (list_elem_of_here _ _))) as Hok.
  destruct (spawn_server e i st) as [st1 ok]; simpl in *. subst ok.
  apply IH. intros j Hj. apply Hids. by right.
Qed.

Lemma filter_all {A} (P : A → Prop) `{!∀ x, Decision (P x)} (l : list A) :
  (∀ x, x ∈ l → P x) → filter P l = l.
Proof.
  induction l as [|x l IH]; intros Hl; [done|].
  rewrite filter_cons, decide_True by (apply Hl; by left).
  rewrite IH; [done|]. intros y Hy. apply Hl. by right.
Qed.

Lemma filter_none {A} (P : A → Prop) `{!∀ x, Decision (P x)} (l : list A) :
  (∀ x, x ∈ l → ¬ P x) → filter P l = [].
Proof.
  induction l as [|x l IH]; intros Hl; [done|].
  rewrite filter_cons, decide_False by (apply Hl; by left).
  apply IH. intros y Hy. apply Hl. by right.
Qed.

(** X11: no server is left behind by a start-up that fails.  When the host
    name is found, the servers' socket is created, the
    servers below index [k] start, each with an open outbound socket, and
    server [k] cannot be started, [init_mserver] returns [false] having sent
    SHUTDOWN to each of the servers below [k] and to no other, and nothing
    else; the table is freed. *)
Theorem init_mserver_spawn_failure clients_fd_ok e st k :
  well_formed st →
  (∀ i, 0 ≤ i < num_servers st → socket_fd_out (node_at st i) = -1) →
  0 ≤ k < num_servers st →
  (∀ i, 0 ≤ i < k → ∃ fd_in fd_out, spawn e i = Spawned fd_in fd_out ∧ fd_out ≠ -1) →
  spawn_fails e k →
  let r := init_mserver true true clients_fd_ok e st in
  r.2 = false ∧
  sent r.1 = sent st ++ map (λ i, (i, shutdown_request)) (seqZ 0 k) ∧
  server_nodes r.1 = ∅.
Proof.
  intros [H3 Hwf] Hclosed Hk Hbelow Hfail r.
  (* the first loop stops at [k] *)
  destruct (spawn_all_complete e (seqZ 0 k) st) as [st1 Hst1].
  { intros i Hi. apply elem_of_seqZ in Hi.
    destruct (Hbelow i) as (fi & fo & Hsp & _); [lia|]. eauto. }
  pose proof Hst1 as Hst1'.
  apply spawn_all_success in Hst1' as (Hs1 & HN1 & Ht1 & Ho1 & Hi1);
    [|apply NoDup_seqZ|intros i Hi; apply Hwf; apply elem_of_seqZ in Hi; lia].
  assert ((spawn_server e k st1).2 = false) as Hkfail.
  { apply not_true_is_false. rewrite spawn_server_ok.
    intros (fi & fo & Hsp). by apply (Hfail fi fo). }
  assert (init_servers e st = ((spawn_server e k st1).1, false)) as Hinit.
  { unfold init_servers.
    replace (num_servers st) with (k + (1 + (num_servers st - k - 1))) by lia.
    rewrite seqZ_app by lia. rewrite (seqZ_cons (0 + k)) by lia.
    rewrite spawn_all_app, Hst1. simpl. rewrite Z.add_0_l.
    destruct (spawn_server e k st1) as [st2 ok]; simpl in *. by subst ok. }
  set (st2 := (spawn_server e k st1).1) in *.
  assert (r = (cleanup st2, false)) as Hr.
  { unfold r, init_mserver. simpl. by rewrite Hinit. }
  assert (num_servers st2 = num_servers st) as HN2
    by (unfold st2; by rewrite spawn_server_num_servers).
  assert (sent st2 = sent st) as Hs2 by (unfold st2; by rewrite spawn_server_sent).
  (* the outbound sockets after it *)
  assert (∀ i, i ∈ seqZ 0 (num_servers st) →
               socket_fd_out (node_at st2 i) ≠ -1 ↔ i < k) as Hout.
  { intros i Hi. apply elem_of_seqZ in Hi.
    destruct (decide (i = k)) as [->|Hik].
    - unfold st2. rewrite spawn_server_self by (apply Ht1, Hwf; lia).
      split; [|lia]. intros Hopen. exfalso. apply Hopen.
      destruct (spawn e k) as [| | |fi fo] eqn:Hsp; try done. by destruct (Hfail fi fo).
    - unfold st2. rewrite spawn_server_other by done.
      destruct (decide (i < k)) as [Hlt|Hge].
      + destruct (Hi1 i) as (fi & fo & Hsp & ->); [apply elem_of_seqZ; lia|].
        destruct (Hbelow i) as (fi' & fo' & Hsp' & Hopen); [lia|].
        simpl. split; [done|]. intros _. congruence.
      + rewrite Ho1 by (rewrite elem_of_seqZ; lia).
        rewrite Hclosed by lia. split; [done|lia]. }
  rewrite Hr. simpl. split; [done|]. split; [|done].
  rewrite foldl_shutdown_node_sent by apply NoDup_seqZ.
  rewrite Hs2, HN2. do 2 f_equal.
  rewrite (filter_local_ext _ (λ i, i < k) _ Hout).
  replace (num_servers st) with (k + (num_servers st - k)) by lia.
  rewrite seqZ_app, filter_app by lia.
  rewrite filter_all by (intros i Hi; apply elem_of_seqZ in Hi; lia).
  rewrite filter_none by (intros i Hi; apply elem_of_seqZ in Hi; lia).
  apply app_nil_r.
Qed.

(** ** Program arguments *)

Lemma parse_options_facts os : ∀ a a',
  parse_options a os = Some a' →
  (Opt_invalid ∉ os) ∧
  server_timeout a' = last_timeout (server_timeout a) os ∧
  (0 ≤ MServer.clients_port a < 65536 → 0 ≤ MServer.clients_port a' < 65536) ∧
  (0 ≤ MServer.servers_port a < 65536 → 0 ≤ MServer.servers_port a' < 65536).
Proof.
  induction os as [|o os IH]; intros a a' Hparse.
  { simpl in Hparse. simplify_eq. split; [apply not_elem_of_nil|done]. }
  simpl in Hparse. destruct (parse_option a o) as [a1|] eqn:Ho; [|done].
  apply IH in Hparse as (Hinv & Ht & Hc & Hs).
  assert (0 < 65536) as Hpos by lia.
  destruct o; simpl in Ho; simplify_eq; simpl in *;
    (split; [rewrite not_elem_of_cons; split; [done|done]|]);
    (split; [done|]); split; intros Hr;
    first [apply Hc | apply Hs]; first [done | by apply Z.mod_pos_bound].
Qed.

(** X12: the arguments [parse_args] of the coordinator accepts contain no
    invalid option; both ports are between 1 and 65535 and the configuration
    file is named; the timeout is the value of the last [-t], or 3 when
    there is none or when it is 0, and so never 0. *)
Theorem parse_args_accepted os a :
  parse_args os = Some a →
  (Opt_invalid ∉ os) ∧
  1 ≤ MServer.clients_port a ≤ 65535 ∧
  1 ≤ MServer.servers_port a ≤ 65535 ∧
  cfg_file_name a ≠ "" ∧
  server_timeout a = (if last_timeout 0 os =? 0 then 3 else last_timeout 0 os) ∧
  server_timeout a ≠ 0.
Proof.
  unfold parse_args. intros Hparse.
  destruct (parse_options args_init os) as [a0|] eqn:Hos; [|done].
  apply parse_options_facts in Hos as (Hinv & Ht & Hc & Hs).
  simpl in Ht, Hc, Hs. specialize (Hc ltac:(lia)). specialize (Hs ltac:(lia)).
  simpl in Hparse.
  destruct (MServer.clients_port a0 =? 0) eqn:Hc0; [done|].
  destruct (MServer.servers_port a0 =? 0) eqn:Hs0; [done|].
  destruct (String.eqb (cfg_file_name a0) "") eqn:Hf0; [done|].
  simpl in Hparse. simplify_eq. simpl.
  apply Z.eqb_neq in Hc0, Hs0. apply String.eqb_neq in Hf0.
  rewrite <- Ht. unfold default_server_timeout.
  repeat split; try done; try lia.
  destruct (server_timeout a0 =? 0) eqn:Ht0; [done|]. by apply Z.eqb_neq.
Qed.

End StartUp.

(** * Requests at the key-value server *)

Section ServerRequests.

Import Server.

Variable hash_key : string → Z.

Lemma table_of_set_table_other r r' t s :
  r ≠ r' → table_of r' (set_table r t s) = table_of r' s.
Proof. by destruct r, r'. Qed.

Lemma control_state_set_table r t s : control_state (set_table r t s) = control_state s.
Proof. by destruct r. Qed.

Lemma invalid_client_key_control s s' k :
  control_state s' = control_state s →
  invalid_client_key hash_key s' k = invalid_client_key hash_key s k.
Proof.
  unfold control_state, invalid_client_key. intros Hc.
  injection Hc as H1 H2 H3 H4 H5 H6 H7. by rewrite H1, H2, H3.
Qed.

Lemma client_table_control s s' k :
  control_state s' = control_state s →
  client_table hash_key s' k = client_table hash_key s k.
Proof.
  unfold control_state, client_table, secondary_as_primary. intros Hc.
  injection Hc as H1 H2 H3 H4 H5 H6 H7. by rewrite H1, H2, H3.
Qed.

(** X13: a client request never touches anything but the one entry it
    names: the server's id, state and descriptors stay as they are, every
    other key keeps its value in both tables, and a request that is not a
    PUT changes nothing at all. *)
Theorem client_request_frame e request s :
  let s' := cr_server (process_client_message hash_key e request s) in
  control_state s' = control_state s ∧
  (∀ r k, request = Some r → k ≠ op_key r →
          primary_hash s' !! k = primary_hash s !! k ∧
          secondary_hash s' !! k = secondary_hash s !! k) ∧
  (∀ r, request = Some r →
        table_of (match client_table hash_key s (op_key r) with
                  | PrimaryHash => SecondaryHash
                  | SecondaryHash => PrimaryHash
                  end) s' =
        table_of (match client_table hash_key s (op_key r) with
                  | PrimaryHash => SecondaryHash
                  | SecondaryHash => PrimaryHash
                  end) s) ∧
  (∀ r, request = Some r → op r ≠ OP_PUT → s' = s).
Proof.
  cbv zeta.
  assert (∀ r, s = s →
            control_state s = control_state s ∧
            (∀ r0 k, Some r = Some r0 → k ≠ op_key r0 →
                     primary_hash s !! k = primary_hash s !! k ∧
                     secondary_hash s !! k = secondary_hash s !! k) ∧
            (∀ r0, Some r = Some r0 →
                   table_of (match client_table hash_key s (op_key r0) with
                             | PrimaryHash => SecondaryHash
                             | SecondaryHash => PrimaryHash
                             end) s =
                   table_of (match client_table hash_key s (op_key r0) with
                             | PrimaryHash => SecondaryHash
                             | SecondaryHash => PrimaryHash
                             end) s) ∧
            (∀ r0, Some r = Some r0 → op r0 ≠ OP_PUT → s = s)) as Hsame.
  { intros r _. split; [done|]. split; [done|]. split; done. }
  destruct request as [r|].
  2: { simpl. split; [done|]. split; [intros ?? [=]|]. split; intros ? [=]. }
  unfold process_client_message.
  destruct (invalid_client_key hash_key s (op_key r)); [by apply Hsame|].
  destruct (op r) eqn:Hop; simpl.
  - by apply Hsame.
  - unfold hash_get. destruct (table_of _ s !! op_key r); by apply Hsame.
  - destruct (malloc_ok e); simpl; [|by apply Hsame].
    unfold hash_put. destruct (hash_put_ok e); [|by apply Hsame].
    set (t := client_table hash_key s (op_key r)).
    set (s1 := set_table t _ s).
    match goal with
    | |- context [cr_server ?x] => assert (cr_server x = s1) as ->
    end.
    { destruct (fd_is_valid e _); [|done].
      destruct (forward_reply e) as [st|]; [|done]. by destruct (decide (st ≠ SUCCESS)). }
    split; [apply control_state_set_table|]. split; [|split].
    + intros r' k Hr Hk. simplify_eq. unfold s1.
      destruct t; simpl; by rewrite lookup_insert_ne.
    + intros r' Hr. simplify_eq. fold t. unfold s1. by destruct t.
    + intros r' Hr Hnot. by simplify_eq.
  - by apply Hsame.
Qed.

(** X14: a PUT is acknowledged without any replica when the descriptor of
    the partner is not valid, as it is from the start of a server until
    SET_SECONDARY arrives: the value is stored, nothing is forwarded, and
    the client is answered SUCCESS. *)
Theorem put_without_partner e s k v :
  invalid_client_key hash_key s k = false →
  malloc_ok e = true → hash_put_ok e = true →
  fd_is_valid e (if secondary_as_primary hash_key s k then primary_fd s else secondary_fd s)
    = false →
  let res := process_client_message hash_key e (Some (OpReq OP_PUT k v)) s in
  cr_forwarded res = None ∧
  cr_reply res = Some (OpResp SUCCESS "") ∧
  table_of (client_table hash_key s k) (cr_server res) !! k = Some v.
Proof.
  intros Hkey Hm Hp Hfd res. unfold res, process_client_message; simpl.
  rewrite Hkey, Hm; simpl. unfold hash_put. rewrite Hp.
  rewrite secondary_as_primary_set_table.
  set (t := client_table hash_key s k).
  assert ((if secondary_as_primary hash_key s k
           then primary_fd (set_table t (<[k:=v]> (table_of t s)) s)
           else secondary_fd (set_table t (<[k:=v]> (table_of t s)) s))
          = (if secondary_as_primary hash_key s k then primary_fd s else secondary_fd s)) as ->.
  { by destruct t, (secondary_as_primary hash_key s k). }
  rewrite Hfd. simpl. split; [done|]. split; [done|].
  by rewrite table_of_set_table, lookup_insert_eq.
Qed.

(** X15: what a PUT has stored a GET gives back, as long as the server's
    id, state and descriptors are what the PUT left and the entry has not
    been written since.  When the client was answered SUCCESS for
    PUT(k, v), a GET of [k] in any such later state of the same server is
    answered SUCCESS with [v], whatever the environment answers during the
    GET.  (A change of state in between, as when the streaming thread puts
    the server back ONLINE, is not covered.) *)
Theorem put_then_get e1 e2 s s'' k v v' :
  cr_reply (process_client_message hash_key e1 (Some (OpReq OP_PUT k v)) s)
    = Some (OpResp SUCCESS "") →
  let s' := cr_server (process_client_message hash_key e1 (Some (OpReq OP_PUT k v)) s) in
  control_state s'' = control_state s' →
  table_of (client_table hash_key s' k) s'' !! k = table_of (client_table hash_key s' k) s' !! k →
  table_of (client_table hash_key s' k) s' !! k = Some v ∧
  process_client_message hash_key e2 (Some (OpReq OP_GET k v')) s''
    = ClientResult s'' None (Some (OpResp SUCCESS v)).
Proof.
  intros Hput s' Hc'' Hentry.
  assert (invalid_client_key hash_key s k = false ∧
          s' = set_table (client_table hash_key s k)
                 (<[k:=v]> (table_of (client_table hash_key s k) s)) s) as [Hkey Hs'].
  { unfold s'. unfold process_client_message in *; simpl in *.
    destruct (invalid_client_key hash_key s k); [done|].
    destruct (malloc_ok e1); simpl in *; [|done].
    unfold hash_put in *. destruct (hash_put_ok e1); [|done].
    destruct (fd_is_valid e1 _); [|done].
    destruct (forward_reply e1) as [st|]; [|done].
    by destruct (decide (st ≠ SUCCESS)). }
  assert (control_state s' = control_state s) as Hc
    by (rewrite Hs'; apply control_state_set_table).
  assert (table_of (client_table hash_key s' k) s' !! k = Some v) as Hstored.
  { rewrite (client_table_control _ _ _ Hc).
    rewrite Hs' at 1. by rewrite table_of_set_table, lookup_insert_eq. }
  split; [done|].
  unfold process_client_message; simpl.
  rewrite (invalid_client_key_control _ _ _ Hc''), (invalid_client_key_control _ _ _ Hc), Hkey.
  rewrite (client_table_control _ _ _ Hc''). unfold hash_get.
  by rewrite Hentry, Hstored.
Qed.

End ServerRequests.

(** * Replication between servers *)

Section Replication.

Import Server.

Variable hash_key : string → Z.

#[local] Instance holds_key_dec s k : Decision (holds_key hash_key s k).
Proof. unfold holds_key. apply _. Defined.

(** A PUT from a peer when memory is available. *)
Lemma process_server_message_put e d k v :
  malloc_ok e = true → hash_put_ok e = true →
  process_server_message hash_key e (Some (OpReq OP_PUT k v)) d =
    if decide (holds_key hash_key d k)
    then (set_table (peer_table hash_key d k)
            (<[k:=v]> (table_of (peer_table hash_key d k) d)) d,
          Some (OpResp SUCCESS ""), true)
    else (d, Some (OpResp SERVER_FAILURE ""), true).
Proof.
  intros Hm Hp. unfold process_server_message, holds_key, peer_table; simpl.
  rewrite Hm; simpl. unfold hash_put. rewrite Hp.
  destruct (decide (server_id d = key_server_id hash_key k (num_servers d))) as [Ho|Ho].
  - rewrite bool_decide_eq_false_2 by (intros ?; done). simpl.
    by rewrite decide_True by (by left).
  - rewrite bool_decide_eq_true_2 by done. simpl.
    case_bool_decide as Hs; simpl.
    + rewrite decide_False; [done|]. intros [?|?]; done.
    + by rewrite decide_True by (by right).
Qed.

(** X16: a PUT from a peer is answered SUCCESS exactly when memory for the
    value and the entry is found and the server is the owner of the key or
    the secondary of its owner.  It is then stored in the primary table of
    the owner, in the secondary table otherwise, and in every other case the
    server is left as it was; the connection is kept either way. *)
Theorem peer_put_outcome e d k v :
  let r := process_server_message hash_key e (Some (OpReq OP_PUT k v)) d in
  r.2 = true ∧
  (r.1.2 = Some (OpResp SUCCESS "") ↔
     malloc_ok e = true ∧ hash_put_ok e = true ∧ holds_key hash_key d k) ∧
  (r.1.2 = Some (OpResp SUCCESS "") →
     r.1.1 = set_table (peer_table hash_key d k)
               (<[k:=v]> (table_of (peer_table hash_key d k) d)) d) ∧
  (r.1.2 ≠ Some (OpResp SUCCESS "") → r.1.1 = d).
Proof.
  cbv zeta. destruct (malloc_ok e) eqn:Hm.
  - destruct (hash_put_ok e) eqn:Hp.
    + rewrite process_server_message_put by done.
      case_decide; simpl; repeat split; try done; tauto.
    + unfold process_server_message; simpl. rewrite Hm; simpl.
      unfold hash_put. rewrite Hp.
      case_match; simpl; repeat split; try done; intros (? & ? & ?); done.
  - unfold process_server_message; simpl. rewrite Hm; simpl.
    repeat split; try done. intros (? & ? & ?); done.
Qed.

(** X17: a PUT at the owner of a key, forwarded to the owner's secondary and
    handled there.  The client is answered SUCCESS exactly when both servers
    find the memory they need; and whenever it is answered SUCCESS, the
    primary table of the owner and the secondary table of its partner both
    hold the new value, and the request forwarded is the client's. *)
Theorem replicated_put e1 e2 s1 s2 k v :
  valid_ids s1 →
  key_server_id hash_key k (num_servers s1) = server_id s1 →
  num_servers s2 = num_servers s1 →
  server_id s2 = secondary_server_id (server_id s1) (num_servers s1) →
  fd_is_valid e1 (secondary_fd s1) = true →
  let partner := process_server_message hash_key e2 (Some (OpReq OP_PUT k v)) s2 in
  forward_reply e1 = status <$> partner.1.2 →
  let res := process_client_message hash_key e1 (Some (OpReq OP_PUT k v)) s1 in
  (cr_reply res = Some (OpResp SUCCESS "") ↔
     malloc_ok e1 = true ∧ hash_put_ok e1 = true ∧
     malloc_ok e2 = true ∧ hash_put_ok e2 = true) ∧
  (cr_reply res = Some (OpResp SUCCESS "") →
     cr_forwarded res = Some (secondary_fd s1, OpReq OP_PUT k v) ∧
     primary_hash (cr_server res) !! k = Some v ∧
     secondary_hash partner.1.1 !! k = Some v).
Proof.
  intros Hids Hown HN Hsec Hfd partner Hfwd res.
  assert (secondary_as_primary hash_key s1 k = false) as Hsap
    by (by apply secondary_as_primary_owner).
  assert (invalid_client_key hash_key s1 k = false) as Hkey.
  { apply not_true_is_false. rewrite invalid_client_key_spec. tauto. }
  assert (holds_key hash_key s2 k) as Hholds.
  { right. by rewrite HN, Hown. }
  assert (peer_table hash_key s2 k = SecondaryHash) as Hpt.
  { unfold peer_table. rewrite decide_False; [done|].
    rewrite HN, Hown, Hsec. destruct Hids as [H3 Hid].
    apply secondary_server_id_neq; lia. }
  (* the partner's answer *)
  assert (status <$> partner.1.2 =
          Some (if malloc_ok e2 && hash_put_ok e2 then SUCCESS else OUT_OF_SPACE) ∧
          (malloc_ok e2 && hash_put_ok e2 = true → secondary_hash partner.1.1 !! k = Some v))
    as [Hstatus Hstored].
  { unfold partner. destruct (malloc_ok e2) eqn:Hm2.
    - destruct (hash_put_ok e2) eqn:Hp2.
      + rewrite process_server_message_put by done.
        rewrite decide_True by done. simpl. split; [done|]. intros _.
        rewrite Hpt. simpl. apply lookup_insert_eq.
      + unfold process_server_message; simpl. rewrite Hm2; simpl.
        rewrite (bool_decide_eq_false_2 (server_id s2 ≠ secondary_server_id _ _))
          by (intros Hne; apply Hne; by rewrite HN, Hown).
        rewrite andb_false_r. unfold hash_put. by rewrite Hp2.
    - unfold process_server_message; simpl. by rewrite Hm2. }
  rewrite Hstatus in Hfwd.
  (* the owner *)
  unfold res, process_client_message; simpl. rewrite Hkey.
  destruct (malloc_ok e1); simpl;
    [|split; [split; [done|by intros (? & ? & ? & ?)]|done]].
  unfold hash_put. destruct (hash_put_ok e1);
    [|split; [split; [done|by intros (? & ? & ? & ?)]|done]].
  unfold client_table. rewrite secondary_as_primary_set_table, Hsap. simpl.
  rewrite Hfd, Hfwd.
  destruct (malloc_ok e2), (hash_put_ok e2); simpl;
    (split; [split; [try done|try by intros (? & ? & ? & ?)]|]); try done.
  intros _. split; [done|]. split; [apply lookup_insert_eq|by apply Hstored].
Qed.

(** ** Streaming a table to the replacement *)

Lemma stream_requests_entries s (l : list (string * string)) fd q :
  stream_requests (map (send_table_iterator_f s) l ++ [(fd, PktMCtrl q)]) =
    map (λ entry : string * string, OpReq OP_PUT entry.1 (strncpy entry.2)) l.
Proof.
  unfold stream_requests. induction l as [|x l IH]; [done|].
  simpl. by rewrite <- IH.
Qed.

Lemma holds_key_control d d' k :
  control_state d' = control_state d →
  (holds_key hash_key d' k ↔ holds_key hash_key d k) ∧
  peer_table hash_key d' k = peer_table hash_key d k.
Proof.
  unfold control_state, holds_key, peer_table. intros Hc.
  injection Hc as H1 H2 H3 H4 H5 H6 H7. by rewrite H1, H2.
Qed.

Lemma receive_all_cons e r rs d :
  receive_all hash_key e (r :: rs) d =
    receive_all hash_key e rs (process_server_message hash_key e (Some r) d).1.1.
Proof. done. Qed.

(** A server that receives one PUT per entry of [l], no key twice. *)
Lemma receive_entries e l : ∀ d,
  malloc_ok e = true → hash_put_ok e = true →
  NoDup l.*1 →
  let d' := receive_all hash_key e
              (map (λ entry : string * string, OpReq OP_PUT entry.1 (strncpy entry.2)) l) d in
  control_state d' = control_state d ∧
  (∀ k v, (k, v) ∈ l → holds_key hash_key d k →
          table_of (peer_table hash_key d k) d' !! k = Some (strncpy v)) ∧
  (∀ k, k ∉ l.*1 → primary_hash d' !! k = primary_hash d !! k ∧
                    secondary_hash d' !! k = secondary_hash d !! k).
Proof.
  induction l as [|[k0 v0] l IH]; intros d Hm Hp Hnd.
  { simpl. split; [done|]. split; [|done]. intros k v Hin. by apply elem_of_nil in Hin. }
  simpl in Hnd. apply NoDup_cons in Hnd as [Hk0 Hnd].
  cbv zeta. rewrite map_cons, receive_all_cons. cbn [fst snd].
  rewrite process_server_message_put by done.
  set (d1 := (if decide (holds_key hash_key d k0)
              then (set_table (peer_table hash_key d k0)
                      (<[k0:=strncpy v0]> (table_of (peer_table hash_key d k0) d)) d,
                    Some (OpResp SUCCESS ""), true)
              else (d, Some (OpResp SERVER_FAILURE ""), true)).1.1).
  assert (control_state d1 = control_state d) as Hc1.
  { unfold d1. case_decide; simpl; [apply control_state_set_table|done]. }
  destruct (IH d1 Hm Hp Hnd) as (Hc & Hin & Hout).
  split; [congruence|]. split.
  - intros k v Hkv Hholds. apply elem_of_cons in Hkv as [Heq|Hkv].
    + injection Heq as -> ->.
      destruct (Hout k0 Hk0) as [Hpr Hse].
      assert (table_of (peer_table hash_key d k0) d1 !! k0 = Some (strncpy v0)) as Hd1.
      { unfold d1. rewrite decide_True by done. simpl.
        by rewrite table_of_set_table, lookup_insert_eq. }
      rewrite <- Hd1. by destruct (peer_table hash_key d k0).
    + destruct (holds_key_control d d1 k Hc1) as [Hh Hpt].
      rewrite <- Hpt. apply Hin; [done|]. by apply Hh.
  - intros k Hk. apply not_elem_of_cons in Hk as [Hne Hk].
    destruct (Hout k Hk) as [-> ->].
    unfold d1. case_decide; simpl; [|done].
    destruct (peer_table hash_key d k0); simpl; by rewrite lookup_insert_ne.
Qed.

(** ** Values on their way to the replacement *)

Lemma until_nul_no_nul v : no_nul v → until_nul v = v.
Proof.
  induction v as [|c v IH]; [done|]. intros [Hc Hv]. simpl.
  destruct (Ascii.eqb c Ascii.zero) eqn:Heq.
  - apply Ascii.eqb_eq in Heq. done.
  - by rewrite IH.
Qed.

Lemma string_append_cons c (a b : string) :
  String.append (String c a) b = String c (String.append a b).
Proof. done. Qed.

Lemma string_append_nil_r (v : string) : String.append v EmptyString = v.
Proof.
  induction v as [|c v IH]; [done|]. by rewrite string_append_cons, IH.
Qed.

Lemma string_length_append (a b : string) :
  String.length (String.append a b) = (String.length a + String.length b)%nat.
Proof.
  induction a as [|c a IH]; [done|]. rewrite string_append_cons. simpl. by rewrite IH.
Qed.

Lemma length_nuls n : String.length (nuls n) = n.
Proof. induction n as [|n IH]; [done|]. simpl. by rewrite IH. Qed.

Lemma length_until_nul v : (String.length (until_nul v) ≤ String.length v)%nat.
Proof.
  induction v as [|c v IH]; [done|]. simpl.
  destruct (Ascii.eqb c Ascii.zero); simpl; lia.
Qed.

Lemma until_nul_append a b :
  no_nul a → until_nul (String.append a (String Ascii.zero b)) = a.
Proof.
  induction a as [|c a IH]; intros Ha.
  - done.
  - destruct Ha as [Hc Ha]. rewrite string_append_cons. simpl.
    destruct (Ascii.eqb c Ascii.zero) eqn:Heq.
    + apply Ascii.eqb_eq in Heq. done.
    + by rewrite IH.
Qed.

Lemma until_nul_no_nul_strncpy v : no_nul v → strncpy v = v.
Proof.
  intros Hv. unfold strncpy. rewrite until_nul_no_nul by done.
  rewrite Nat.sub_diag. apply string_append_nil_r.
Qed.

(** X18: what [strncpy] makes of a stored value on its way to the
    replacement.  The length is kept, and a value without a NUL byte is sent
    as it is; of a value with a NUL byte only the part before the first NUL
    is sent, the rest being replaced by NUL bytes. *)
Theorem strncpy_value :
  (∀ v, String.length (strncpy v) = String.length v) ∧
  (∀ v, no_nul v → strncpy v = v) ∧
  (∀ a b, no_nul a →
          strncpy (String.append a (String Ascii.zero b)) =
          String.append a (nuls (S (String.length b)))).
Proof.
  split; [|split].
  - intros v. unfold strncpy. rewrite string_length_append, length_nuls.
    pose proof (length_until_nul v). lia.
  - intros v Hv. unfold strncpy. rewrite until_nul_no_nul by done.
    rewrite Nat.sub_diag. apply string_append_nil_r.
  - intros a b Ha. unfold strncpy. rewrite until_nul_append by done.
    rewrite string_length_append. simpl.
    by replace (String.length a + S (String.length b) - String.length a)%nat
      with (S (String.length b)) by lia.
Qed.

(** X19: the stream of recovery puts the entries where they belong.  When
    the replacement handles, with memory available, the requests a surviving
    server's streaming task writes, every entry of the streamed table whose
    key the replacement owns ends in the replacement's primary table, and
    every entry whose key it is the secondary for in its secondary table,
    with the value [strncpy] makes of it (the value itself when it has no
    NUL byte); keys that were not streamed keep what they had, and the
    replacement's id, state and descriptors are not touched. *)
Theorem stream_restores e s d :
  malloc_ok e = true → hash_put_ok e = true →
  let table := if send_primary s then primary_hash s else secondary_hash s in
  let d' := receive_all hash_key e (stream_requests (send_table_task s).2) d in
  control_state d' = control_state d ∧
  (∀ k v, table !! k = Some v → holds_key hash_key d k →
          table_of (peer_table hash_key d k) d' !! k = Some (strncpy v) ∧
          (no_nul v → table_of (peer_table hash_key d k) d' !! k = Some v)) ∧
  (∀ k, table !! k = None →
        primary_hash d' !! k = primary_hash d !! k ∧
        secondary_hash d' !! k = secondary_hash d !! k).
Proof.
  intros Hm Hp table d'.
  assert (d' = receive_all hash_key e
                 (map (λ entry : string * string, OpReq OP_PUT entry.1 (strncpy entry.2))
                      (map_to_list table)) d) as ->.
  { unfold d', send_table_task, hash_iterate. simpl. fold table.
    by rewrite stream_requests_entries. }
  destruct (receive_entries e (map_to_list table) d Hm Hp) as (Hc & Hin & Hout).
  { apply NoDup_fst_map_to_list. }
  split; [done|]. split.
  - intros k v Hkv Hholds.
    assert (table_of (peer_table hash_key d k)
              (receive_all hash_key e
                 (map (λ entry : string * string, OpReq OP_PUT entry.1 (strncpy entry.2))
                      (map_to_list table)) d) !! k = Some (strncpy v)) as Hk.
    { apply Hin; [|done]. by apply elem_of_map_to_list. }
    split; [done|]. intros Hv. rewrite Hk.
    by rewrite until_nul_no_nul_strncpy.
  - intros k Hk. apply Hout. intros Hin'.
    apply list_elem_of_fmap in Hin' as ([k' v] & -> & Hkv).
    apply elem_of_map_to_list in Hkv. simpl in Hk. congruence.
Qed.

End Replication.

(** * The coordinator's commands at the server *)

Section ServerCommands.

Import Server.

Variable hash_key : string → Z.

(** What the client handler can do to the globals: nothing, or store the
    value of a PUT in the table of its key. *)
Lemma process_client_message_server e request s :
  cr_server (process_client_message hash_key e request s) = s ∨
  ∃ r, request = Some r ∧ op r = OP_PUT ∧
       invalid_client_key hash_key s (op_key r) = false ∧
       cr_server (process_client_message hash_key e request s) =
         set_table (client_table hash_key s (op_key r))
           (<[op_key r := op_value r]> (table_of (client_table hash_key s (op_key r)) s)) s.
Proof.
  destruct request as [r|]; [|by left].
  unfold process_client_message.
  destruct (invalid_client_key hash_key s (op_key r)) eqn:Hkey; [by left|].
  destruct (op r) eqn:Hop; simpl; [by left| |  |by left].
  - unfold hash_get. destruct (table_of _ s !! op_key r); by left.
  - destruct (malloc_ok e); simpl; [|by left].
    unfold hash_put. destruct (hash_put_ok e); [|by left].
    right. exists r. split; [done|]. split; [done|]. split; [done|].
    destruct (fd_is_valid e _); [|done].
    destruct (forward_reply e) as [st|]; [|done]. by destruct (decide (st ≠ SUCCESS)).
Qed.

Lemma process_client_message_control e request s :
  control_state (cr_server (process_client_message hash_key e request s)) = control_state s.
Proof.
  destruct (process_client_message_server e request s) as [->|(r & _ & _ & _ & ->)];
    [done|apply control_state_set_table].
Qed.

(** While the server is switching, the client handler refuses the keys of
    other servers and writes nothing to the secondary table. *)
Lemma process_client_message_switching e request s :
  state s = KV_SWITCHING_PRIMARY →
  secondary_hash (cr_server (process_client_message hash_key e request s)) = secondary_hash s ∧
  ∀ r, request = Some r →
       key_server_id hash_key (op_key r) (num_servers s) ≠ server_id s →
       process_client_message hash_key e request s =
         ClientResult s None (Some (OpResp SERVER_FAILURE "")).
Proof.
  intros Hst. split.
  - destruct (process_client_message_server e request s) as [->|(r & _ & _ & _ & ->)];
      [done|].
    unfold client_table, secondary_as_primary. rewrite Hst.
    rewrite bool_decide_eq_false_2 by done. done.
  - intros r -> Hown. unfold process_client_message, invalid_client_key.
    rewrite Hst. rewrite (bool_decide_eq_true_2 (_ ≠ KV_UPDATING_PRIMARY)) by done.
    by rewrite (bool_decide_eq_true_2 _ Hown).
Qed.

Lemma flush_clients_switching pending : ∀ s,
  state s = KV_SWITCHING_PRIMARY →
  let r := flush_clients hash_key pending s in
  control_state r.1 = control_state s ∧
  secondary_hash r.1 = secondary_hash s ∧
  Forall2 (λ (p : env * option operation_request) (res : client_result),
             ∀ q, p.2 = Some q →
                  key_server_id hash_key (op_key q) (num_servers s) ≠ server_id s →
                  cr_reply res = Some (OpResp SERVER_FAILURE "") ∧
                  cr_forwarded res = None)
          pending r.2.
Proof.
  induction pending as [|[e req] pending IH]; intros s Hst.
  { simpl. split; [done|]. split; [done|]. constructor. }
  cbv zeta. simpl.
  pose proof (process_client_message_control e req s) as Hc.
  destruct (process_client_message_switching e req s Hst) as [Hsec Hrefuse].
  set (res := process_client_message hash_key e req s) in *.
  assert (state (cr_server res) = KV_SWITCHING_PRIMARY) as Hst1.
  { unfold control_state in Hc. injection Hc as _ _ -> _ _ _ _. done. }
  destruct (IH (cr_server res) Hst1) as (Hc' & Hsec' & Hall).
  destruct (flush_clients hash_key pending (cr_server res)) as [s' rs]; simpl in *.
  split; [congruence|]. split; [congruence|]. constructor.
  - simpl. intros q Hq Hown. by rewrite (Hrefuse q Hq Hown).
  - eapply Forall2_impl; [exact Hall|]. simpl. intros p res' Hp q Hq Hown.
    apply (Hp q Hq). unfold control_state in Hc.
    injection Hc as -> -> _ _ _ _ _. done.
Qed.

(** X20: SWITCH_PRIMARY at the server.  The command is always answered with
    success and leaves the server ONLINE with its id and descriptors as they
    were.  Every pending client request is handled on the way, but a request
    for a key the server does not own is answered SERVER_FAILURE and
    forwarded nowhere, and the secondary table is not written: the flush
    applies nothing to the shard the server had been standing in for. *)
Theorem switch_primary_flush e pending host port s :
  let r := process_mserver_message hash_key e pending
             (Some (CtrlReq SWITCH_PRIMARY host port)) s in
  mr_response r = Some CTRLREQ_SUCCESS ∧ mr_return r = true ∧
  mr_shutdown_requested r = false ∧ mr_packets r = [] ∧
  control_state (mr_server r) = control_state (set_state KV_SERVER_ONLINE s) ∧
  secondary_hash (mr_server r) = secondary_hash s ∧
  Forall2 (λ (p : env * option operation_request) (res : client_result),
             ∀ q, p.2 = Some q →
                  key_server_id hash_key (op_key q) (num_servers s) ≠ server_id s →
                  cr_reply res = Some (OpResp SERVER_FAILURE "") ∧
                  cr_forwarded res = None)
          pending (mr_flushed r).
Proof.
  cbv zeta. unfold process_mserver_message. simpl.
  destruct (flush_clients_switching pending (set_state KV_SWITCHING_PRIMARY s) eq_refl)
    as (Hc & Hsec & Hall).
  destruct (flush_clients hash_key pending (set_state KV_SWITCHING_PRIMARY s)) as [s' rs].
  simpl in *. repeat split; try done.
  unfold control_state in *. simpl in *.
  injection Hc as H1 H2 _ H4 H5 H6 H7. by rewrite H1, H2, H4, H5, H6, H7.
Qed.

(** [send_to_replacement] is [start_replacement] followed, when the thread
    starts, by the streaming task. *)
Lemma send_to_replacement_start e host port s :
  send_to_replacement e host port s =
    let '(s1, out, ok) := start_replacement e host port s in
    if ok then let '(s2, out2) := send_table_task s1 in (s2, out2, true)
    else (s1, out, false).
Proof.
  unfold send_to_replacement, start_replacement.
  destruct (connect_to_server e host port <? 0); [done|].
  by destruct (negb (pthread_create_ok e)).
Qed.

(** X21: UPDATE_PRIMARY and UPDATE_SECONDARY at the server.  Neither changes
    a table, and the server is ONLINE again when the command and its
    streaming task are over.  The command is answered with success exactly
    when the connection to the replacement is made and the thread starts;
    the last thing written is then the confirmation to the coordinator, and
    the connection is kept as the primary (UPDATE_PRIMARY) or secondary
    (UPDATE_SECONDARY) descriptor.  Otherwise the only thing written is the
    FAILED message to the coordinator. *)
Theorem update_command_outcome (primary : bool) e pending host port s :
  let t := if primary then UPDATE_PRIMARY else UPDATE_SECONDARY in
  let r := process_mserver_message hash_key e pending (Some (CtrlReq t host port)) s in
  let new_fd := connect_to_server e host port in
  let started := bool_decide (0 ≤ new_fd) && pthread_create_ok e in
  primary_hash (mr_server r) = primary_hash s ∧
  secondary_hash (mr_server r) = secondary_hash s ∧
  state (mr_server r) = KV_SERVER_ONLINE ∧
  send_primary (mr_server r) = negb primary ∧
  mr_return r = true ∧ mr_flushed r = [] ∧
  mr_response r = Some (if started then CTRLREQ_SUCCESS else CTRLREQ_FAILURE) ∧
  (started = true →
     last (mr_packets r) =
       Some (mserver_fd_out s,
             PktMCtrl (MCtrlReq (if primary then UPDATED_PRIMARY else UPDATED_SECONDARY)
                                (server_id s))) ∧
     (if primary then primary_fd (mr_server r) else secondary_fd (mr_server r)) = new_fd) ∧
  (started = false →
     mr_packets r =
       [(mserver_fd_out s,
         PktMCtrl (MCtrlReq (if primary then UPDATE_PRIMARY_FAILED
                             else UPDATE_SECONDARY_FAILED) (server_id s)))]).
Proof.
  cbv zeta. unfold process_mserver_message, send_to_replacement, send_table_task.
  destruct primary; simpl;
    (destruct (connect_to_server e host port <? 0) eqn:Hfd;
     [apply Z.ltb_lt in Hfd; rewrite bool_decide_eq_false_2 by lia; simpl;
      by repeat split
     |apply Z.ltb_ge in Hfd; rewrite bool_decide_eq_true_2 by lia; simpl;
      destruct (pthread_create_ok e); simpl;
      repeat split; try done; intros; by rewrite last_snoc]).
Qed.

(** X22: between the acceptance of UPDATE_PRIMARY and the end of the
    stream the server stands in for the failed primary.  It is then in the
    state KV_UPDATING_PRIMARY with the new connection as [primary_fd] and
    both tables as before; a PUT of a key whose owner it is the secondary of
    is stored in its secondary table and forwarded, when that descriptor is
    valid, on the new connection, and answered SUCCESS when the replacement
    answers SUCCESS; a GET of such a key is answered from the secondary
    table. *)
Theorem interim_primary_serves e host port s e' k v :
  0 ≤ connect_to_server e host port → pthread_create_ok e = true →
  secondary_server_id (key_server_id hash_key k (num_servers s)) (num_servers s)
    = server_id s →
  malloc_ok e' = true → hash_put_ok e' = true →
  let start := start_replacement e host port (set_send_primary false s) in
  let s1 := start.1.1 in
  let new_fd := connect_to_server e host port in
  start.2 = true ∧ start.1.2 = [] ∧
  state s1 = KV_UPDATING_PRIMARY ∧ primary_fd s1 = new_fd ∧
  primary_hash s1 = primary_hash s ∧ secondary_hash s1 = secondary_hash s ∧
  let put := process_client_message hash_key e' (Some (OpReq OP_PUT k v)) s1 in
  secondary_hash (cr_server put) !! k = Some v ∧
  (fd_is_valid e' new_fd = true →
     cr_forwarded put = Some (new_fd, OpReq OP_PUT k v) ∧
     (forward_reply e' = Some SUCCESS → cr_reply put = Some (OpResp SUCCESS ""))) ∧
  process_client_message hash_key e' (Some (OpReq OP_GET k v)) s1 =
    ClientResult s1 None
      (Some (match secondary_hash s !! k with
             | Some data => OpResp SUCCESS data
             | None => OpResp KEY_NOT_FOUND ""
             end)).
Proof.
  intros Hfd Hth Hsec Hm Hp start s1 new_fd.
  assert (start = (set_state KV_UPDATING_PRIMARY
                     (set_primary_fd new_fd (set_send_primary false s)), [], true)) as Hstart.
  { unfold start, start_replacement. fold new_fd.
    destruct (new_fd <? 0) eqn:Hneg; [apply Z.ltb_lt in Hneg; unfold new_fd in *; lia|].
    simpl. by rewrite Hth. }
  unfold s1. rewrite Hstart. simpl. repeat (split; [done|]).
  set (s2 := set_state KV_UPDATING_PRIMARY _).
  assert (secondary_as_primary hash_key s2 k = true) as Hsap.
  { apply secondary_as_primary_spec. by split. }
  assert (invalid_client_key hash_key s2 k = false) as Hkey.
  { apply not_true_is_false. rewrite invalid_client_key_spec.
    intros [_ Hnot]. apply Hnot. by split. }
  unfold process_client_message; simpl. rewrite Hkey.
  unfold client_table. rewrite Hsap, Hm. simpl.
  unfold hash_put. rewrite Hp.
  rewrite (secondary_as_primary_set_table hash_key s2 k SecondaryHash), Hsap.
  simpl. split; [|split].
  - destruct (fd_is_valid e' new_fd); [|apply lookup_insert_eq].
    destruct (forward_reply e') as [st|]; [|apply lookup_insert_eq].
    destruct (decide (st ≠ SUCCESS)); apply lookup_insert_eq.
  - intros ->. destruct (forward_reply e') as [st|]; [|done].
    destruct (decide (st ≠ SUCCESS)) as [Hne|]; [|done].
    split; [done|]. intros [= ->]. done.
  - unfold hash_get. simpl. by destruct (secondary_hash s !! k).
Qed.

(** ** Start-up of the server *)

Lemma server_parse_options_ports os : ∀ a a',
  parse_options a os = Some a' →
  (0 ≤ mserver_port a < 65536 → 0 ≤ mserver_port a' < 65536) ∧
  (0 ≤ Server.clients_port a < 65536 → 0 ≤ Server.clients_port a' < 65536) ∧
  (0 ≤ Server.servers_port a < 65536 → 0 ≤ Server.servers_port a' < 65536) ∧
  (0 ≤ mservers_port a < 65536 → 0 ≤ mservers_port a' < 65536).
Proof.
  induction os as [|o os IH]; intros a a' Hparse.
  { simpl in Hparse. by simplify_eq. }
  simpl in Hparse. destruct (parse_option a o) as [a1|] eqn:Ho; [|done].
  apply IH in Hparse as (H1 & H2 & H3 & H4).
  assert (0 < 65536) as Hpos by lia.
  destruct o; simpl in Ho; simplify_eq; simpl in *;
    (split; [intros Hr|split; [intros Hr|split; intros Hr]]);
    first [apply H1 | apply H2 | apply H3 | apply H4];
    first [done | by apply Z.mod_pos_bound].
Qed.

(** X23: a server that gets through [parse_args] and [init_server] starts
    with an id below the number of servers, which is at least three, with
    four ports between 1 and 65535, ONLINE, with both tables empty, without
    a partner ([primary_fd] and [secondary_fd] closed) and with the
    connection to the coordinator it was given. *)
Theorem server_start os ie a s :
  parse_args os = Some a → init_server ie a = Some s →
  valid_ids s ∧
  server_id s = arg_server_id a ∧ num_servers s = arg_num_servers a ∧
  1 ≤ mserver_port a ≤ 65535 ∧ 1 ≤ Server.clients_port a ≤ 65535 ∧
  1 ≤ Server.servers_port a ≤ 65535 ∧ 1 ≤ mservers_port a ≤ 65535 ∧
  mserver_host_name a ≠ "" ∧
  state s = KV_SERVER_ONLINE ∧ primary_hash s = ∅ ∧ secondary_hash s = ∅ ∧
  primary_fd s = -1 ∧ secondary_fd s = -1 ∧
  mserver_fd_out s = mserver_connect ie ∧ 0 ≤ mserver_fd_out s.
Proof.
  unfold parse_args, init_server. intros Hparse Hinit.
  destruct (parse_options args_init os) as [a0|] eqn:Hos; [|done].
  apply server_parse_options_ports in Hos as (H1 & H2 & H3 & H4). simpl in *.
  specialize (H1 ltac:(lia)). specialize (H2 ltac:(lia)).
  specialize (H3 ltac:(lia)). specialize (H4 ltac:(lia)).
  destruct (String.eqb (mserver_host_name a0) "") eqn:Hh; [done|].
  destruct (mserver_port a0 =? 0) eqn:Hp1; [done|].
  destruct (Server.clients_port a0 =? 0) eqn:Hp2; [done|].
  destruct (Server.servers_port a0 =? 0) eqn:Hp3; [done|].
  destruct (mservers_port a0 =? 0) eqn:Hp4; [done|].
  destruct (3 <=? arg_num_servers a0) eqn:Hn; [|done].
  destruct (0 <=? arg_server_id a0) eqn:Hi0; [|done].
  destruct (arg_server_id a0 <? arg_num_servers a0) eqn:Hi1; [|done].
  simpl in Hparse. simplify_eq.
  destruct (host_name_ok ie); [|done]. destruct (listen_ok ie); [|done].
  destruct (mserver_connect ie <? 0) eqn:Hc; [done|].
  destruct (primary_hash_init_ok ie); [|done].
  destruct (secondary_hash_init_ok ie); [|done].
  destruct (heartbeat_thread_ok ie); [|done].
  simpl in Hinit. simplify_eq. simpl.
  apply Z.eqb_neq in Hp1, Hp2, Hp3, Hp4. apply String.eqb_neq in Hh.
  apply Z.leb_le in Hn, Hi0. apply Z.ltb_lt in Hi1. apply Z.ltb_ge in Hc.
  unfold valid_ids. simpl. repeat split; try done; lia.
Qed.

End ServerCommands.

(** * The heartbeat, from the server to the detector *)

Section HeartbeatTask.

Import MServer.

(** X24: the message [heartbeat_task] sends protects the server from the
    detector for two seconds.  The coordinator's handler records its own
    time for the node with the server's id and keeps the connection, and a
    pass of the detection loop at most two seconds later leaves that node
    as the handler left it: no replacement, sockets and status as before. *)
Theorem heartbeat_protects e e' (s : Server.server) st :
  let i := Server.server_id s in
  0 ≤ i < num_servers st → in_table st i →
  now e' - now e ≤ 2 →
  let r := process_server_message e (Some (Server.heartbeat_request s)) st in
  r.2 = true ∧
  node_at r.1 i = set_last_heartbeat (now e) (node_at st i) ∧
  node_at (failure_detection e' r.1) i = set_last_heartbeat (now e) (node_at st i).
Proof.
  intros i Hi Hin Ht r.
  assert (r = (update_node i (set_last_heartbeat (now e)) st, true)) as -> by done.
  cbn [fst snd]. set (st2 := update_node i _ st).
  assert (in_table st2 i) as Hin2 by (by apply in_table_update_node).
  assert (node_at st2 i = set_last_heartbeat (now e) (node_at st i)) as Hn.
  { unfold st2. rewrite node_at_update_node. by rewrite decide_True. }
  split; [done|]. split; [done|].
  unfold failure_detection.
  assert (num_servers st2 = num_servers st) as -> by done.
  replace (num_servers st) with (i + (1 + (num_servers st - i - 1))) by lia.
  rewrite seqZ_app by lia. rewrite (seqZ_cons (0 + i)) by lia.
  rewrite foldl_app. simpl.
  set (st1 := foldl (detect_failure e') st2 (seqZ 0 i)).
  assert (node_at st1 i = node_at st2 i) as H1.
  { apply foldl_detect_failure_skip. intros j Hj. left.
    apply elem_of_seqZ in Hj. lia. }
  assert (in_table st1 i) as Hin1 by (by apply foldl_detect_failure_in_table).
  rewrite foldl_detect_failure_skip.
  - rewrite detect_failure_self by done. rewrite H1, Hn.
    unfold heartbeat_check_failed, heartbeat_check_diff. simpl.
    replace (2 <? now e' - now e) with false; [by rewrite andb_false_r|].
    symmetry. apply Z.ltb_ge. lia.
  - intros j Hj. left. apply elem_of_seqZ in Hj. lia.
Qed.

End HeartbeatTask.

(** * The properties above in the three-server configuration *)

Section ScenarioRuns.

Import Scenario.

Lemma st_configured_well_formed : well_formed st_configured.
Proof.
  split; [simpl; lia|]. intros i Hi.
  assert (i = 0 ∨ i = 1 ∨ i = 2) as [-> | [-> | ->]] by (simpl in Hi; lia);
    vm_compute; eauto.
Qed.

Lemma st0_late_well_formed : well_formed st0_late.
Proof.
  split; [simpl; lia|]. intros i Hi.
  assert (i = 0 ∨ i = 1 ∨ i = 2) as [-> | [-> | ->]] by (simpl in Hi; lia);
    vm_compute; eauto.
Qed.

Lemma st0_outside j : ¬ 0 ≤ j < 3 → MServer.node_at st0 j = MServer.dead_node.
Proof.
  intros Hj. unfold MServer.node_at, st0. simpl.
  rewrite !lookup_total_insert_ne by lia. by rewrite lookup_total_empty.
Qed.

Lemma st0_late_others j :
  j ≠ 0 → MServer.heartbeat_check_failed (env_ok 100) (MServer.node_at st0_late j) = false.
Proof.
  intros Hj. destruct (decide (j = 1)) as [->|H1]; [by vm_compute|].
  destruct (decide (j = 2)) as [->|H2]; [by vm_compute|].
  unfold st0_late. rewrite !node_at_update_node_skip by lia.
  rewrite st0_outside by lia. by vm_compute.
Qed.

(** The configuration file of the three servers is accepted. *)
Lemma read_config_file_accepted_witness :
  MServer.read_config_file KV_SERVER_ONLINE true args0 (Some cfg0) = Some st_configured ∧
  well_formed st_configured ∧
  MServer.cfg_num_servers cfg0 = Some 3.
Proof.
  assert (MServer.read_config_file KV_SERVER_ONLINE true args0 (Some cfg0)
          = Some st_configured) as Hread by reflexivity.
  split; [exact Hread|].
  destruct (read_config_file_accepted KV_SERVER_ONLINE true args0 cfg0 st_configured Hread)
    as (_ & Hwf & Hn & _).
  split; [exact Hwf|exact Hn].
Defined.

(** Server 0 is late and its replacement starts. *)
Lemma failure_detection_node_witness :
  in_table st0_late 0 ∧
  MServer.node_at (MServer.failure_detection (env_ok 100) st0_late) 0 =
    replacement_of 100 30 40 (MServer.node_at st0_late 0).
Proof.
  assert (in_table st0_late 0) as Hin by (vm_compute; eauto).
  split; [exact Hin|].
  assert (0 ≤ 0 < MServer.num_servers st0_late) as Hi by (simpl; lia).
  exact (failure_detection_node (env_ok 100) st0_late 0 Hi Hin).
Defined.

(** Server 0 is late: UPDATE_PRIMARY goes to server 1 and UPDATE_SECONDARY
    to server 2, each naming the address of server 0. *)
Lemma failure_detection_starts_recovery_witness :
  well_formed st0_late ∧
  MServer.sent (MServer.failure_detection (env_ok 100) st0_late) =
    [(1, CtrlReq UPDATE_PRIMARY "localhost" 9001);
     (2, CtrlReq UPDATE_SECONDARY "localhost" 9001)].
Proof.
  split; [exact st0_late_well_formed|].
  destruct (failure_detection_starts_recovery (env_ok 100) st0_late 0) as [_ Hsent].
  - exact st0_late_well_formed.
  - simpl; lia.
  - reflexivity.
  - exact st0_late_others.
  - exact Hsent.
Defined.

(** The recovery of server 0: the key ["abc"] is answered with server 1
    until both acknowledgments are in, then with server 0. *)
Lemma recovery_reroutes_locate_witness :
  let st1 := MServer.failure_detection (env_ok 100) st0_late in
  let st2 := (MServer.process_server_message (env_ok 100)
                (Some (MCtrlReq UPDATED_PRIMARY 1)) st1).1 in
  let st3 := (MServer.process_server_message (env_ok 100)
                (Some (MCtrlReq UPDATED_SECONDARY 2)) st2).1 in
  MServer.process_client_message H0 st1 (Some "abc"%string) = Some (LocResp "h1" 9010) ∧
  MServer.process_client_message H0 st2 (Some "abc"%string) = Some (LocResp "h1" 9010) ∧
  MServer.process_client_message H0 st3 (Some "abc"%string) = Some (LocResp "localhost" 9000) ∧
  MServer.server_status (MServer.node_at st3 0) = KV_SERVER_ONLINE.
Proof.
  apply (recovery_reroutes_locate H0 true (env_ok 100) (env_ok 100) (env_ok 100)
           st0_late 0 30 40 "abc").
  - exact st0_late_well_formed.
  - simpl; lia.
  - reflexivity.
  - exact st0_late_others.
  - reflexivity.
  - reflexivity.
  - reflexivity.
  - reflexivity.
Defined.

(** Server 0 sends its heartbeat in two turns a second apart. *)
Lemma timely_heartbeats_keep_server_witness :
  let st' := (MServer.run_mserver_loop H0 st0
                [MServer.Ready (env_ok 1) heartbeats [];
                 MServer.Ready (env_ok 2) heartbeats []]).1 in
  MServer.socket_fd_in (MServer.node_at st' 0) = 10 ∧
  MServer.socket_fd_out (MServer.node_at st' 0) = 20 ∧
  (MServer.server_status (MServer.node_at st' 0) = KV_SERVER_ONLINE ∨
   MServer.server_status (MServer.node_at st' 0) = KV_SERVER_ONLINE).
Proof.
  apply (timely_heartbeats_keep_server H0 st0
           [MServer.Ready (env_ok 1) heartbeats [];
            MServer.Ready (env_ok 2) heartbeats []] 0).
  - vm_compute; eauto.
  - by vm_compute.
  - assert (∀ m : Z * option mserver_ctrl_request,
              m ∈ heartbeats → m.1 = 0 → accepted_message m) as Hacc.
    { intros m Hm _. unfold heartbeats in Hm.
      apply list_elem_of_In in Hm. simpl in Hm.
      destruct Hm as [<- | [<- | [<- | []]]]; eexists; (split; [reflexivity|done]). }
    assert (MServer.last_heartbeat (MServer.node_at st0 0) = 0) as -> by reflexivity.
    simpl. split; [lia|]. split; [apply list_elem_of_here|]. split; [exact Hacc|].
    split; [lia|]. split; [apply list_elem_of_here|]. split; [exact Hacc|exact I].
Defined.

(** The switch for server 0 does not disturb the key ["ab"] of server 2. *)
Lemma switch_leaves_other_keys_witness :
  MServer.route H0 (MServer.handle_switch_primary (env_ok 0) 0 1 st0_recovering) "ab" = 2 ∧
  MServer.process_client_message H0
    (MServer.handle_switch_primary (env_ok 0) 0 1 st0_recovering) (Some "ab"%string) =
  Some (LocResp "h2" 9020).
Proof.
  apply (switch_leaves_other_keys H0 (env_ok 0) st0_recovering 0 1 "ab").
  - by vm_compute.
  - by vm_compute.
  - by vm_compute.
Defined.

(** The three servers start and each is told its secondary. *)
Lemma init_servers_success_witness :
  let st' := (MServer.init_servers (env_ok 0) st_configured).1 in
  MServer.num_servers st' = 3 ∧
  MServer.sent st' =
    [(0, CtrlReq SET_SECONDARY "h1" 9011); (1, CtrlReq SET_SECONDARY "h2" 9021);
     (2, CtrlReq SET_SECONDARY "localhost" 9001)].
Proof.
  destruct (init_servers_success (env_ok 0) st_configured
              (MServer.init_servers (env_ok 0) st_configured).1) as (Hn & Hsent & _).
  - exact st_configured_well_formed.
  - by vm_compute.
  - split; [exact Hn|]. vm_compute in Hsent. vm_compute. exact Hsent.
Defined.

(** Server 2 cannot be started: servers 0 and 1 are shut down. *)
Lemma init_mserver_spawn_failure_witness :
  let r := MServer.init_mserver true true true env_spawn_two st_configured in
  r.2 = false ∧
  MServer.sent r.1 = [(0, MServer.shutdown_request); (1, MServer.shutdown_request)] ∧
  MServer.server_nodes r.1 = ∅.
Proof.
  apply (init_mserver_spawn_failure true env_spawn_two st_configured 2).
  - exact st_configured_well_formed.
  - intros i Hi. simpl in Hi.
    assert (i = 0 ∨ i = 1 ∨ i = 2) as [-> | [-> | ->]] by lia; reflexivity.
  - simpl; lia.
  - intros i Hi. assert (i = 0 ∨ i = 1) as [-> | ->] by lia.
    + exists 30, 40. split; [reflexivity|lia].
    + exists 31, 41. split; [reflexivity|lia].
  - intros fd_in fd_out. simpl. discriminate.
Defined.

(** A command line whose last [-t] is 0. *)
Lemma parse_args_accepted_witness :
  MServer.parse_args options0 =
    Some {| MServer.clients_port := 5000; MServer.servers_port := 5001;
            MServer.cfg_file_name := "srv.cfg"; MServer.log_file_name := "";
            MServer.server_timeout := 3 |} ∧
  (MServer.Opt_invalid ∉ options0).
Proof.
  assert (MServer.parse_args options0 =
    Some {| MServer.clients_port := 5000; MServer.servers_port := 5001;
            MServer.cfg_file_name := "srv.cfg"; MServer.log_file_name := "";
            MServer.server_timeout := 3 |}) as Hparse by reflexivity.
  split; [exact Hparse|].
  exact (proj1 (parse_args_accepted options0 _ Hparse)).
Defined.

(** Server 1, just started, takes a PUT of its key ["a"]. *)
Lemma put_without_partner_witness :
  let res := Server.process_client_message H0 (env_forward None)
               (Some (Server.OpReq Server.OP_PUT "a" "new")) (srv_started 1) in
  Server.cr_forwarded res = None ∧
  Server.cr_reply res = Some (Server.OpResp SUCCESS "") ∧
  Server.primary_hash (Server.cr_server res) !! "a"%string = Some "new"%string.
Proof.
  apply (put_without_partner H0 (env_forward None) (srv_started 1) "a" "new").
  - by vm_compute.
  - reflexivity.
  - reflexivity.
  - by vm_compute.
Defined.

(** Server 1 stores ["a"], its partner acknowledges, another client stores
    ["b"], and the GET of ["a"] finds the value stored. *)
Lemma put_then_get_witness :
  let s' := Server.cr_server
              (Server.process_client_message H0 (env_forward (Some SUCCESS))
                 (Some (Server.OpReq Server.OP_PUT "a" "new")) srv1) in
  let s'' := Server.cr_server
               (Server.process_client_message H0 (env_forward (Some SUCCESS))
                  (Some (Server.OpReq Server.OP_PUT "b" "other")) s') in
  Server.process_client_message H0 (env_forward None)
    (Some (Server.OpReq Server.OP_GET "a" "")) s''
  = Server.ClientResult s'' None (Some (Server.OpResp SUCCESS "new")).
Proof.
  apply (put_then_get H0 (env_forward (Some SUCCESS)) (env_forward None) srv1 _ "a" "new" "").
  - by vm_compute.
  - by vm_compute.
  - by vm_compute.
Defined.

(** Server 1 forwards the PUT of ["a"] to server 2. *)
Lemma replicated_put_witness :
  let partner := Server.process_server_message H0 (env_forward None)
                   (Some (Server.OpReq Server.OP_PUT "a" "new")) (srv_started 2) in
  let res := Server.process_client_message H0 (env_forward (Some SUCCESS))
               (Some (Server.OpReq Server.OP_PUT "a" "new")) srv1 in
  Server.cr_reply res = Some (Server.OpResp SUCCESS "") ∧
  Server.primary_hash (Server.cr_server res) !! "a"%string = Some "new"%string ∧
  Server.secondary_hash partner.1.1 !! "a"%string = Some "new"%string.
Proof.
  destruct (replicated_put H0 (env_forward (Some SUCCESS)) (env_forward None)
              srv1 (srv_started 2) "a" "new") as [Hiff Hstored].
  - split; simpl; lia.
  - by vm_compute.
  - reflexivity.
  - by vm_compute.
  - by vm_compute.
  - by vm_compute.
  - assert (Server.cr_reply
              (Server.process_client_message H0 (env_forward (Some SUCCESS))
                 (Some (Server.OpReq Server.OP_PUT "a" "new")) srv1)
            = Some (Server.OpResp SUCCESS "")) as Hreply by (by apply Hiff).
    split; [exact Hreply|]. exact (proj2 (Hstored Hreply)).
Defined.

(** Server 1 streams its secondary table to the replacement of server 0. *)
Lemma stream_restores_witness :
  let d' := receive_all H0 (env_forward None)
              (stream_requests (Server.send_table_task srv1).2) (srv_started 0) in
  Server.primary_hash d' !! "abc"%string = Some "red"%string.
Proof.
  destruct (stream_restores H0 (env_forward None) srv1 (srv_started 0)) as (_ & Hin & _).
  - reflexivity.
  - reflexivity.
  - destruct (Hin "abc"%string "red"%string) as [_ Hv].
    + by vm_compute.
    + left. by vm_compute.
    + apply Hv. simpl. repeat split; discriminate.
Defined.

(** Server 1 stands in for server 0 while it streams to the replacement. *)
Lemma interim_primary_serves_witness :
  let s1 := (Server.start_replacement (env_forward None) "localhost" 9001
               (Server.set_send_primary false srv1)).1.1 in
  Server.state s1 = KV_UPDATING_PRIMARY ∧ Server.primary_fd s1 = 9 ∧
  Server.process_client_message H0 (env_forward (Some SUCCESS))
    (Some (Server.OpReq Server.OP_GET "abc" "")) s1
  = Server.ClientResult s1 None (Some (Server.OpResp SUCCESS "red")).
Proof.
  destruct (interim_primary_serves H0 (env_forward None) "localhost" 9001 srv1
              (env_forward (Some SUCCESS)) "abc" "")
    as (_ & _ & Hst & Hfd & _ & _ & _ & _ & Hget).
  - simpl; lia.
  - reflexivity.
  - by vm_compute.
  - reflexivity.
  - reflexivity.
  - split; [exact Hst|]. split; [exact Hfd|]. exact Hget.
Defined.

(** Server 1 of the three starts. *)
Lemma server_start_witness :
  Server.parse_args server_options1 = Some server_args1 ∧
  Server.init_server init_env_ok server_args1 = Some (srv_started 1) ∧
  valid_ids (srv_started 1).
Proof.
  assert (Server.parse_args server_options1 = Some server_args1) as Hparse by reflexivity.
  assert (Server.init_server init_env_ok server_args1 = Some (srv_started 1)) as Hinit
    by reflexivity.
  split; [exact Hparse|]. split; [exact Hinit|].
  exact (proj1 (server_start server_options1 init_env_ok server_args1 (srv_started 1)
                  Hparse Hinit)).
Defined.

(** Server 1 sends its heartbeat at time 100; the detector runs at 102. *)
Lemma heartbeat_protects_witness :
  let r := MServer.process_server_message (env_ok 100)
             (Some (Server.heartbeat_request srv1)) st0 in
  in_table st0 1 ∧
  MServer.node_at (MServer.failure_detection (env_ok 102) r.1) 1 =
    MServer.set_last_heartbeat 100 (MServer.node_at st0 1).
Proof.
  assert (in_table st0 1) as Hin by (vm_compute; eauto).
  split; [exact Hin|].
  destruct (heartbeat_protects (env_ok 100) (env_ok 102) srv1 st0) as (_ & _ & Hnode).
  - simpl; lia.
  - exact Hin.
  - simpl; lia.
  - exact Hnode.
Defined.

(** The file of the three servers meets the conditions of acceptance. *)
Lemma read_config_file_accepts_iff_witness :
  (∃ n, MServer.cfg_num_servers cfg0 = Some n ∧ 3 ≤ n ∧
        ∀ i, 0 ≤ i < n →
             ∃ l, MServer.cfg_lines cfg0 !! Z.to_nat i = Some (Some l) ∧ acceptable_line l) ∧
  ¬ is_Some (MServer.read_config_file KV_SERVER_ONLINE false args0 (Some cfg0)).
Proof.
  split.
  - apply (proj1 (read_config_file_accepts_iff KV_SERVER_ONLINE true args0 cfg0)).
    vm_compute; eauto.
  - intros Hsome.
    apply (proj1 (read_config_file_accepts_iff KV_SERVER_ONLINE false args0 cfg0)) in Hsome.
    destruct Hsome as [Hcalloc _]. discriminate Hcalloc.
Defined.

(** Two turns of the main loop, the second of which replaces server 0. *)
Lemma run_keeps_configuration_witness :
  well_formed st0 ∧
  well_formed (MServer.run_mserver_loop H0 st0
                 [MServer.Ready (env_ok 100) heartbeats [];
                  MServer.Ready (env_ok 103)
                    [(1, Some (MCtrlReq HEARTBEAT 1)); (2, Some (MCtrlReq HEARTBEAT 2))]
                    [Some "abc"%string]]).1.
Proof.
  split; [exact st0_well_formed|].
  exact (proj2 (proj2 (proj2 (run_keeps_configuration H0 st0 _))) st0_well_formed).
Defined.

(** A GET leaves server 1 as it is. *)
Lemma client_request_frame_witness :
  Server.cr_server (Server.process_client_message H0 (env_forward None)
                      (Some (Server.OpReq Server.OP_GET "a" "")) srv1) = srv1.
Proof.
  destruct (client_request_frame H0 (env_forward None)
              (Some (Server.OpReq Server.OP_GET "a" "")) srv1) as (_ & _ & _ & Hget).
  apply (Hget (Server.OpReq Server.OP_GET "a" "")); [reflexivity|discriminate].
Defined.

(** Server 2 takes the PUT of ["a"], a key of server 1, from its peer. *)
Lemma peer_put_outcome_witness :
  let r := Server.process_server_message H0 (env_forward None)
             (Some (Server.OpReq Server.OP_PUT "a" "new")) (srv_started 2) in
  r.1.2 = Some (Server.OpResp SUCCESS "") ∧
  r.1.1 = Server.set_table Server.SecondaryHash {[ "a"%string := "new"%string ]} (srv_started 2).
Proof.
  destruct (peer_put_outcome H0 (env_forward None) (srv_started 2) "a" "new")
    as (_ & Hiff & Hstored & _).
  assert ((Server.process_server_message H0 (env_forward None)
             (Some (Server.OpReq Server.OP_PUT "a" "new")) (srv_started 2)).1.2
          = Some (Server.OpResp SUCCESS "")) as Hok.
  { apply Hiff. split; [reflexivity|]. split; [reflexivity|]. right. by vm_compute. }
  split; [exact Hok|]. rewrite (Hstored Hok). by vm_compute.
Defined.

(** A value without a NUL byte is streamed as it is. *)
Lemma strncpy_value_witness : Server.strncpy "red" = "red"%string.
Proof.
  apply (proj1 (proj2 strncpy_value) "red"%string).
  simpl. repeat split; discriminate.
Defined.

(** Server 1 gets SWITCH_PRIMARY while a PUT of ["abc"], a key of server 0,
    is pending. *)
Lemma switch_primary_flush_witness :
  let r := Server.process_mserver_message H0 (env_forward None)
             [(env_forward None, Some (Server.OpReq Server.OP_PUT "abc" "x"))]
             (Some (CtrlReq SWITCH_PRIMARY "" 0)) srv1 in
  Server.mr_response r = Some CTRLREQ_SUCCESS ∧
  Server.secondary_hash (Server.mr_server r) = Server.secondary_hash srv1 ∧
  Forall (λ res, Server.cr_reply res = Some (Server.OpResp SERVER_FAILURE ""))
         (Server.mr_flushed r).
Proof.
  destruct (switch_primary_flush H0 (env_forward None)
              [(env_forward None, Some (Server.OpReq Server.OP_PUT "abc" "x"))]
              "" 0 srv1) as (Hresp & _ & _ & _ & _ & Hsec & Hall).
  split; [exact Hresp|]. split; [exact Hsec|].
  apply Forall2_cons_inv_l in Hall as (res & rs & Hres & Hrs & ->).
  apply Forall2_nil_inv_l in Hrs as ->.
  constructor; [|constructor].
  apply (Hres (Server.OpReq Server.OP_PUT "abc" "x")); [reflexivity|by vm_compute].
Defined.

(** Server 1 gets UPDATE_PRIMARY and reaches the replacement. *)
Lemma update_command_outcome_witness :
  let r := Server.process_mserver_message H0 (env_forward None) []
             (Some (CtrlReq UPDATE_PRIMARY "localhost" 9001)) srv1 in
  Server.mr_response r = Some CTRLREQ_SUCCESS ∧
  Server.primary_fd (Server.mr_server r) = 9 ∧
  Server.state (Server.mr_server r) = KV_SERVER_ONLINE.
Proof.
  destruct (update_command_outcome H0 true (env_forward None) [] "localhost" 9001 srv1)
    as (_ & _ & Hst & _ & _ & _ & Hresp & Hstarted & _).
  destruct (Hstarted ltac:(by vm_compute)) as [_ Hfd].
  split; [exact Hresp|]. split; [exact Hfd|exact Hst].
Defined.

End ScenarioRuns.
